(** * javascript-antiplagiarism: the router protocol, embedded and verified

    A shallow embedding of the build tool (RouterCallsCreator: dependency
    analysis, key derivation, mapping and precomputed table), of the browser
    runtime (Router.js: key reconstruction, descriptor parsing and dispatch,
    tamper verification), of the page's hash listener and of the browser
    extension that feeds it, followed by the properties of the protocol.

    Conventions of the embedding.
    - JavaScript strings are [string]s; every string the protocol handles
      (paths, hex digests, descriptors) is ASCII, so code units and bytes
      coincide.
    - A plain JavaScript object used as a dictionary is an association list
      in insertion order ([dict]); [for ... in] walks it front to back,
      assignment to an existing key keeps the key's position.
    - A [Uint8Array] is a [list Z] of values in [0, 256).
    - A [throw] is the [Throw] constructor of the error monad [Exc].
    - Host builtins whose algorithm is not part of the repository (the regex
      engine, SHA-256, AES-CBC, JSON.parse, path.basename, the file system)
      are fields of the classes [BuildHost], [BrowserHost], [PageHost] and
      [ExtensionHost].
    - An association list holds the entries an object has of its own; where
      the code reads or assigns a name that an object literal inherits from
      [Object.prototype] and the outcome depends on it, the embedding says so
      ([inherited], [onMessage]).
    - Console output and calls of page functions are [Event]s, collected in
      the order in which the code performs them. *)

From Stdlib Require Import List String Ascii ZArith Bool Arith Lia Permutation.
Import ListNotations.

Local Open Scope string_scope.
Local Open Scope nat_scope.
Local Open Scope list_scope.

(* ================================================================= *)
(** * Part I: definitions *)
(* ================================================================= *)

(** ** JavaScript strings *)

Module JsString.

(** [s.endsWith(suffix)] *)
Definition endsWith (s suffix : string) : bool :=
  let n := String.length s in
  let m := String.length suffix in
  if m <=? n then String.eqb (substring (n - m) m s) suffix else false.

(** [s.startsWith(p)] *)
Fixpoint startsWith (s p : string) : bool :=
  match p, s with
  | EmptyString, _ => true
  | String _ _, EmptyString => false
  | String a p', String b s' => Ascii.eqb a b && startsWith s' p'
  end.

(** [s.includes(t)] *)
Fixpoint includes (s t : string) : bool :=
  startsWith s t ||
  match s with
  | EmptyString => false
  | String _ s' => includes s' t
  end.

(** [s.split(sep)] for a separator that is one character out of a class:
    [split (Ascii.eqb "-") s] is [s.split("-")], and the class of both
    slashes gives [s.split(/[\\/]/)].  The result is never empty. *)
Fixpoint split (isSep : ascii -> bool) (s : string) : list string :=
  match s with
  | EmptyString => [EmptyString]
  | String c rest =>
      if isSep c then EmptyString :: split isSep rest
      else match split isSep rest with
           | [] => [String c EmptyString]
           | h :: t => String c h :: t
           end
  end.

(** [parts.pop()] on the result of a split: its last element. *)
Definition pop (parts : list string) : string := last parts EmptyString.

Definition asciiToLower (c : ascii) : ascii :=
  let n := nat_of_ascii c in
  if (65 <=? n) && (n <=? 90) then ascii_of_nat (n + 32) else c.

(** [s.toLowerCase()] on ASCII text *)
Fixpoint toLowerCase (s : string) : string :=
  match s with
  | EmptyString => EmptyString
  | String c rest => String (asciiToLower c) (toLowerCase rest)
  end.

(** ToBoolean of a string: only the empty string is falsy. *)
Definition truthy (s : string) : bool :=
  match s with EmptyString => false | _ => true end.

Definition isBackslash (c : ascii) : bool := Ascii.eqb c "\".
Definition isSlash (c : ascii) : bool := Ascii.eqb c "/".
Definition isDash (c : ascii) : bool := Ascii.eqb c "-".
Definition isComma (c : ascii) : bool := Ascii.eqb c ",".

End JsString.

(** ** Objects used as dictionaries, and Sets *)

Definition dict (V : Type) : Type := list (string * V).

Section Dict.
Context {V : Type}.

(** [d[k]]; [None] is [undefined]. *)
Fixpoint dict_get (k : string) (d : dict V) : option V :=
  match d with
  | [] => None
  | (k', v) :: rest => if String.eqb k k' then Some v else dict_get k rest
  end.

(** [d[k] = v] *)
Fixpoint dict_set (k : string) (v : V) (d : dict V) : dict V :=
  match d with
  | [] => [(k, v)]
  | (k', v') :: rest =>
      if String.eqb k k' then (k', v) :: rest else (k', v') :: dict_set k v rest
  end.

Definition dict_keys (d : dict V) : list string := map fst d.

(** [k in d] *)
Definition dict_has (k : string) (d : dict V) : bool :=
  match dict_get k d with Some _ => true | None => false end.
End Dict.

(** A [Set] of strings, in insertion order. *)
Definition StrSet : Type := list string.

Definition set_has (x : string) (s : StrSet) : bool := existsb (String.eqb x) s.

(** [s.add(x)]: a new element goes last, as a Set iterates in insertion order. *)
Definition set_add (x : string) (s : StrSet) : StrSet :=
  if set_has x s then s else s ++ [x].

(** ** Exceptions *)

Inductive Exc (A : Type) : Type :=
| Ok (a : A)
| Throw (e : string).
Arguments Ok {A} a.
Arguments Throw {A} e.

Definition bind {A B : Type} (m : Exc A) (k : A -> Exc B) : Exc B :=
  match m with
  | Ok a => k a
  | Throw e => Throw e
  end.

Notation "x <- m ;; k" := (bind m (fun x => k))
  (at level 61, m at next level, right associativity).

(** ** Byte buffers and hex strings *)

Definition Uint8Array : Type := list Z.

(** [new Uint8Array(n)] *)
Definition newUint8Array (n : nat) : Uint8Array := repeat 0%Z n.

Module Hex.

Definition isWhite (c : ascii) : bool :=
  let n := nat_of_ascii c in
  ((9 <=? n) && (n <=? 13)) || (n =? 32).

Definition digitValue (c : ascii) : option Z :=
  let n := nat_of_ascii c in
  if (48 <=? n) && (n <=? 57) then Some (Z.of_nat (n - 48))
  else if (97 <=? n) && (n <=? 102) then Some (Z.of_nat (n - 87))
  else if (65 <=? n) && (n <=? 70) then Some (Z.of_nat (n - 55))
  else None.

Fixpoint skipWhite (s : string) : string :=
  match s with
  | String c rest => if isWhite c then skipWhite rest else s
  | EmptyString => s
  end.

(** The value of the longest prefix of hex digits; [None] if there is none. *)
Fixpoint digits (acc : option Z) (s : string) : option Z :=
  match s with
  | EmptyString => acc
  | String c rest =>
      match digitValue c with
      | Some d =>
          digits (Some (16 * match acc with Some a => a | None => 0 end + d)%Z) rest
      | None => acc
      end
  end.

Definition strip0x (s : string) : string :=
  match s with
  | String "0" (String "x" rest) => rest
  | String "0" (String "X" rest) => rest
  | _ => s
  end.

(** [parseInt(s, 16)]; [None] is NaN. *)
Definition parseInt16 (s : string) : option Z :=
  match skipWhite s with
  | String "-" rest => option_map Z.opp (digits None (strip0x rest))
  | String "+" rest => digits None (strip0x rest)
  | t => digits None (strip0x t)
  end.

(** Storing a number into a [Uint8Array] slot. *)
Definition toUint8 (v : option Z) : Z :=
  match v with
  | Some z => (z mod 256)%Z
  | None => 0%Z
  end.

Definition hexDigit (d : Z) : ascii :=
  if (d <? 10)%Z then ascii_of_nat (48 + Z.to_nat d) else ascii_of_nat (87 + Z.to_nat d).

(** [b.toString(16)] for a byte *)
Definition toString16 (b : Z) : string :=
  if (b <? 16)%Z then String (hexDigit b) EmptyString
  else String (hexDigit (b / 16)) (String (hexDigit (b mod 16)) EmptyString).

(** [s.slice(-2)] *)
Definition sliceLast2 (s : string) : string :=
  substring (String.length s - 2) 2 s.

End Hex.

(** The pairs loop of [hexStringToUint8Array]:
    [array[i / 2] = parseInt(hexString.substr(i, 2), 16)]. *)
Fixpoint hexPairs (s : string) : Uint8Array :=
  match s with
  | String a (String b rest) =>
      Hex.toUint8 (Hex.parseInt16 (String a (String b EmptyString))) :: hexPairs rest
  | _ => []
  end.

Definition hexStringToUint8Array (hexString : string) : Exc Uint8Array :=
  if negb (String.length hexString mod 2 =? 0) then Throw "Invalid hexString"
  else Ok (hexPairs hexString).

(** The element loop of [xorBuffers]. *)
Fixpoint xorBytes (a b : Uint8Array) : Uint8Array :=
  match a, b with
  | x :: a', y :: b' => Z.lxor x y :: xorBytes a' b'
  | _, _ => []
  end.

(** [xorBuffers(a, b)]; the two files that declare it differ in the message
    of the exception only. *)
Definition xorBuffersWith (message : string) (a b : Uint8Array) : Exc Uint8Array :=
  if negb (List.length a =? List.length b) then Throw message
  else Ok (xorBytes a b).

(** Router.js *)
Definition xorBuffers : Uint8Array -> Uint8Array -> Exc Uint8Array :=
  xorBuffersWith "Buffers must be of equal length".

(** RouterCallsCreator.js *)
Definition xorArrays : Uint8Array -> Uint8Array -> Exc Uint8Array :=
  xorBuffersWith "Arrays must be of equal length".

Definition byteToHex (b : Z) : string :=
  Hex.sliceLast2 (String.append "00" (Hex.toString16 b)).

Definition uint8ArrayToHexString (uint8arr : Uint8Array) : string :=
  String.concat "" (map byteToHex uint8arr).

(** A byte, as a [Uint8Array] slot holds it. *)
Definition isByte (b : Z) : Prop := (0 <= b < 256)%Z.

(** Rendering byte [n] as hex and reading it back gives [n]. *)
Definition byteRoundTrips (n : nat) : bool :=
  match byteToHex (Z.of_nat n) with
  | String a (String b EmptyString) =>
      Z.eqb (Hex.toUint8 (Hex.parseInt16 (String a (String b EmptyString)))) (Z.of_nat n)
  | _ => false
  end.


(** ** Outcomes of fuelled and throwing computations *)

Inductive Outcome (A : Type) : Type :=
| OutOfFuel
| Raised (e : string)
| Returned (a : A).
Arguments OutOfFuel {A}.
Arguments Raised {A} e.
Arguments Returned {A} a.

Definition obind {A B : Type} (m : Outcome A) (k : A -> Outcome B) : Outcome B :=
  match m with
  | OutOfFuel => OutOfFuel
  | Raised e => Raised e
  | Returned a => k a
  end.

Fixpoint foldExc {A B : Type} (f : A -> B -> Exc A) (l : list B) (a : A) : Exc A :=
  match l with
  | [] => Ok a
  | x :: rest => a' <- f a x ;; foldExc f rest a'
  end.

(** The value an [Exc] holds, if any. *)
Definition okValue {A : Type} (r : Exc A) : option A :=
  match r with Ok a => Some a | Throw _ => None end.

(** The accumulator loop of the key derivation, as both sides run it:
    [xorResult = new Uint8Array(32)], then
    [xorResult = xorBuffers(xorResult, hash)] for each hash in turn. *)
Definition xorFold (hashes : list Uint8Array) : Exc Uint8Array :=
  foldExc xorBuffers hashes (newUint8Array 32).

(** ** The dependency tree *)

(** [{ routerDependant, dependencies: { file: node, ... } }] *)
#[warnings="-register-all"]
Inductive DependencyNode : Type :=
  mkNode (routerDependant : bool) (dependencies : list (string * DependencyNode)).

Definition routerDependant (n : DependencyNode) : bool :=
  match n with mkNode rd _ => rd end.

Definition dependencies (n : DependencyNode) : dict DependencyNode :=
  match n with mkNode _ deps => deps end.

Definition DependencyTree : Type := dict DependencyNode.

(** The number of nodes below a node. *)
Fixpoint nodeCount (n : DependencyNode) : nat :=
  match n with
  | mkNode _ deps => fold_right (fun dep c => S (nodeCount (snd dep)) + c) 0 deps
  end.

Definition forestCount (deps : dict DependencyNode) : nat :=
  fold_right (fun dep c => S (nodeCount (snd dep)) + c) 0 deps.

(** Every node below a node, in the order of a full walk, with its flag. *)
Fixpoint nodesBelow (n : DependencyNode) : list (string * bool) :=
  match n with
  | mkNode _ deps =>
      flat_map (fun dep => (fst dep, routerDependant (snd dep)) :: nodesBelow (snd dep)) deps
  end.

Definition forestNodes (deps : dict DependencyNode) : list (string * bool) :=
  flat_map (fun dep => (fst dep, routerDependant (snd dep)) :: nodesBelow (snd dep)) deps.

Definition forestPaths (deps : dict DependencyNode) : list string :=
  map fst (forestNodes deps).

(** A node as the graph construction shapes it.  [calls file] are the files
    [file] refers to and [rd file] tells whether [file] is router-dependent.
    The node of [file], reached with the Set [visited], carries the flag of
    [file]; its entries are the files [file] refers to that are not in
    [visited] and are not [file]; and each entry is such a node again,
    reached with [visited] and [file]. *)
Fixpoint graphNode (calls : string -> list string) (rd : string -> bool)
         (visited : StrSet) (file : string) (n : DependencyNode) : Prop :=
  match n with
  | mkNode flag deps =>
      flag = rd file
      /\ (forall c, In c (dict_keys deps) ->
                    In c (calls file) /\ ~ In c (set_add file visited))
      /\ (forall c, In c (calls file) ->
                    In c (dict_keys deps) \/ In c (set_add file visited))
      /\ fold_right (fun dep rest =>
                       graphNode calls rd (set_add file visited) (fst dep) (snd dep) /\ rest)
                    True deps
  end.

Definition graphForest (calls : string -> list string) (rd : string -> bool)
           (visited : StrSet) (deps : dict DependencyNode) : Prop :=
  fold_right (fun dep rest => graphNode calls rd visited (fst dep) (snd dep) /\ rest) True deps.

(** How many of [allFiles] a [visited] Set does not hold yet. *)
Definition unvisited (allFiles : list string) (visited : StrSet) : nat :=
  List.length (filter (fun f => negb (set_has f visited)) allFiles).

(* ----------------------------------------------------------------- *)
(** ** The build tool (RouterCallsCreator) *)

(** What the build tool takes from Node.js. *)
(** The members an object literal inherits from [Object.prototype]: a read
    of one of these names on a plain object has a value, and the value is
    truthy, also when the object has no such entry of its own. *)
Definition objectPrototypeMembers : list string :=
  [ "constructor"; "__defineGetter__"; "__defineSetter__"; "hasOwnProperty";
    "__lookupGetter__"; "__lookupSetter__"; "isPrototypeOf"; "propertyIsEnumerable";
    "toString"; "valueOf"; "__proto__"; "toLocaleString" ].

Definition inherited (name : string) : bool :=
  existsb (String.eqb name) objectPrototypeMembers.

(** The loop [fileDeclarations[file].forEach(fnName => ..)] of the function
    index: [!globalFunctionIndex[fnName]] is false for a name the index holds
    and for a name it inherits, and such a name is never assigned. *)
Definition indexDeclared (file : string) (declared : StrSet) (idx : dict string) : dict string :=
  fold_left (fun idx fnName =>
               match dict_get fnName idx with
               | Some _ => idx
               | None => if inherited fnName then idx else dict_set fnName file idx
               end) declared idx.

Class BuildHost : Type := {
  (** [fs.readFileSync(file, 'utf8')]; [None] when it throws *)
  readFileSync : string -> option string;
  (** [path.basename(file, '.js')] *)
  path_basename_js : string -> string;
  (** [path.basename(file)] *)
  path_basename : string -> string;
  (** the successive [match[1]] of [regexDeclaration] on a content *)
  regexDeclarationMatches : string -> list string;
  (** the successive [match[1]] of [regexCall] on a content *)
  regexCallMatches : string -> list string;
  (** the successive [match[1]] of [routerCallRegex] on a content *)
  routerCallRegexMatches : string -> list string;
  (** [crypto.createHash('sha256').update(content).digest('hex')] *)
  sha256hex : string -> string
}.

Definition dquote : string := String (ascii_of_nat 34) EmptyString.

(** [window["routerForwardCall"]] and [window['routerForwardCall']] *)
Definition markerDouble : string :=
  String.append "window[" (String.append dquote (String.append "routerForwardCall" (String.append dquote "]"))).
Definition markerSingle : string := "window['routerForwardCall']".

Section Analyzer.
Context `{BuildHost}.

Definition getDeclaredFunctions (content : string) : StrSet :=
  fold_left (fun declared m => set_add m declared) (regexDeclarationMatches content) [].

Definition getCalledFunctions (content : string) : StrSet :=
  fold_left (fun calls m => set_add m calls) (regexCallMatches content) [].

(** The four tables [analyzeDependencies] builds before it walks the files. *)
Definition buildFileBaseIndex (allFiles : list string) : dict string :=
  fold_left (fun idx file => dict_set (path_basename_js file) file idx) allFiles [].

Definition buildFileContents (allFiles : list string) : dict string :=
  fold_left (fun fc file =>
               match readFileSync file with
               | Some content => dict_set file content fc
               | None => fc
               end) allFiles [].

Definition buildFileDeclarations (allFiles : list string) : dict StrSet :=
  fold_left (fun fd file =>
               match readFileSync file with
               | Some content => dict_set file (getDeclaredFunctions content) fd
               | None => fd
               end) allFiles [].

(** [fileDeclarations[file].forEach] throws on a file that could not be read. *)
Definition buildGlobalFunctionIndex (allFiles : list string)
           (fileDeclarations : dict StrSet) : Exc (dict string) :=
  foldExc (fun idx file =>
             match dict_get file fileDeclarations with
             | None => Throw "TypeError"
             | Some declared => Ok (indexDeclared file declared idx)
             end) allFiles [].

Section ProcessFile.
(** The variables [processFile] captures. *)
Variable allFiles : list string.
Variable fileBaseIndex : dict string.
Variable fileContents : dict string.
Variable fileDeclarations : dict StrSet.
Variable globalFunctionIndex : dict string.

(** The body shared by both loops once [dependentFile] is resolved:
    recurse with a copy of [visited], keep a defined child. *)
Definition addDependency (recur : string -> StrSet -> Outcome (option DependencyNode))
           (file : string) (visited : StrSet) (dependentFile : string)
           (dependencies : dict DependencyNode) : Outcome (dict DependencyNode) :=
  if negb (String.eqb dependentFile file) && negb (set_has dependentFile visited) then
    obind (recur dependentFile visited)
          (fun child =>
             match child with
             | Some c => Returned (dict_set dependentFile c dependencies)
             | None => Returned dependencies
             end)
  else Returned dependencies.

(** Case 1, one regex match. *)
Definition routerCallStep recur file visited
           (acc : Outcome (dict DependencyNode)) (fileBase : string) :=
  obind acc (fun dependencies =>
    match dict_get fileBase fileBaseIndex with
    | Some dependentFile => addDependency recur file visited dependentFile dependencies
    | None => Returned dependencies
    end).

(** Case 2, one called name. *)
Definition functionCallStep recur file visited
           (acc : Outcome (dict DependencyNode)) (fnName : string) :=
  obind acc (fun dependencies =>
    match dict_get file fileDeclarations with
    | None => Raised "TypeError"
    | Some declared =>
        if set_has fnName declared then Returned dependencies
        else match dict_get fnName globalFunctionIndex with
             | Some dependentFile =>
                 if existsb (String.eqb dependentFile) allFiles
                 then addDependency recur file visited dependentFile dependencies
                 else Returned dependencies
             | None => Returned dependencies
             end
    end).

(** [processFile(file, visited)]; [Returned None] is a bare [return].
    The pushes to [dependencyMatrix] (diagnostics) are left out. *)
Fixpoint processFile (fuel : nat) (file : string) (visited : StrSet)
  : Outcome (option DependencyNode) :=
  match fuel with
  | O => OutOfFuel
  | S fuel' =>
      if set_has file visited then Returned None
      else
        let visited := set_add file visited in
        match dict_get file fileContents with
        | None => Returned None
        | Some content =>
            let routerDependant :=
              JsString.includes content markerDouble || JsString.includes content markerSingle in
            let recur := processFile fuel' in
            obind (fold_left (routerCallStep recur file visited)
                             (routerCallRegexMatches content) (Returned []))
              (fun dependencies =>
                 obind (fold_left (functionCallStep recur file visited)
                                  (getCalledFunctions content) (Returned dependencies))
                   (fun dependencies =>
                      Returned (Some (mkNode routerDependant dependencies))))
        end
  end.
End ProcessFile.

(** [analyzeDependencies]: the tree has one root per file; a root whose
    [processFile] is [undefined] has no entry, as after [JSON.stringify]. *)
Definition analyzeDependencies (fuel : nat) (allFiles : list string)
  : Outcome DependencyTree :=
  let fileBaseIndex := buildFileBaseIndex allFiles in
  let fileContents := buildFileContents allFiles in
  let fileDeclarations := buildFileDeclarations allFiles in
  match buildGlobalFunctionIndex allFiles fileDeclarations with
  | Throw e => Raised e
  | Ok globalFunctionIndex =>
      fold_left (fun acc file =>
                   obind acc (fun dependencyTree =>
                     obind (processFile allFiles fileBaseIndex fileContents fileDeclarations
                                        globalFunctionIndex fuel file [])
                       (fun node =>
                          match node with
                          | Some n => Returned (dict_set file n dependencyTree)
                          | None => Returned dependencyTree
                          end)))
                allFiles (Returned [])
  end.

(** *** Key derivation *)

(** One iteration of the loop of [collectHashesFromDependencies] up to the
    recursive call: the node's own hash. *)
Definition collectOwnHash (fileContents : dict string) (depFile : string)
           (depNode : DependencyNode) (collected : dict Uint8Array)
  : Exc (dict Uint8Array) :=
  if negb (routerDependant depNode) then
    match dict_get depFile fileContents with
    | Some content =>
        if JsString.truthy content then
          hashUint8 <- hexStringToUint8Array (sha256hex content) ;;
          Ok (dict_set depFile hashUint8 collected)
        else Ok collected
    | None => Ok collected
    end
  else Ok collected.

Definition mergeCollected (collected subCollected : dict Uint8Array) : dict Uint8Array :=
  fold_left (fun c kv => dict_set (fst kv) (snd kv) c) subCollected collected.

(** [collectHashesFromDependencies(node.dependencies, visited, fileContents)]:
    both call sites pass the [dependencies] of a node, and the embedding
    takes that node.  [visited] is one Set shared by the whole walk, so it
    is threaded through and returned. *)
Fixpoint collectHashesFromDependencies (fileContents : dict string)
         (node : DependencyNode) (visited : StrSet)
  : Exc (dict Uint8Array * StrSet) :=
  match node with
  | mkNode _ dependencies =>
      fold_left
        (fun acc dep =>
           st <- acc ;;
           let depFile := fst dep in
           let depNode := snd dep in
           if set_has depFile (snd st) then Ok st
           else
             let visited := set_add depFile (snd st) in
             collected <- collectOwnHash fileContents depFile depNode (fst st) ;;
             sub <- collectHashesFromDependencies fileContents depNode visited ;;
             Ok (mergeCollected collected (fst sub), snd sub))
        dependencies (Ok ([], visited))
  end.

(** One iteration of the loop of [collectHashesFromDependencies], and the
      loop itself from a given [collected] and [visited]. *)
Definition collectHashesStep (fileContents : dict string)
           (acc : Exc (dict Uint8Array * StrSet)) (dep : string * DependencyNode)
  : Exc (dict Uint8Array * StrSet) :=
  st <- acc ;;
  if set_has (fst dep) (snd st) then Ok st
  else
    collected <- collectOwnHash fileContents (fst dep) (snd dep) (fst st) ;;
    sub <- collectHashesFromDependencies fileContents (snd dep) (set_add (fst dep) (snd st)) ;;
    Ok (mergeCollected collected (fst sub), snd sub).

Definition collectHashesLoop (fileContents : dict string)
           (dependencies : dict DependencyNode) (acc : Exc (dict Uint8Array * StrSet))
  : Exc (dict Uint8Array * StrSet) :=
  fold_left (collectHashesStep fileContents) dependencies acc.

(** The digest the build folds for [file]: that of its content, when the
    content is there and not empty. *)
Definition buildHash (fileContents : dict string) (file : string) : option string :=
  match dict_get file fileContents with
  | Some content => if JsString.truthy content then Some (sha256hex content) else None
  | None => None
  end.

(** The bytes of that digest. *)
Definition hashBytes (fileContents : dict string) (file : string) : Uint8Array :=
  match buildHash fileContents file with
  | Some h => hexPairs h
  | None => []
  end.

(** What the analysis reads off a file: its flag and the files it refers
    to that have a content, first through the router, then by name. *)
Definition rdOf (fileContents : dict string) (file : string) : bool :=
  match dict_get file fileContents with
  | Some content =>
      JsString.includes content markerDouble || JsString.includes content markerSingle
  | None => false
  end.

Definition routerTargets (fileBaseIndex : dict string) (content : string) : list string :=
  flat_map (fun fileBase =>
              match dict_get fileBase fileBaseIndex with
              | Some dependentFile => [dependentFile]
              | None => []
              end) (routerCallRegexMatches content).

Definition functionTargets (allFiles : list string) (globalFunctionIndex : dict string)
           (declared : StrSet) (content : string) : list string :=
  flat_map (fun fnName =>
              if set_has fnName declared then []
              else match dict_get fnName globalFunctionIndex with
                   | Some dependentFile =>
                       if existsb (String.eqb dependentFile) allFiles
                       then [dependentFile] else []
                   | None => []
                   end) (getCalledFunctions content).

Definition callsOf (allFiles : list string) (fileBaseIndex fileContents : dict string)
           (fileDeclarations : dict StrSet) (globalFunctionIndex : dict string)
           (file : string) : list string :=
  match dict_get file fileContents with
  | Some content =>
      filter (fun d => dict_has d fileContents)
             (routerTargets fileBaseIndex content
                ++ match dict_get file fileDeclarations with
                   | Some declared =>
                       functionTargets allFiles globalFunctionIndex declared content
                   | None => []
                   end)
  | None => []
  end.

(** Both loops of [processFile], once the dependent files are resolved. *)
Definition addAll (recur : string -> StrSet -> Outcome (option DependencyNode))
           (file : string) (visited : StrSet) (targets : list string)
           (acc : Outcome (dict DependencyNode)) : Outcome (dict DependencyNode) :=
  fold_left (fun acc d => obind acc (addDependency recur file visited d)) targets acc.

Record KeyRecord : Type := {
    routerFile : string;
    collectedHashes : dict string;
    xorOfHashes : string;
    mask : string;
    key : string
  }.

(** [computeKeyForRouterFile]; the mask drawn by [randomBytesUint8Array(32)]
    is the argument [maskBytes]. *)
Definition computeKeyForRouterFile (routerFile : string) (routerNode : DependencyNode)
           (fileContents : dict string) (maskBytes : Uint8Array) : Exc KeyRecord :=
  st <- collectHashesFromDependencies fileContents routerNode [] ;;
  let collectedHashes := fst st in
  xorResult <- foldExc (fun xorResult kv => xorArrays xorResult (snd kv))
                       collectedHashes (newUint8Array 32) ;;
  finalKey <- xorArrays xorResult maskBytes ;;
  Ok {| routerFile := routerFile;
        collectedHashes :=
          fold_left (fun o kv => dict_set (path_basename (fst kv)) (uint8ArrayToHexString (snd kv)) o)
                    collectedHashes [];
        xorOfHashes := uint8ArrayToHexString xorResult;
        mask := uint8ArrayToHexString maskBytes;
        key := uint8ArrayToHexString finalKey |}.

End Analyzer.

(* ----------------------------------------------------------------- *)
(** ** The browser runtime (Router.js) *)

(** The result of [Number(value)]: decimal digit strings that a double holds
    exactly are evaluated; for any other numeral the value is kept as the
    application of [Number] to its argument. *)
Inductive JSNumber : Type :=
| NumInt (z : Z)
| NumberOf (s : string).

#[warnings="-register-all"]
Inductive JSVal : Type :=
| VUndefined
| VNull
| VBool (b : bool)
| VNum (n : JSNumber)
| VStr (s : string)
| VArray (elements : list JSVal)
| VObject (json : string).

Inductive Event : Type :=
| ConsoleError (msg : string)
| ConsoleWarn (msg : string)
| ConsoleLog (msg : string)
| Invoke (functionName : string) (arguments : list JSVal)
| InsertOverlay.

Definition isInvoke (e : Event) : bool :=
  match e with Invoke _ _ => true | _ => false end.

(** No page function is called. *)
Definition noDispatch (events : list Event) : Prop :=
  existsb isInvoke events = false.

(** The log of the guard [if (!xorResult)] of [routerForwardCall]. *)
Definition noHashesLog : Event := ConsoleError "No hashes found for branch".

(** How a call ends for its caller. *)
Inductive Completion : Type :=
| Normal
| Abrupt (e : string).

(** What the runtime takes from the browser. *)
Class BrowserHost : Type := {
  CryptoKey : Type;
  (** [crypto.subtle.importKey("raw", key, AES-CBC, ..)]; [None] when rejected *)
  importKey : Uint8Array -> option CryptoKey;
  (** [base64ToArrayBuffer] of the IV and of the ciphertext,
      [crypto.subtle.decrypt] and [TextDecoder.decode]; [None] when any of
      them throws or rejects *)
  decryptText : CryptoKey -> string -> string -> option string;
  (** [JSON.parse(value)]; [None] when it throws *)
  JSON_parse : string -> option JSVal;
  (** [typeof window[name] === 'function'] *)
  windowHasFunction : string -> bool;
  (** whether the page function throws on these arguments *)
  pageFunctionThrows : string -> list JSVal -> bool
}.

Module Num.
Fixpoint decimal (acc : Z) (s : string) : option Z :=
  match s with
  | EmptyString => Some acc
  | String c rest =>
      let n := nat_of_ascii c in
      if (48 <=? n) && (n <=? 57) then decimal (10 * acc + Z.of_nat (n - 48))%Z rest
      else None
  end.

(** [Number(value)] *)
Definition Number (value : string) : JSNumber :=
  match value with
  | EmptyString => NumInt 0
  | _ => match decimal 0 value with
         | Some z => if (z <=? 9007199254740992)%Z then NumInt z else NumberOf value
         | None => NumberOf value
         end
  end.
End Num.

Section Router.
Context `{BrowserHost}.

(** *** parseAndCall *)

(** The body of [types.map((type, index) => ...)] for one parameter. *)
Definition convertParam (type value : string) : JSVal * list Event :=
  if String.eqb type "string" then (VStr value, [])
  else if String.eqb type "number" then (VNum (Num.Number value), [])
  else if String.eqb type "boolean" then
    (VBool (String.eqb (JsString.toLowerCase value) "true"), [])
  else if String.eqb type "object" then
    match JSON_parse value with
    | Some v => (v, [])
    | None => (VNull, [ConsoleError "Errore nel parsing del parametro di tipo object:"])
    end
  else if String.eqb type "null" then (VNull, [])
  else (VStr value, [ConsoleWarn "Tipo parametro non riconosciuto, trattato come stringa"]).

Fixpoint convertParams (types values : list string) : list JSVal * list Event :=
  match types, values with
  | type :: types', value :: values' =>
      let r := convertParam type value in
      let rs := convertParams types' values' in
      (fst r :: fst rs, snd r ++ snd rs)
  | _, _ => ([], [])
  end.

(** [if (typeof window[functionName] === 'function') window[functionName](...args)
    else console.error(..)]; [functionName] is [undefined] when the
    descriptor has no second field. *)
Definition dispatch (functionName : option string) (args : list JSVal)
  : list Event * Completion :=
  match functionName with
  | Some name =>
      if windowHasFunction name then
        ([Invoke name args],
         if pageFunctionThrows name args then Abrupt "exception of the page function" else Normal)
      else ([ConsoleError "La funzione non esiste in window."], Normal)
  | None => ([ConsoleError "La funzione non esiste in window."], Normal)
  end.

(** [parseAndCall(callString, caller, ...args)] *)
Definition parseAndCall (callString caller : string) (args : list JSVal)
  : list Event * Completion :=
  let parts := JsString.split JsString.isDash callString in
  let functionName := nth_error parts 1 in
  match args with
  | [] =>
      if negb (List.length parts =? 4) then
        ([ConsoleError "Formato della stringa non valido:"], Normal)
      else
        let paramTypesStr := nth 2 parts "" in
        let paramValuesStr := nth 3 parts "" in
        if negb (String.eqb paramTypesStr "null") && negb (String.eqb paramValuesStr "null") then
          let types := JsString.split JsString.isComma paramTypesStr in
          let values := JsString.split JsString.isComma paramValuesStr in
          if negb (List.length types =? List.length values) then
            ([ConsoleError "Numero di tipi e valori non corrispondente"], Normal)
          else
            let converted := convertParams types values in
            let called := dispatch functionName (fst converted) in
            (snd converted ++ ConsoleLog "Chiamata proveniente da:" :: fst called, snd called)
        else
          let called := dispatch functionName [] in
          (ConsoleLog "Chiamata proveniente da:" :: fst called, snd called)
  | _ :: _ => dispatch functionName args
  end.

(** *** routerForwardCall: the synchronous part *)

(** The branch list and the [visited] Set while the tree is walked. *)
Definition BranchState : Type := (list string * StrSet)%type.

(** One iteration of the loop of [collectDeps] up to the recursive call. *)
Definition pushDep (dep : string) (depNode : DependencyNode) (st : BranchState)
  : BranchState :=
  if negb (routerDependant depNode) && negb (set_has dep (snd st))
  then (fst st ++ [dep], set_add dep (snd st))
  else st.

(** The closure [collectDeps(node)]; [node.dependencies[dep]] is the value
    of the entry the loop is at. *)
Fixpoint collectDeps (node : DependencyNode) (st : BranchState) : BranchState :=
  match node with
  | mkNode _ dependencies =>
      fold_left (fun st dep => collectDeps (snd dep) (pushDep (fst dep) (snd dep) st))
                dependencies st
  end.

(** The loop of [collectDeps] over a [dependencies] object. *)
Definition collectDepsLoop (dependencies : dict DependencyNode) (st : BranchState)
  : BranchState :=
  fold_left (fun st dep => collectDeps (snd dep) (pushDep (fst dep) (snd dep) st))
            dependencies st.

(** The first key of the tree that ends with [fileKey]. *)
Definition findRoot (dependencyTree : DependencyTree) (fileKey : string) : option string :=
  find (fun f => JsString.endsWith f fileKey) (dict_keys dependencyTree).

(** The branch reconstruction loop.  At a root that is not router-dependent
    the statement [visited.add(dep)] reads [dep] outside its scope. *)
Definition collectBranch (dependencyTree : DependencyTree) (fileKey : string)
  : Exc (list string) :=
  match findRoot dependencyTree fileKey with
  | None => Ok []
  | Some f =>
      match dict_get f dependencyTree with
      | None => Throw "TypeError"
      | Some root =>
          if negb (routerDependant root) && negb (set_has f [])
          then Throw "ReferenceError: dep is not defined"
          else Ok (fst (collectDeps root ([], [])))
      end
  end.

(** [file.split(/[\\/]/).pop()] *)
Definition routerFileName (file : string) : string :=
  JsString.pop (JsString.split (fun c => JsString.isBackslash c || JsString.isSlash c) file).

(** The callback of [branchFiles.forEach]. *)
Definition foldLiveHash (globalHashes : dict string) (xorResult : Uint8Array)
           (file : string) : Exc Uint8Array :=
  let fileName := routerFileName file in
  match dict_get fileName globalHashes with
  | Some hashHex =>
      if JsString.truthy hashHex then
        hashBuffer <- hexStringToUint8Array hashHex ;;
        xorBuffers xorResult hashBuffer
      else Ok xorResult
  | None => Ok xorResult
  end.

(** The digest the run time folds for a file name: the live one, when it
    is there and not empty. *)
Definition liveHash (globalHashes : dict string) (fileName : string) : option string :=
  match dict_get fileName globalHashes with
  | Some hashHex => if JsString.truthy hashHex then Some hashHex else None
  | None => None
  end.

(** ToBoolean of an object: a [Uint8Array] is truthy whatever it holds. *)
Definition truthyObject (_ : Uint8Array) : bool := true.

(** Where the synchronous part of [routerForwardCall] ends. *)
Inductive SyncStage : Type :=
  | Stopped (events : list Event) (completion : Completion)
  | KeyReady (events : list Event) (mappingForFile : dict string) (finalKeyRaw : Uint8Array).

Definition lift {A : Type} (m : Exc A) (k : A -> SyncStage) : SyncStage :=
  match m with
  | Ok a => k a
  | Throw e => Stopped [] (Abrupt e)
  end.

Definition normalizeCallee (callee : string) : string :=
  if negb (JsString.endsWith callee ".js") then String.append callee ".js" else callee.

Definition routerSync (dependencyTree : DependencyTree) (ivsMapping : dict (dict string))
           (globalHashes : dict string) (callee : string) : SyncStage :=
  let fileKey := normalizeCallee callee in
  match dict_get fileKey ivsMapping with
  | None => Stopped [ConsoleError "No IV mapping found for"] Normal
  | Some mappingForFile =>
      match dict_get "mask" mappingForFile with
      | None => Stopped [ConsoleError "No mask found for"] Normal
      | Some maskHex =>
          if negb (JsString.truthy maskHex) then Stopped [ConsoleError "No mask found for"] Normal
          else
            lift (collectBranch dependencyTree fileKey) (fun branchFiles =>
              if List.length branchFiles =? 0 then
                Stopped [ConsoleError "No dependency branch found for"] Normal
              else
                lift (foldExc (foldLiveHash globalHashes) branchFiles (newUint8Array 32))
                  (fun xorResult =>
                     if negb (truthyObject xorResult) then
                       Stopped [ConsoleError "No hashes found for branch"] Normal
                     else
                       lift (hexStringToUint8Array maskHex) (fun maskBuffer =>
                         lift (xorBuffers xorResult maskBuffer) (fun finalKeyRaw =>
                           KeyReady [ConsoleLog "xorOfHashes (hex):"; ConsoleLog "Final key (hex):"]
                                    mappingForFile finalKeyRaw))))
      end
  end.

(** The key the synchronous part hands over, if it gets that far. *)
Definition readyKey (stage : SyncStage) : option Uint8Array :=
  match stage with
  | KeyReady _ _ finalKeyRaw => Some finalKeyRaw
  | Stopped _ _ => None
  end.

(** *** routerForwardCall: the promise chain *)

(** The IV lookup loop over the keys of [mappingForFile]. *)
Definition lookupIv (mappingForFile : dict string) (callString : string) : option string :=
  if String.eqb callString "mask" then None else dict_get callString mappingForFile.

Definition catchHandler (r : list Event * Completion) : list Event :=
  match snd r with
  | Normal => fst r
  | Abrupt _ => fst r ++ [ConsoleError "Decryption failed:"]
  end.

(** The last [then]: [args] is handed to [parseAndCall] as one value. *)
Definition callWithPlaintext (plaintext callee : string) (args : list JSVal)
  : list Event * Completion :=
  match args with
  | [] => parseAndCall plaintext callee []
  | _ :: _ => parseAndCall plaintext callee [VArray args]
  end.

Definition routerAsync (mappingForFile : dict string) (finalKeyRaw : Uint8Array)
           (callString callee : string) (args : list JSVal) : list Event :=
  match importKey finalKeyRaw with
  | None => [ConsoleError "Decryption failed:"]
  | Some cryptoKey =>
      match lookupIv mappingForFile callString with
      | Some ivBase64 =>
          if JsString.truthy ivBase64 then
            match decryptText cryptoKey ivBase64 callString with
            | None => [ConsoleError "Decryption failed:"]
            | Some plaintext => catchHandler (callWithPlaintext plaintext callee args)
            end
          else
            ConsoleError "No IV found for encrypted call string"
              :: catchHandler (callWithPlaintext "" callee args)
      | None =>
          ConsoleError "No IV found for encrypted call string"
            :: catchHandler (callWithPlaintext "" callee args)
      end
  end.

(** [routerForwardCall(callString, callee, ...args)] from the statement
    after the two constants are decoded, on the decoded tree and mapping and
    on the table [window.globalHashes]: everything the call logs and invokes,
    now and in its promise chain, and how the call itself ends for its caller.
    The whole function, decoding included, is [routerForwardCallOnPage]. *)
Definition routerForwardCall (dependencyTree : DependencyTree)
           (ivsMapping : dict (dict string)) (globalHashes : dict string)
           (callString callee : string) (args : list JSVal) : list Event * Completion :=
  match routerSync dependencyTree ivsMapping globalHashes callee with
  | Stopped events completion => (events, completion)
  | KeyReady events mappingForFile finalKeyRaw =>
      (events ++ routerAsync mappingForFile finalKeyRaw callString callee args, Normal)
  end.

End Router.

(** *** routerForwardCall, from the constants of the page *)

(** What the first statements of [routerForwardCall] take from the page. *)
Class PageHost : Type := {
  (** [window.atob(s)]; [None] when it throws (InvalidCharacterError) *)
  window_atob : string -> option string;
  (** [JSON.parse] of the text of the tree; [None] when it throws
      (SyntaxError).  What parses is taken to be a tree as the build writes
      it: an object of nodes with a flag and a [dependencies] object. *)
  parseDependencyTree : string -> option DependencyTree;
  (** [JSON.parse] of the text of the mapping; [None] when it throws.  What
      parses is taken to be a mapping as the build writes it: an object of
      objects of strings. *)
  parseIvsMapping : string -> option (dict (dict string))
}.

Section RouterOnPage.
Context `{BrowserHost} `{PageHost}.

(** [JSON.parse(window.atob(encoded))], neither call in a [try]. *)
Definition decodeConstant {A : Type} (parse : string -> option A) (encoded : string) : Exc A :=
  match window_atob encoded with
  | None => Throw "InvalidCharacterError"
  | Some json =>
      match parse json with
      | None => Throw "SyntaxError"
      | Some value => Ok value
      end
  end.

(** The synchronous part while [window.globalHashes] is [undefined]: the
    guards are the same, and the first iteration of [branchFiles.forEach]
    reads [window.globalHashes[fileName]], a TypeError. *)
Definition routerWithoutHashes (dependencyTree : DependencyTree)
           (ivsMapping : dict (dict string)) (callee : string) : list Event * Completion :=
  let fileKey := normalizeCallee callee in
  match dict_get fileKey ivsMapping with
  | None => ([ConsoleError "No IV mapping found for"], Normal)
  | Some mappingForFile =>
      match dict_get "mask" mappingForFile with
      | None => ([ConsoleError "No mask found for"], Normal)
      | Some maskHex =>
          if negb (JsString.truthy maskHex) then ([ConsoleError "No mask found for"], Normal)
          else
            match collectBranch dependencyTree fileKey with
            | Throw e => ([], Abrupt e)
            | Ok branchFiles =>
                if List.length branchFiles =? 0 then
                  ([ConsoleError "No dependency branch found for"], Normal)
                else ([], Abrupt "TypeError")
            end
      end
  end.

(** [routerForwardCall(callString, callee, ...args)], the whole function:
    the two constants are decoded first, the tree before the mapping;
    [window_globalHashes] is [None] when the page has not defined the table. *)
Definition routerForwardCallOnPage (DEPENDENCY_TREE_BASE64 IVS_MAPPING_BASE64 : string)
           (window_globalHashes : option (dict string))
           (callString callee : string) (args : list JSVal) : list Event * Completion :=
  match decodeConstant parseDependencyTree DEPENDENCY_TREE_BASE64 with
  | Throw e => ([], Abrupt e)
  | Ok dependencyTree =>
      match decodeConstant parseIvsMapping IVS_MAPPING_BASE64 with
      | Throw e => ([], Abrupt e)
      | Ok ivsMapping =>
          match window_globalHashes with
          | Some globalHashes =>
              routerForwardCall dependencyTree ivsMapping globalHashes callString callee args
          | None => routerWithoutHashes dependencyTree ivsMapping callee
          end
      end
  end.

End RouterOnPage.

(* ----------------------------------------------------------------- *)
(** ** The tamper verifier *)

(** [showTamperOverlay()] appends the overlay and locks scrolling. *)
Definition showTamperOverlay : list Event := [InsertOverlay].

(** [fullPath.split('\\').pop()] *)
Definition verifierFileName (fullPath : string) : string :=
  JsString.pop (JsString.split JsString.isBackslash fullPath).

(** The first loop of [verifyHashes]: re-key by file name. *)
Definition simplifyPrecomputed (precomputed : dict string) : dict string :=
  fold_left (fun simplified kv => dict_set (verifierFileName (fst kv)) (snd kv) simplified)
            precomputed [].

Record Verdict : Type := {
  compared : list string;   (* the files the comparison loop has looked up *)
  emitted : list Event
}.

(** The second loop of [verifyHashes], over the keys still to visit. *)
Fixpoint verifyLoop (simplified globalHashes : dict string) (seen : list string)
         (files : list string) : Verdict :=
  match files with
  | [] => {| compared := seen; emitted := [ConsoleLog "Tutti gli hash combaciano."] |}
  | file :: rest =>
      let actualHash := dict_get file globalHashes in
      let expectedHash := dict_get file simplified in
      let falsy := match expectedHash with
                   | Some h => negb (JsString.truthy h)
                   | None => true
                   end in
      let differs := match actualHash, expectedHash with
                     | Some a, Some e => negb (String.eqb a e)
                     | None, None => false
                     | _, _ => true
                     end in
      if falsy || differs then
        {| compared := seen ++ [file];
           emitted := ConsoleWarn "Mismatch per" :: showTamperOverlay |}
      else verifyLoop simplified globalHashes (seen ++ [file]) rest
  end.

(** The live table holds, for [file], the hash the re-keyed table expects. *)
Definition hashMatches (simplified globalHashes : dict string) (file : string) : Prop :=
  exists h, dict_get file simplified = Some h /\ dict_get file globalHashes = Some h.

(** [verifyHashes()], on the decoded [PRECOMPUTED_HASHES_BASE64]. *)
Definition verifyHashes (precomputed globalHashes : dict string) : Verdict :=
  let simplified := simplifyPrecomputed precomputed in
  verifyLoop simplified globalHashes [] (dict_keys simplified).

(** The page around the verifier: how late each timer fires and what
    [window.globalHashes] holds at a given time.  Timers never fire early and
    the clock does not run backwards, hence the [Z.max 0]. *)
Record PageEnv : Type := {
  timerLateness : nat -> Z;
  hashesAt : Z -> dict string
}.

Inductive Settled : Type :=
| Resolved (poll : nat) (now : Z)
| Rejected (poll : nat) (now : Z).

(** [Object.keys(window.globalHashes).length > 0] *)
Definition hashesAvailable (globalHashes : dict string) : bool :=
  match globalHashes with [] => false | _ :: _ => true end.

(** The closure [check] of [waitForGlobalHashes]: its [k]-th run, at time
    [now]; [setTimeout(check, interval)] is the next run. *)
Fixpoint check (fuel : nat) (timeout interval startTime : Z) (env : PageEnv)
         (k : nat) (now : Z) : option Settled :=
  match fuel with
  | O => None
  | S fuel' =>
      if hashesAvailable (hashesAt env now) then Some (Resolved k now)
      else if (now - startTime >=? timeout)%Z then Some (Rejected k now)
      else check fuel' timeout interval startTime env (S k)
                 (now + interval + Z.max 0 (timerLateness env (S k)))%Z
  end.

(** [waitForGlobalHashes(timeout, interval)], started at [startTime]. *)
Definition waitForGlobalHashes (fuel : nat) (timeout interval : Z) (env : PageEnv)
           (startTime : Z) : option Settled :=
  check fuel timeout interval startTime env 0 (startTime + Z.max 0 (timerLateness env 0))%Z.

(** When the [k]-th run of [check] takes place. *)
Fixpoint pollTime (interval : Z) (env : PageEnv) (startTime : Z) (k : nat) : Z :=
  match k with
  | O => (startTime + Z.max 0 (timerLateness env 0))%Z
  | S k' => (pollTime interval env startTime k' + interval + Z.max 0 (timerLateness env k))%Z
  end.

Definition defaultTimeout : Z := 5000.
Definition defaultInterval : Z := 100.

(** The start-up statement
    [waitForGlobalHashes().then(verifyHashes).catch(.. showTamperOverlay())]. *)
Definition startup (fuel : nat) (env : PageEnv) (startTime : Z)
           (precomputed : dict string) : option (list Event) :=
  match waitForGlobalHashes fuel defaultTimeout defaultInterval env startTime with
  | None => None
  | Some (Resolved _ now) => Some (emitted (verifyHashes precomputed (hashesAt env now)))
  | Some (Rejected _ _) =>
      Some (ConsoleError "globalHashes non disponibile dopo il timeout." :: showTamperOverlay)
  end.

(* ----------------------------------------------------------------- *)
(** ** Sample data *)

Module Sample.

Definition browser : BrowserHost := {|
    CryptoKey := Uint8Array;
    importKey := fun k => Some k;
    decryptText := fun _ iv _ =>
      if String.eqb iv "iv-static" then Some "file3-funct1-number,string-7,hello"
      else if String.eqb iv "iv-dynamic" then Some "unfilejsqualunque-printing"
      else None;
    JSON_parse := fun _ => None;
    windowHasFunction := fun name => String.eqb name "funct1" || String.eqb name "printing";
    pageFunctionThrows := fun _ _ => false
  |}.

Definition hashA : Uint8Array := repeat 165%Z 32.
Definition hashB : Uint8Array := repeat 60%Z 32.

Definition hexA : string :=
  "a5a5a5a5a5a5a5a5a5a5a5a5a5a5a5a5a5a5a5a5a5a5a5a5a5a5a5a5a5a5a5a5".
Definition hexB : string :=
  "3c3c3c3c3c3c3c3c3c3c3c3c3c3c3c3c3c3c3c3c3c3c3c3c3c3c3c3c3c3c3c3c".
Definition maskHex : string :=
  "331fc74bc106643730ca18408850078554bfab707242a295ce09ad1b0f383c5a".

(** The shape of the shipped example: [file3.js] calls through the router
    and depends on [file1.js]. *)
Definition tree : DependencyTree :=
  [ ("C:\site\file1.js", mkNode false []);
    ("C:\site\file3.js", mkNode true [("C:\site\file1.js", mkNode false [])]) ].

Definition ivsMapping : dict (dict string) :=
  [ ("file3.js", [("mask", maskHex); ("CT-static", "iv-static"); ("CT-dynamic", "iv-dynamic")]) ].

Definition globalHashes : dict string := [("file1.js", hexA)].

(** A mapping whose mask is one byte long. *)
Definition ivsShortMask : dict (dict string) := [ ("file3.js", [("mask", "ab")]) ].

(** A precomputed table as a build on a POSIX system writes it. *)
Definition posixPrecomputed : dict string := [("/home/u/site/recompiled/file1.js", hexA)].
Definition windowsPrecomputed : dict string := [("C:\site\recompiled\file1.js", hexA)].

(** A project with a cycle: [file3.js] and [file4.js] call each other
    through the router, [file3.js] also calls a function of [file1.js]. *)
Definition file1 : string := "C:\site\file1.js".
Definition file3 : string := "C:\site\file3.js".
Definition file4 : string := "C:\site\testdep\file4.js".

Definition content1 : string := "function file1funct(){ console.log(1); }".
Definition content3 : string :=
  "function funzioneDiFile3(){ file1funct(); window['routerForwardCall']('file4-funzioneDiFile4-null-null','file3') }".
Definition content4 : string :=
  "function funzioneDiFile4(){ window['routerForwardCall']('file3-funzioneDiFile3-null-null','file4') }".

Definition allFiles : list string := [file1; file3; file4].

(** The regex engine and SHA-256 are replaced by tables for the three
    contents above. *)
Definition node : BuildHost := {|
    readFileSync := fun f =>
      if String.eqb f file1 then Some content1
      else if String.eqb f file3 then Some content3
      else if String.eqb f file4 then Some content4
      else None;
    path_basename_js := fun f =>
      if String.eqb f file1 then "file1"
      else if String.eqb f file3 then "file3"
      else if String.eqb f file4 then "file4"
      else f;
    path_basename := routerFileName;
    regexDeclarationMatches := fun c =>
      if String.eqb c content1 then ["file1funct"]
      else if String.eqb c content3 then ["funzioneDiFile3"]
      else if String.eqb c content4 then ["funzioneDiFile4"]
      else [];
    regexCallMatches := fun c =>
      if String.eqb c content1 then ["file1funct"; "log"]
      else if String.eqb c content3 then ["funzioneDiFile3"; "file1funct"]
      else if String.eqb c content4 then ["funzioneDiFile4"]
      else [];
    routerCallRegexMatches := fun c =>
      if String.eqb c content3 then ["file4"]
      else if String.eqb c content4 then ["file3"]
      else [];
    sha256hex := fun c => if String.eqb c content1 then hexA else hexB
  |}.

(** The tree of that project. *)
Definition projectTree : DependencyTree :=
  [ (file1, mkNode false []);
    (file3, mkNode true [(file4, mkNode true []); (file1, mkNode false [])]);
    (file4, mkNode true [(file3, mkNode true [(file1, mkNode false [])])]) ].

(** The cycle alone: [file3.js] and [file4.js] without [file1.js]. *)
Definition cycleFiles : list string := [file3; file4].

Definition cycleTree : DependencyTree :=
  [ (file3, mkNode true [(file4, mkNode true [])]);
    (file4, mkNode true [(file3, mkNode true [])]) ].

Definition maskBytes : Uint8Array := hexPairs maskHex.

(** A tree in which [a.js] occurs twice with different entries. *)
Definition fileA : string := "C:\site\a.js".
Definition fileB : string := "C:\site\b.js".
Definition fileC : string := "C:\site\c.js".
Definition fileR : string := "C:\site\r.js".

Definition repeatTree : DependencyTree :=
  [ (fileR, mkNode true
              [ (fileA, mkNode false []);
                (fileB, mkNode true [(fileA, mkNode false [(fileC, mkNode false [])])]) ]) ].

Definition repeatContents : dict string :=
  [ (fileA, content1); (fileB, content3); (fileC, "function c(){}"); (fileR, content4) ].

Definition repeatLive : dict string := [("a.js", hexA); ("c.js", hexB)].

Definition rMapping : dict (dict string) := [("r.js", [("mask", maskHex)])].

(** A router-dependent file whose only dependency is an empty file, which
    the extension hashes like any other. *)
Definition emptyTree : DependencyTree :=
  [ (fileR, mkNode true [(fileA, mkNode false [])]) ].

Definition emptyContents : dict string := [ (fileA, ""); (fileR, content4) ].

Definition emptyLive : dict string := [("a.js", hexB)].

(** A page where the extension never answers, and one where it has
    answered before the first poll. *)
Definition silentPage : PageEnv := {| timerLateness := fun _ => 0%Z; hashesAt := fun _ => [] |}.
Definition readyPage : PageEnv := {| timerLateness := fun _ => 3%Z; hashesAt := fun _ => globalHashes |}.

End Sample.

(* ----------------------------------------------------------------- *)
(** ** The hash listener of the page *)

(** A [message] event, as the listener reads it: one whose data is an
    object with strings under [action], [url] and [hash]. *)
Record MessageEvent : Type := {
  sourceIsWindow : bool;   (* event.source === window *)
  action : string;         (* event.data.action *)
  url : string;            (* event.data.url *)
  hash : string            (* event.data.hash *)
}.

(** The listener that fills [window.globalHashes].  The assignment
    [window.globalHashes[filename] = hash] of a string under the name
    [__proto__] goes to the prototype setter, which ignores a string: nothing
    is stored.  Any other name, a member of [Object.prototype] included,
    becomes or stays an entry of the table. *)
Definition onMessage (event : MessageEvent) (globalHashes : dict string)
  : dict string * list Event :=
  if negb (sourceIsWindow event) then (globalHashes, [])
  else if String.eqb (action event) "hashSaved" then
    let parts := JsString.split JsString.isSlash (url event) in
    let filename := JsString.pop parts in
    (if String.eqb filename "__proto__" then globalHashes
     else dict_set filename (hash event) globalHashes,
     [ConsoleLog "Hash received:"])
  else (globalHashes, []).

(* ----------------------------------------------------------------- *)
(** ** The browser extension (background.js) *)

(** What the extension takes from the browser. *)
Class ExtensionHost : Type := {
  (** [(await fetch(url)).text()]; [None] when it throws *)
  fetchText : string -> option string;
  (** the bytes of [crypto.subtle.digest("SHA-256", encode(content))] *)
  digestSHA256 : string -> Uint8Array;
  (** whether [chrome.tabs.query({active, currentWindow})] finds a tab *)
  hasActiveTab : bool
}.

(** [s.padStart(2, '0')] *)
Definition padStart2 (s : string) : string :=
  match s with
  | EmptyString => "00"
  | String c EmptyString => String "0" (String c EmptyString)
  | _ => s
  end.

(** The rendering of [computeSHA256]:
    [hashArray.map(b => b.toString(16).padStart(2, '0')).join('')]. *)
Definition digestToHex (hashArray : Uint8Array) : string :=
  String.concat "" (map (fun b => padStart2 (Hex.toString16 b)) hashArray).

(** What one run of the [onCompleted] listener leaves behind. *)
Record Completed : Type := {
  storedHashes : dict string;      (* chrome.storage.local, key [hashes] *)
  posted : option MessageEvent;    (* the message posted into the page *)
  extensionLog : list Event
}.

Section Extension.
Context `{ExtensionHost}.

Definition computeSHA256 (content : string) : string :=
  digestToHex (digestSHA256 content).

(** The [chrome.webRequest.onCompleted] listener, for a request of
    [detailsUrl], with [hashes] in the extension's storage.  The message is
    posted by a script run in the page, so its source is the page's window. *)
Definition onCompleted (detailsUrl : string) (hashes : dict string) : Completed :=
  if negb (JsString.endsWith detailsUrl ".js") then
    {| storedHashes := hashes; posted := None; extensionLog := [] |}
  else if JsString.includes detailsUrl "recompiled" then
    match fetchText detailsUrl with
    | None =>
        {| storedHashes := hashes; posted := None;
           extensionLog := [ConsoleError "fetch"; ConsoleError "[DEBUG] Errore nel calcolo/salvataggio dell'hash:"] |}
    | Some text =>
        let hash := computeSHA256 text in
        {| storedHashes := dict_set detailsUrl hash hashes;
           posted := if hasActiveTab
                     then Some {| sourceIsWindow := true; action := "hashSaved";
                                  url := detailsUrl; hash := hash |}
                     else None;
           extensionLog := [ConsoleLog "[DEBUG] Hash calcolato per"; ConsoleLog "[DEBUG] Hash salvato."] |}
    end
  else {| storedHashes := hashes; posted := None; extensionLog := [] |}.

End Extension.

(* ----------------------------------------------------------------- *)
(** ** The verifier, from the embedded constant *)

(** [decodePrecomputedHashes(encodedStr)]; [atobJson] is [JSON.parse(atob(..))],
    [None] when either throws. *)
Definition decodePrecomputedHashes (atobJson : string -> option (dict string))
           (encodedStr : string) : dict string * list Event :=
  match atobJson encodedStr with
  | Some precomputed => (precomputed, [])
  | None => ([], [ConsoleError "Errore nella decodifica degli hash precomputati:"])
  end.

(** [verifyHashes()], decoding included. *)
Definition verifyHashesEncoded (atobJson : string -> option (dict string))
           (encodedStr : string) (globalHashes : dict string) : Verdict :=
  let decoded := decodePrecomputedHashes atobJson encodedStr in
  let verdict := verifyHashes (fst decoded) globalHashes in
  {| compared := compared verdict; emitted := snd decoded ++ emitted verdict |}.

(* ----------------------------------------------------------------- *)
(** ** The earlier Router.js *)

(** The closure [collectDeps(node)] of the earlier [routerForwardCall], which
    has no [visited] Set: every entry that is not router-dependent is pushed. *)
Fixpoint collectDepsEarly (node : DependencyNode) (branchFiles : list string) : list string :=
  match node with
  | mkNode _ dependencies =>
      fold_left (fun b dep =>
                   collectDepsEarly (snd dep)
                     (if negb (routerDependant (snd dep)) then b ++ [fst dep] else b))
                dependencies branchFiles
  end.

Definition collectDepsEarlyLoop (dependencies : dict DependencyNode)
           (branchFiles : list string) : list string :=
  fold_left (fun b dep =>
               collectDepsEarly (snd dep)
                 (if negb (routerDependant (snd dep)) then b ++ [fst dep] else b))
            dependencies branchFiles.

(** The branch reconstruction loop of the earlier [routerForwardCall]. *)
Definition collectBranchEarly (dependencyTree : DependencyTree) (fileKey : string)
  : Exc (list string) :=
  match findRoot dependencyTree fileKey with
  | None => Ok []
  | Some f =>
      match dict_get f dependencyTree with
      | None => Throw "TypeError"
      | Some root =>
          Ok (collectDepsEarly root (if negb (routerDependant root) then [f] else []))
      end
  end.

(** A list without its repetitions, first occurrences kept in place. *)
Definition firstOccurrences (l : list string) (seen : list string) : list string :=
  fold_left (fun s x => set_add x s) l seen.

(* ----------------------------------------------------------------- *)
(** ** The build tool: keys and mapping *)

(** One entry of [encryptedCalls]. *)
Record EncryptedCall : Type := {
  original : string;
  iv : string;
  ciphertext : string;
  encryptedResult : string
}.

(** An entry of [encryptionKeys] after [recompileRouterFiles]: the record of
    [computeKeyForRouterFile] with its [encryptedCalls], in index order. *)
Record RouterFileKeys : Type := {
  keyRecord : KeyRecord;
  encryptedCalls : list EncryptedCall
}.

(** The body of the loop that builds [mapping]: [mapping[file]]. *)
Definition mappingForKeys (keys : RouterFileKeys) : dict string :=
  fold_left (fun m call => dict_set (ciphertext call) (iv call) m)
            (encryptedCalls keys)
            (dict_set "mask" (mask (keyRecord keys)) []).

(** The loop that builds [mapping] from [encryptionKeys]. *)
Definition buildMapping (encryptionKeys : dict RouterFileKeys) : dict (dict string) :=
  fold_left (fun mapping kv => dict_set (fst kv) (mappingForKeys (snd kv)) mapping)
            encryptionKeys [].

Section MainLoop.
Context `{BuildHost}.

(** The loop of the main script over [dependencyTree] that fills
    [encryptionKeys]; [drawMask file] is the mask [randomBytesUint8Array(32)]
    draws for [file]. *)
Definition buildEncryptionKeys (dependencyTree : DependencyTree) (fileContents : dict string)
           (drawMask : string -> Uint8Array) : Exc (dict KeyRecord) :=
  foldExc (fun encryptionKeys kv =>
             if routerDependant (snd kv) then
               record <- computeKeyForRouterFile (fst kv) (snd kv) fileContents
                                                 (drawMask (fst kv)) ;;
               Ok (dict_set (path_basename (fst kv)) record encryptionKeys)
             else Ok encryptionKeys)
          dependencyTree [].

End MainLoop.

Section PrecomputedHashes.
Context `{BuildHost}.

(** [computeHashesForJsFiles()]; [recompiledFiles] is what [getJsFiles] finds
    under the recompiled folder (all of extension [.js]).  A file that cannot
    be read is logged and left out. *)
Definition computeHashesForJsFiles (recompiledFiles : list string) : dict string :=
  fold_left (fun hashObj file =>
               match readFileSync file with
               | Some content => dict_set file (sha256hex content) hashObj
               | None => hashObj
               end)
            (filter (fun file => negb (String.eqb (path_basename file) "Router.js"))
                    recompiledFiles)
            [].

End PrecomputedHashes.

(** The test of the comparison loop of [verifyHashes] on one entry of the
    precomputed table: [!expectedHash || actualHash !== expectedHash] is
    false. *)
Definition entryPasses (globalHashes : dict string) (entry : string * string) : bool :=
  match dict_get (verifierFileName (fst entry)) globalHashes with
  | Some actualHash => JsString.truthy (snd entry) && String.eqb actualHash (snd entry)
  | None => false
  end.

(* ----------------------------------------------------------------- *)
(** ** Notions for the further properties *)

(** The chains of files from a node down to each node below it, the deepest
    file first; [chain] is the chain down to the node itself. *)
Fixpoint chainsBelow (n : DependencyNode) (chain : list string) : list (list string) :=
  match n with
  | mkNode _ deps =>
      flat_map (fun dep => (fst dep :: chain) :: chainsBelow (snd dep) (fst dep :: chain)) deps
  end.

Definition forestChains (deps : dict DependencyNode) (chain : list string)
  : list (list string) :=
  flat_map (fun dep => (fst dep :: chain) :: chainsBelow (snd dep) (fst dep :: chain)) deps.

(** The bytes the hash loop of [routerForwardCall] folds for a branch file:
    those of its live digest, or nothing (all zero) while it has none. *)
Definition liveBytes (globalHashes : dict string) (file : string) : Uint8Array :=
  match liveHash globalHashes (routerFileName file) with
  | Some hashHex => hexPairs hashHex
  | None => newUint8Array 32
  end.

(** A string none of whose characters is in the class [isSep]. *)
Fixpoint sepFree (isSep : ascii -> bool) (s : string) : bool :=
  match s with
  | EmptyString => true
  | String c rest => negb (isSep c) && sepFree isSep rest
  end.

(** [parts.join(sep)] for a one-character separator. *)
Definition join (sep : ascii) (parts : list string) : string :=
  String.concat (String sep EmptyString) parts.

(** What the function index holds for [fn] after the files [seen]. *)
Definition firstDeclaring (fileDeclarations : dict StrSet) (seen : list string)
           (fn : string) (entry : option string) : Prop :=
  match entry with
  | Some file =>
      inherited fn = false /\
      exists before after declared,
        seen = before ++ file :: after /\
        dict_get file fileDeclarations = Some declared /\ In fn declared /\
        forall g d, In g before -> dict_get g fileDeclarations = Some d -> ~ In fn d
  | None =>
      inherited fn = true \/
      forall g d, In g seen -> dict_get g fileDeclarations = Some d -> ~ In fn d
  end.

(** Rendering byte [n] the extension's way and the router's way agree. *)
Definition byteRendersAlike (n : nat) : bool :=
  String.eqb (padStart2 (Hex.toString16 (Z.of_nat n))) (byteToHex (Z.of_nat n)).

(** Sample data for the further properties. *)
Module More.

Definition extension : ExtensionHost := {|
  fetchText := fun u => if JsString.includes u "missing" then None else Some u;
  digestSHA256 := fun content => repeat (Z.of_nat (String.length content) mod 256)%Z 32;
  hasActiveTab := true
|}.

Definition scriptUrl : string := "http://localhost/recompiled/file1.js".

Definition message : MessageEvent :=
  {| sourceIsWindow := true; action := "hashSaved"; url := scriptUrl; hash := Sample.hexA |}.

(** A message a script of the page can post: its last segment is [__proto__]. *)
Definition protoMessage : MessageEvent :=
  {| sourceIsWindow := true; action := "hashSaved"; url := "http://localhost/__proto__";
     hash := Sample.hexA |}.

Definition calls : list EncryptedCall :=
  [ {| original := "file3-funzioneDiFile3-null-null"; iv := "iv-1";
       ciphertext := "CT-1"; encryptedResult := "CT-1" |};
    {| original := "file4-funzioneDiFile4-null-null"; iv := "iv-2";
       ciphertext := "CT-2"; encryptedResult := "CT-2" |} ].

Definition record : KeyRecord :=
  {| routerFile := Sample.file3; collectedHashes := []; xorOfHashes := Sample.hexA;
     mask := Sample.maskHex; key := Sample.hexB |}.

Definition keys : RouterFileKeys := {| keyRecord := record; encryptedCalls := calls |}.

(** Two files of one name in different folders, both in the branch. *)
Definition utilA : string := "C:\site\a\util.js".
Definition utilB : string := "C:\site\b\util.js".

Definition twinTree : DependencyTree :=
  [ (Sample.fileR, mkNode true [(utilA, mkNode false []); (utilB, mkNode false [])]) ].

Definition twinLive : dict string := [("util.js", Sample.hexA)].

Definition atobJson (encodedStr : string) : option (dict string) :=
  if String.eqb encodedStr "ok" then Some Sample.windowsPrecomputed else None.

(** Two files of one name in the precomputed table; the live table holds
    the hash of the second. *)
Definition shadowedPrecomputed : dict string := [(utilA, Sample.hexB); (utilB, Sample.hexA)].
Definition shadowedLive : dict string := [("util.js", Sample.hexA)].

(** A page whose constants are the sample tree and mapping; base64 is left
    out of the sample, a constant that starts with "%" is no base64. *)
Definition page : PageHost := {|
  window_atob := fun s => if JsString.startsWith s "%" then None else Some s;
  parseDependencyTree := fun json =>
    if String.eqb json "tree" then Some Sample.tree else None;
  parseIvsMapping := fun json =>
    if String.eqb json "ivs" then Some Sample.ivsMapping
    else if String.eqb json "short" then Some Sample.ivsShortMask
    else None
|}.

(** A project in which [a.js] declares a function called [toString] and
    [b.js] calls it. *)
Definition protoA : string := "C:\site\a.js".
Definition protoB : string := "C:\site\b.js".
Definition protoContentA : string := "function toString(){ return 1; }".
Definition protoContentB : string := "function g(){ toString(); }".

Definition protoNode : BuildHost := {|
  readFileSync := fun f =>
    if String.eqb f protoA then Some protoContentA
    else if String.eqb f protoB then Some protoContentB
    else None;
  path_basename_js := fun f =>
    if String.eqb f protoA then "a" else if String.eqb f protoB then "b" else f;
  path_basename := routerFileName;
  regexDeclarationMatches := fun c =>
    if String.eqb c protoContentA then ["toString"]
    else if String.eqb c protoContentB then ["g"]
    else [];
  regexCallMatches := fun c =>
    if String.eqb c protoContentA then ["toString"]
    else if String.eqb c protoContentB then ["g"; "toString"]
    else [];
  routerCallRegexMatches := fun _ => [];
  sha256hex := fun _ => Sample.hexA
|}.

(** The function index of the sample project. *)
Definition functionIndex : dict string :=
  match buildGlobalFunctionIndex Sample.allFiles
          (@buildFileDeclarations Sample.node Sample.allFiles) with
  | Ok idx => idx
  | Throw _ => []
  end.

End More.

(* ================================================================= *)
(** * Part II: properties *)
(* ================================================================= *)

(** ** Dictionaries and Sets *)

Section DictFacts.
Context {V : Type}.
Implicit Types (d : dict V) (k : string) (v : V).

Lemma dict_get_set_same k v d : dict_get k (dict_set k v d) = Some v.
  Proof.
    induction d as [|[k' v'] d IH]; simpl.
    - now rewrite String.eqb_refl.
    - destruct (String.eqb k k') eqn:E; simpl; rewrite E; auto.
  Qed.

Lemma dict_get_set_other k k' v d :
    k <> k' -> dict_get k (dict_set k' v d) = dict_get k d.
  Proof.
    intros Hne. induction d as [|[k2 v2] d IH]; simpl.
    - destruct (String.eqb k k') eqn:E; auto. apply String.eqb_eq in E. contradiction.
    - destruct (String.eqb k' k2) eqn:E; simpl.
      + apply String.eqb_eq in E. subst k2.
        apply String.eqb_neq in Hne. now rewrite Hne.
      + now rewrite IH.
  Qed.

Lemma dict_keys_set k v d x :
    In x (dict_keys (dict_set k v d)) <-> x = k \/ In x (dict_keys d).
  Proof.
    induction d as [|[k' v'] d IH]; simpl.
    - intuition.
    - destruct (String.eqb k k') eqn:E; simpl.
      + apply String.eqb_eq in E. subst. intuition.
      + rewrite IH. intuition.
  Qed.

Lemma dict_set_NoDup k v d : NoDup (dict_keys d) -> NoDup (dict_keys (dict_set k v d)).
  Proof.
    induction d as [|[k' v'] d IH]; simpl; intros Hnd.
    - constructor; [intros []|constructor].
    - destruct (String.eqb k k') eqn:E; simpl; auto.
      inversion Hnd; subst. constructor; auto.
      fold (dict_keys (dict_set k v d)). rewrite dict_keys_set.
      intros [->|Hin]; [now rewrite String.eqb_refl in E|contradiction].
  Qed.

Lemma dict_set_values (P : string -> V -> Prop) k v d :
    P k v -> (forall k' v', In (k', v') d -> P k' v') ->
    forall k' v', In (k', v') (dict_set k v d) -> P k' v'.
  Proof.
    intros Hk. induction d as [|[k2 v2] d IH]; simpl; intros Hd k' v' Hin.
    - destruct Hin as [[= <- <-]|[]]. exact Hk.
    - destruct (String.eqb k k2) eqn:E; simpl in Hin.
      + apply String.eqb_eq in E. subst k2.
        destruct Hin as [[= <- <-]|Hin]; auto.
      + destruct Hin as [[= <- <-]|Hin]; auto.
  Qed.

Lemma dict_get_In k v d : dict_get k d = Some v -> In (k, v) d.
  Proof.
    induction d as [|[k' v'] d IH]; simpl; [discriminate|].
    destruct (String.eqb k k') eqn:E.
    - apply String.eqb_eq in E. intros [= ->]. subst. now left.
    - intros Hg. right. auto.
  Qed.

Lemma dict_get_None k d : dict_get k d = None <-> ~ In k (dict_keys d).
  Proof.
    induction d as [|[k' v'] d IH]; simpl.
    - intuition.
    - destruct (String.eqb k k') eqn:E.
      + apply String.eqb_eq in E. subst. split; [discriminate|intuition].
      + apply String.eqb_neq in E. rewrite IH. intuition congruence.
  Qed.

Lemma dict_In_get k v d : NoDup (dict_keys d) -> In (k, v) d -> dict_get k d = Some v.
  Proof.
    induction d as [|[k' v'] d IH]; simpl; intros Hnd Hin; [contradiction|].
    inversion Hnd; subst.
    destruct Hin as [[= -> ->]|Hin].
    - now rewrite String.eqb_refl.
    - destruct (String.eqb k k') eqn:E; auto.
      apply String.eqb_eq in E. subst k'.
      exfalso. apply H1. change (In (fst (k, v)) (map fst d)). now apply in_map.
  Qed.
End DictFacts.

Lemma set_has_In x s : set_has x s = true <-> In x s.
Proof.
  unfold set_has. rewrite existsb_exists. split.
  - intros [y [Hin Heq]]. apply String.eqb_eq in Heq. now subst.
  - intros Hin. exists x. split; auto. apply String.eqb_refl.
Qed.

Lemma set_has_false x s : set_has x s = false <-> ~ In x s.
Proof.
  rewrite <- set_has_In. destruct (set_has x s); intuition congruence.
Qed.

Lemma set_add_In x y s : In y (set_add x s) <-> y = x \/ In y s.
Proof.
  unfold set_add. destruct (set_has x s) eqn:E.
  - apply set_has_In in E. intuition. now subst.
  - rewrite in_app_iff. simpl. intuition.
Qed.

Lemma set_add_NoDup x s : NoDup s -> NoDup (set_add x s).
Proof.
  unfold set_add. destruct (set_has x s) eqn:E; auto.
  intros Hnd. apply set_has_false in E.
  apply NoDup_app; auto.
  - constructor; [intros []|constructor].
  - intros y Hy [<-|[]]. contradiction.
Qed.

(** ** Exclusive or on buffers *)

Lemma xorBytes_length a b :
  List.length (xorBytes a b) = Nat.min (List.length a) (List.length b).
Proof.
  revert b. induction a as [|x a IH]; intros [|y b]; simpl; auto.
Qed.

Lemma xorBytes_swap a b c :
  xorBytes (xorBytes a b) c = xorBytes (xorBytes a c) b.
Proof.
  revert b c. induction a as [|x a IH]; intros [|y b] [|z c]; simpl; auto.
  f_equal; auto.
  rewrite !Z.lxor_assoc. f_equal. apply Z.lxor_comm.
Qed.

Lemma xorBytes_zero_l n b :
  List.length b = n -> xorBytes (newUint8Array n) b = b.
Proof.
  revert b. induction n as [|n IH]; intros [|y b]; simpl; try discriminate; auto.
  intros [= Hl]. f_equal. now apply IH.
Qed.

Lemma xorBuffersWith_ok message a b :
  List.length a = List.length b -> xorBuffersWith message a b = Ok (xorBytes a b).
Proof.
  intros Hl. unfold xorBuffersWith. rewrite Hl, Nat.eqb_refl. reflexivity.
Qed.

Lemma xorBuffers_ok a b :
  List.length a = List.length b -> xorBuffers a b = Ok (xorBytes a b).
Proof. apply xorBuffersWith_ok. Qed.

Lemma xorArrays_ok a b :
  List.length a = List.length b -> xorArrays a b = Ok (xorBytes a b).
Proof. apply xorBuffersWith_ok. Qed.

(** On buffers of one length the accumulator loop never throws and is the
    plain left fold of [xorBytes]. *)
Lemma foldExc_xorBuffersWith message n hashes acc :
  List.length acc = n ->
  Forall (fun h => List.length h = n) hashes ->
  foldExc (xorBuffersWith message) hashes acc = Ok (fold_left xorBytes hashes acc)
  /\ List.length (fold_left xorBytes hashes acc) = n.
Proof.
  intros Hacc Hall. revert acc Hacc.
  induction Hall as [|h hashes Hh Hall IH]; intros acc Hacc; simpl.
  - auto.
  - rewrite xorBuffersWith_ok by congruence. simpl.
    apply IH. rewrite xorBytes_length, Hacc, Hh. apply Nat.min_id.
Qed.

Lemma foldExc_xorBuffers n hashes acc :
  List.length acc = n ->
  Forall (fun h => List.length h = n) hashes ->
  foldExc xorBuffers hashes acc = Ok (fold_left xorBytes hashes acc)
  /\ List.length (fold_left xorBytes hashes acc) = n.
Proof. apply foldExc_xorBuffersWith. Qed.

Lemma foldExc_xorArrays n hashes acc :
  List.length acc = n ->
  Forall (fun h => List.length h = n) hashes ->
  foldExc xorArrays hashes acc = Ok (fold_left xorBytes hashes acc)
  /\ List.length (fold_left xorBytes hashes acc) = n.
Proof. apply foldExc_xorBuffersWith. Qed.

Lemma fold_xorBytes_perm hashes hashes' acc :
  Permutation hashes hashes' ->
  fold_left xorBytes hashes acc = fold_left xorBytes hashes' acc.
Proof.
  intros Hp. revert acc.
  induction Hp as [| h l l' Hp IH | h1 h2 l | l1 l2 l3 Hp1 IH1 Hp2 IH2]; intros acc; simpl.
  - reflexivity.
  - apply IH.
  - now rewrite xorBytes_swap.
  - now rewrite IH1, IH2.
Qed.

Lemma xorFold_perm hashes hashes' :
  Forall (fun h => List.length h = 32) hashes ->
  Permutation hashes hashes' ->
  xorFold hashes = xorFold hashes'
  /\ exists acc, xorFold hashes = Ok acc /\ List.length acc = 32.
Proof.
  intros Hall Hp.
  assert (Hall' : Forall (fun h => List.length h = 32) hashes').
  { rewrite Forall_forall in *. intros h Hin. apply Hall.
    eapply Permutation_in; [apply Permutation_sym; exact Hp|exact Hin]. }
  unfold xorFold.
  destruct (foldExc_xorBuffers 32 hashes (newUint8Array 32)) as [E1 L1];
    [apply repeat_length|exact Hall|].
  destruct (foldExc_xorBuffers 32 hashes' (newUint8Array 32)) as [E2 L2];
    [apply repeat_length|exact Hall'|].
  rewrite E1, E2. split.
  - f_equal. now apply fold_xorBytes_perm.
  - eauto.
Qed.

(** C7. XOR order independence: folding a list of 32-byte hashes into the
    zero accumulator with [xorBuffers] succeeds, and every permutation of the
    list folds to the same accumulator. *)
Theorem xor_fold_order_independent (hashes hashes' : list Uint8Array) :
  Forall (fun h => List.length h = 32) hashes ->
  Permutation hashes hashes' ->
  xorFold hashes = xorFold hashes'
  /\ exists acc, xorFold hashes = Ok acc /\ List.length acc = 32.
Proof.
  apply xorFold_perm.
Qed.

Lemma xor_fold_order_independent_witness :
  xorFold [Sample.hashA; Sample.hashB] = xorFold [Sample.hashB; Sample.hashA]
  /\ exists acc, xorFold [Sample.hashA; Sample.hashB] = Ok acc /\ List.length acc = 32.
Proof.
  apply (xor_fold_order_independent [Sample.hashA; Sample.hashB] [Sample.hashB; Sample.hashA]).
  - repeat constructor.
  - apply perm_swap.
Defined.

(** ** Hex strings *)

Lemma hexPairs_length s : List.length (hexPairs s) = String.length s / 2.
Proof.
  revert s. fix IH 1. intros [|a [|b rest]]; try reflexivity.
  cbn [hexPairs List.length String.length]. rewrite IH.
  change (S (S (String.length rest))) with (1 * 2 + String.length rest).
  rewrite Nat.div_add_l by lia. reflexivity.
Qed.

Lemma hexStringToUint8Array_even s :
  String.length s mod 2 = 0 -> hexStringToUint8Array s = Ok (hexPairs s).
Proof.
  intros He. unfold hexStringToUint8Array. now rewrite He.
Qed.

Lemma hexStringToUint8Array_64 s :
  String.length s = 64 ->
  hexStringToUint8Array s = Ok (hexPairs s) /\ List.length (hexPairs s) = 32.
Proof.
  intros Hl. split.
  - apply hexStringToUint8Array_even. now rewrite Hl.
  - rewrite hexPairs_length, Hl. reflexivity.
Qed.

Lemma all_bytes_round_trip : forallb byteRoundTrips (seq 0 256) = true.
Proof. vm_compute. reflexivity. Qed.

Lemma byteToHex_parse b :
  isByte b ->
  exists c1 c2, byteToHex b = String c1 (String c2 EmptyString)
                /\ Hex.toUint8 (Hex.parseInt16 (String c1 (String c2 EmptyString))) = b.
Proof.
  intros [Hlo Hhi].
  pose proof all_bytes_round_trip as Hall.
  rewrite forallb_forall in Hall.
  specialize (Hall (Z.to_nat b)).
  assert (Hin : In (Z.to_nat b) (seq 0 256)) by (apply in_seq; lia).
  specialize (Hall Hin). unfold byteRoundTrips in Hall.
  rewrite Z2Nat.id in Hall by lia.
  destruct (byteToHex b) as [|c1 [|c2 [|]]]; try discriminate.
  exists c1, c2. split; auto. now apply Z.eqb_eq.
Qed.

Lemma concat_empty_cons x l :
  String.concat "" (x :: l) = String.append x (String.concat "" l).
Proof.
  destruct l; simpl; auto.
  induction x; simpl; congruence.
Qed.

(** Decoding the hex rendering of a buffer gives the buffer back. *)
Lemma hex_round_trip bytes :
  Forall isByte bytes ->
  hexStringToUint8Array (uint8ArrayToHexString bytes) = Ok bytes
  /\ String.length (uint8ArrayToHexString bytes) = 2 * List.length bytes.
Proof.
  intros Hall.
  assert (G : hexPairs (uint8ArrayToHexString bytes) = bytes
              /\ String.length (uint8ArrayToHexString bytes) = 2 * List.length bytes).
  { induction Hall as [|b bytes Hb Hall IH].
    - split; reflexivity.
    - unfold uint8ArrayToHexString in *. simpl map. rewrite concat_empty_cons.
      destruct (byteToHex_parse b Hb) as [c1 [c2 [E1 E2]]].
      rewrite E1. destruct IH as [IH1 IH2]. simpl String.append. split.
      + cbn [hexPairs]. rewrite E2. f_equal. exact IH1.
      + cbn [String.length List.length]. rewrite IH2. lia. }
  destruct G as [G1 G2]. split; auto.
  rewrite hexStringToUint8Array_even.
  - now rewrite G1.
  - rewrite G2. rewrite Nat.mul_comm. apply Nat.Div0.mod_mul.
Qed.

(** ** Descriptor parsing and dispatch *)

Section ParseFacts.
Context `{BrowserHost}.


Lemma parseAndCall_bad_arity callString caller :
    List.length (JsString.split JsString.isDash callString) <> 4 ->
    parseAndCall callString caller [] = ([ConsoleError "Formato della stringa non valido:"], Normal).
  Proof.
    intros Hl. unfold parseAndCall.
    apply Nat.eqb_neq in Hl. now rewrite Hl.
  Qed.

(** C3. Static descriptor parsing: with no trailing arguments,
    ["file3-funct1-number,string-7,hello"] dispatches [funct1] on
    [[7, "hello"]], ["file3-funct1-null-null"] dispatches it on the empty
    list, and a descriptor that does not split into exactly four fields is
    logged as invalid and nothing is dispatched. *)
Theorem static_descriptor_parsing (caller : string) :
    parseAndCall "file3-funct1-number,string-7,hello" caller []
    = (ConsoleLog "Chiamata proveniente da:"
         :: fst (dispatch (Some "funct1") [VNum (NumInt 7); VStr "hello"]),
       snd (dispatch (Some "funct1") [VNum (NumInt 7); VStr "hello"]))
    /\ parseAndCall "file3-funct1-null-null" caller []
       = (ConsoleLog "Chiamata proveniente da:" :: fst (dispatch (Some "funct1") []),
          snd (dispatch (Some "funct1") []))
    /\ forall callString,
        List.length (JsString.split JsString.isDash callString) <> 4 ->
        parseAndCall callString caller []
        = ([ConsoleError "Formato della stringa non valido:"], Normal)
        /\ noDispatch (fst (parseAndCall callString caller [])).
  Proof.
    split; [reflexivity|]. split; [reflexivity|].
    intros callString Hl.
    rewrite (parseAndCall_bad_arity callString caller Hl). split; reflexivity.
  Qed.

(** With trailing arguments the descriptor's parameter fields are not
    read, and the page function receives one argument: the array of the
    trailing arguments. *)
Lemma callWithPlaintext_dynamic plaintext callee a args :
    callWithPlaintext plaintext callee (a :: args)
    = dispatch (nth_error (JsString.split JsString.isDash plaintext) 1) [VArray (a :: args)].
  Proof. reflexivity. Qed.
End ParseFacts.

Lemma static_descriptor_parsing_witness :
  @parseAndCall Sample.browser "file3-funct1" "file2" []
  = ([ConsoleError "Formato della stringa non valido:"], Normal)
  /\ noDispatch (fst (@parseAndCall Sample.browser "file3-funct1" "file2" [])).
Proof.
  apply (proj2 (proj2 (@static_descriptor_parsing Sample.browser "file2")) "file3-funct1").
  vm_compute. lia.
Defined.

(** C4, on the shipped call [routerForwardCall(ct, "file3", 15)] whose
    ciphertext decrypts to ["unfilejsqualunque-printing"]: [printing] is
    called with the single argument [[15]], not with [15]. *)
Theorem dynamic_arguments_arrive_as_one_array :
  @routerForwardCall Sample.browser Sample.tree Sample.ivsMapping Sample.globalHashes
                     "CT-dynamic" "file3" [VNum (NumInt 15)]
  = ([ConsoleLog "xorOfHashes (hex):"; ConsoleLog "Final key (hex):";
      Invoke "printing" [VArray [VNum (NumInt 15)]]], Normal)
  /\ [VArray [VNum (NumInt 15)]] <> [VNum (NumInt 15)].
Proof.
  split; [vm_compute; reflexivity|discriminate].
Qed.

(** ** The tamper verifier *)

Section VerifierFacts.
Variables simplified globalHashes : dict string.

Local Abbreviation hashMatches := (hashMatches simplified globalHashes).

Hypothesis expected_nonempty : forall file h, In (file, h) simplified -> h <> "".

Lemma verifyLoop_match file seen rest :
  hashMatches file ->
  verifyLoop simplified globalHashes seen (file :: rest)
  = verifyLoop simplified globalHashes (seen ++ [file]) rest.
Proof.
  intros [h [He Ha]]. simpl. rewrite He, Ha, String.eqb_refl.
  assert (Hne : h <> "") by (eapply expected_nonempty, dict_get_In; eauto).
  destruct h; [contradiction|reflexivity].
Qed.

Lemma verifyLoop_mismatch file seen rest :
  In file (dict_keys simplified) ->
  ~ hashMatches file ->
  verifyLoop simplified globalHashes seen (file :: rest)
  = {| compared := seen ++ [file];
       emitted := [ConsoleWarn "Mismatch per"; InsertOverlay] |}.
Proof.
  intros Hin Hno. simpl.
  destruct (dict_get file simplified) as [e|] eqn:He.
  - destruct (dict_get file globalHashes) as [a|] eqn:Ha.
    + destruct (String.eqb a e) eqn:Eae.
      * apply String.eqb_eq in Eae. subst a. exfalso. apply Hno. exists e. auto.
      * simpl. rewrite orb_true_r. reflexivity.
    + rewrite orb_true_r. reflexivity.
  - apply dict_get_None in He. contradiction.
Qed.

Lemma verifyLoop_all_match seen files :
  Forall hashMatches files ->
  verifyLoop simplified globalHashes seen files
  = {| compared := seen ++ files; emitted := [ConsoleLog "Tutti gli hash combaciano."] |}.
Proof.
  intros Hall. revert seen.
  induction Hall as [|file files Hm Hall IH]; intros seen.
  - simpl. now rewrite app_nil_r.
  - rewrite verifyLoop_match by assumption. rewrite IH, <- app_assoc. reflexivity.
Qed.

Lemma verifyLoop_first_mismatch seen before file rest :
  Forall hashMatches before ->
  In file (dict_keys simplified) ->
  ~ hashMatches file ->
  verifyLoop simplified globalHashes seen (before ++ file :: rest)
  = {| compared := seen ++ before ++ [file];
       emitted := [ConsoleWarn "Mismatch per"; InsertOverlay] |}.
Proof.
  intros Hall Hin Hno. revert seen.
  induction Hall as [|f before Hm Hall IH]; intros seen.
  - simpl app. now apply verifyLoop_mismatch.
  - simpl app. rewrite verifyLoop_match by assumption.
    rewrite IH, <- app_assoc. reflexivity.
Qed.

Lemma hashMatches_dec file : {hashMatches file} + {~ hashMatches file}.
Proof.
  unfold hashMatches.
  destruct (dict_get file simplified) as [e|]; [|right; intros [h [? _]]; discriminate].
  destruct (dict_get file globalHashes) as [a|]; [|right; intros [h [_ ?]]; discriminate].
  destruct (string_dec a e) as [->|Hne].
  - left. eauto.
  - right. intros [h [[= ->] [= ->]]]. contradiction.
Qed.

Lemma first_mismatch files :
  Forall hashMatches files
  \/ exists before file rest,
      files = before ++ file :: rest /\ Forall hashMatches before /\ ~ hashMatches file.
Proof.
  induction files as [|f files IH].
  - left. constructor.
  - destruct (hashMatches_dec f) as [Hm|Hno].
    + destruct IH as [Hall|[before [file [rest [-> [Hb Hf]]]]]].
      * left. now constructor.
      * right. exists (f :: before), file, rest. repeat split; auto.
    + right. exists [], f, files. repeat split; auto.
Qed.
End VerifierFacts.

Lemma simplifyPrecomputed_values precomputed file h :
  In (file, h) (simplifyPrecomputed precomputed) ->
  exists fullPath, In (fullPath, h) precomputed.
Proof.
  unfold simplifyPrecomputed.
  assert (G : forall acc,
             (forall k v, In (k, v) acc -> exists fullPath, In (fullPath, v) precomputed) ->
             forall l, incl l precomputed ->
             forall k v,
               In (k, v) (fold_left (fun simplified kv =>
                                       dict_set (verifierFileName (fst kv)) (snd kv) simplified) l acc) ->
               exists fullPath, In (fullPath, v) precomputed).
  { intros acc Hacc l. revert acc Hacc.
    induction l as [|[p v0] l IH]; intros acc Hacc Hincl k v Hin; simpl in Hin.
    - eauto.
    - eapply IH; [| |exact Hin].
      + intros k' v'. apply dict_set_values with (P := fun _ v => exists fp, In (fp, v) precomputed).
        * exists p. apply Hincl. now left.
        * exact Hacc.
      + intros x Hx. apply Hincl. now right. }
  apply (G [] (fun k v (Hf : In (k, v) []) => match Hf with end) precomputed (incl_refl _)).
Qed.

(** The comparison loop on the table re-keyed by file name, when no
    precomputed hash is the empty string.  If every name of the re-keyed
    table has its hash in the live table, every name is compared, success is
    logged and no overlay is inserted.  Otherwise the loop stops at the first
    name whose hash is missing from the live table or differs: it warns,
    inserts the overlay and compares no later name. *)
Lemma verifyHashes_on_rekeyed_table (precomputed globalHashes : dict string) :
  (forall fullPath h, In (fullPath, h) precomputed -> h <> "") ->
  let simplified := simplifyPrecomputed precomputed in
  let ok := hashMatches simplified globalHashes in
  (Forall ok (dict_keys simplified) ->
   verifyHashes precomputed globalHashes
   = {| compared := dict_keys simplified;
        emitted := [ConsoleLog "Tutti gli hash combaciano."] |})
  /\ (forall before file rest,
         dict_keys simplified = before ++ file :: rest ->
         Forall ok before -> ~ ok file ->
         verifyHashes precomputed globalHashes
         = {| compared := before ++ [file];
              emitted := [ConsoleWarn "Mismatch per"; InsertOverlay] |})
  /\ (Forall ok (dict_keys simplified)
      \/ exists before file rest,
          dict_keys simplified = before ++ file :: rest /\ Forall ok before /\ ~ ok file).
Proof.
  intros Hne simplified ok.
  assert (Hs : forall file h, In (file, h) simplified -> h <> "").
  { intros file h Hin. destruct (simplifyPrecomputed_values _ _ _ Hin) as [fp Hfp]. eauto. }
  split; [|split].
  - intros Hall. unfold verifyHashes. fold simplified.
    now rewrite (verifyLoop_all_match simplified globalHashes Hs).
  - intros before file rest Hk Hb Hf. unfold verifyHashes. fold simplified.
    rewrite Hk. rewrite (verifyLoop_first_mismatch simplified globalHashes Hs); auto.
    rewrite Hk. apply in_or_app. right. now left.
  - apply first_mismatch.
Qed.

(** C8, on a table written by a build on a POSIX system: the router reduces
    the path to its last segment, the verifier keeps the whole path as the
    key, finds no live hash under it and blocks a page whose file is intact. *)
Theorem verifier_keeps_posix_path :
  routerFileName "/home/u/site/recompiled/file1.js" = "file1.js"
  /\ verifierFileName "/home/u/site/recompiled/file1.js" = "/home/u/site/recompiled/file1.js"
  /\ routerFileName "C:\site\recompiled\file1.js" = "file1.js"
  /\ verifierFileName "C:\site\recompiled\file1.js" = "file1.js"
  /\ verifyHashes Sample.posixPrecomputed Sample.globalHashes
     = {| compared := ["/home/u/site/recompiled/file1.js"];
          emitted := [ConsoleWarn "Mismatch per"; InsertOverlay] |}.
Proof.
  repeat split; vm_compute; reflexivity.
Qed.

(** ** The start-up wait *)

Lemma pollTime_elapsed interval env startTime k :
  (0 < interval)%Z ->
  (Z.of_nat k * interval <= pollTime interval env startTime k - startTime)%Z.
Proof.
  intros Hint. induction k as [|k IH].
  - cbn. lia.
  - cbn [pollTime]. nia.
Qed.

Lemma check_settles timeout interval startTime env :
  (0 < interval)%Z ->
  forall fuel n k,
    1 <= n <= fuel ->
    (timeout <= (Z.of_nat k + Z.of_nat n - 1) * interval)%Z ->
    (forall j, j < k ->
               hashesAvailable (hashesAt env (pollTime interval env startTime j)) = false
               /\ (pollTime interval env startTime j - startTime < timeout)%Z) ->
    exists poll,
      k <= poll < k + n
      /\ (forall j, j < poll ->
                    hashesAvailable (hashesAt env (pollTime interval env startTime j)) = false
                    /\ (pollTime interval env startTime j - startTime < timeout)%Z)
      /\ ((check fuel timeout interval startTime env k (pollTime interval env startTime k)
           = Some (Resolved poll (pollTime interval env startTime poll))
           /\ hashesAvailable (hashesAt env (pollTime interval env startTime poll)) = true)
          \/ (check fuel timeout interval startTime env k (pollTime interval env startTime k)
              = Some (Rejected poll (pollTime interval env startTime poll))
              /\ hashesAvailable (hashesAt env (pollTime interval env startTime poll)) = false
              /\ (timeout <= pollTime interval env startTime poll - startTime)%Z)).
Proof.
  intros Hint. induction fuel as [|fuel IH]; intros n k Hn Hto Hbefore; [lia|].
  cbn [check].
  destruct (hashesAvailable (hashesAt env (pollTime interval env startTime k))) eqn:Hav.
  - exists k. split; [lia|]. split; [exact Hbefore|]. left. auto.
  - destruct (pollTime interval env startTime k - startTime >=? timeout)%Z eqn:Hge.
    + exists k. split; [lia|]. split; [exact Hbefore|]. right. repeat split; auto.
      apply Z.geb_le in Hge. lia.
    + assert (Hlt : (pollTime interval env startTime k - startTime < timeout)%Z).
      { destruct (Z.geb_spec (pollTime interval env startTime k - startTime) timeout);
          [discriminate|lia]. }
      pose proof (pollTime_elapsed interval env startTime k Hint) as Hel.
      assert (Hn2 : 2 <= n) by nia.
      destruct (IH (n - 1) (S k)) as [poll [Hp [Hb Hcase]]].
      * lia.
      * replace (Z.of_nat (S k) + Z.of_nat (n - 1) - 1)%Z
          with (Z.of_nat k + Z.of_nat n - 1)%Z by lia.
        exact Hto.
      * intros j Hj. destruct (Nat.eq_dec j k) as [->|Hne]; [auto|].
        apply Hbefore. lia.
      * exists poll. split; [lia|]. split; [exact Hb|]. exact Hcase.
Qed.

(** C6. Fail-closed start-up: the wait polls every 100 ms (or later, never
    earlier) and settles at one of its first 51 polls, in exactly one of two
    ways.  Either that poll finds the live table non-empty while no earlier
    poll has seen the 5000 ms elapse, and the verifier runs on that table;
    or that poll finds the table still empty with at least 5000 ms elapsed,
    and the overlay is inserted.  There is no run in which the page goes on
    without one of the two. *)
Theorem startup_fails_closed (env : PageEnv) (startTime : Z) (precomputed : dict string)
        (fuel : nat) :
  51 <= fuel ->
  let time := pollTime defaultInterval env startTime in
  exists poll,
    poll <= 50
    /\ (forall j, j < poll ->
                  hashesAvailable (hashesAt env (time j)) = false
                  /\ (time j - startTime < defaultTimeout)%Z)
    /\ ((waitForGlobalHashes fuel defaultTimeout defaultInterval env startTime
         = Some (Resolved poll (time poll))
         /\ hashesAvailable (hashesAt env (time poll)) = true
         /\ startup fuel env startTime precomputed
            = Some (emitted (verifyHashes precomputed (hashesAt env (time poll)))))
        \/ (waitForGlobalHashes fuel defaultTimeout defaultInterval env startTime
            = Some (Rejected poll (time poll))
            /\ hashesAvailable (hashesAt env (time poll)) = false
            /\ (defaultTimeout <= time poll - startTime)%Z
            /\ startup fuel env startTime precomputed
               = Some [ConsoleError "globalHashes non disponibile dopo il timeout.";
                       InsertOverlay])).
Proof.
  intros Hfuel time.
  destruct (check_settles defaultTimeout defaultInterval startTime env
                          ltac:(unfold defaultInterval; lia) fuel 51 0)
    as [poll [Hp [Hb Hcase]]].
  - lia.
  - unfold defaultTimeout, defaultInterval. simpl. lia.
  - intros j Hj. lia.
  - exists poll. split; [lia|]. split; [exact Hb|].
    unfold startup, waitForGlobalHashes.
    change (startTime + Z.max 0 (timerLateness env 0))%Z
      with (pollTime defaultInterval env startTime 0).
    destruct Hcase as [[E Hav]|[E [Hav Hto]]]; rewrite E.
    + left. auto.
    + right. auto.
Qed.

Lemma startup_fails_closed_witness :
  startup 51 Sample.silentPage 1000 Sample.windowsPrecomputed
  = Some [ConsoleError "globalHashes non disponibile dopo il timeout."; InsertOverlay].
Proof.
  destruct (startup_fails_closed Sample.silentPage 1000 Sample.windowsPrecomputed 51
                                 (le_n 51)) as [poll [_ [_ [[_ [Hav _]]|[_ [_ [_ E]]]]]]].
  - discriminate Hav.
  - exact E.
Defined.

(** On the silent page the fiftieth re-poll rejects; on the ready page the
    first poll resolves. *)
Example startup_silent_page :
  waitForGlobalHashes 51 defaultTimeout defaultInterval Sample.silentPage 1000
  = Some (Rejected 50 6000)
  /\ waitForGlobalHashes 50 defaultTimeout defaultInterval Sample.silentPage 1000 = None
  /\ waitForGlobalHashes 51 defaultTimeout defaultInterval Sample.readyPage 1000
     = Some (Resolved 0 1003).
Proof. repeat split; vm_compute; reflexivity. Qed.

(** ** The router: the synchronous part *)

Section RouterFacts.
Context `{BrowserHost}.


Lemma foldLiveHash_none live acc file :
  dict_get (routerFileName file) live = None -> foldLiveHash live acc file = Ok acc.
Proof.
  intros E. unfold foldLiveHash. now rewrite E.
Qed.



Lemma foldLive_absent live branch acc :
  (forall file, In file branch -> dict_get (routerFileName file) live = None) ->
  foldExc (foldLiveHash live) branch acc = Ok acc.
Proof.
  revert acc. induction branch as [|file branch IH]; intros acc Habs; simpl; auto.
  rewrite foldLiveHash_none by (apply Habs; now left). cbn [bind].
  apply IH. intros f Hf. apply Habs. now right.
Qed.



Lemma routerSync_branch tree ivs live callee m maskHex :
  dict_get (normalizeCallee callee) ivs = Some m ->
  dict_get "mask" m = Some maskHex -> maskHex <> "" ->
  routerSync tree ivs live callee
  = lift (collectBranch tree (normalizeCallee callee)) (fun branchFiles =>
      if List.length branchFiles =? 0 then
        Stopped [ConsoleError "No dependency branch found for"] Normal
      else
        lift (foldExc (foldLiveHash live) branchFiles (newUint8Array 32))
          (fun xorResult =>
             lift (hexStringToUint8Array maskHex) (fun maskBuffer =>
               lift (xorBuffers xorResult maskBuffer) (fun finalKeyRaw =>
                 KeyReady [ConsoleLog "xorOfHashes (hex):"; ConsoleLog "Final key (hex):"]
                          m finalKeyRaw)))).
Proof.
  intros E Em Hne. unfold routerSync. rewrite E, Em.
  destruct maskHex; [contradiction|]. reflexivity.
Qed.


(** The guard on [xorResult] never fires: whatever stops the synchronous
    part, it is not the log of that guard. *)
Lemma routerSync_never_no_hashes tree ivs live callee events c :
  routerSync tree ivs live callee = Stopped events c ->
  ~ In (ConsoleError "No hashes found for branch") events.
Proof.
  unfold routerSync, lift.
  destruct (dict_get (normalizeCallee callee) ivs) as [m|];
    [|intros [= <- <-]; cbn; intuition discriminate].
  destruct (dict_get "mask" m) as [maskHex|];
    [|intros [= <- <-]; cbn; intuition discriminate].
  destruct (negb (JsString.truthy maskHex));
    [intros [= <- <-]; cbn; intuition discriminate|].
  destruct (collectBranch tree (normalizeCallee callee)) as [branch|e];
    [|intros [= <- <-]; cbn; intuition].
  destruct (List.length branch =? 0);
    [intros [= <- <-]; cbn; intuition discriminate|].
  destruct (foldExc (foldLiveHash live) branch (newUint8Array 32)) as [xorResult|e];
    [|intros [= <- <-]; cbn; intuition].
(* the guard [if (!xorResult)]: an object is truthy *)
  cbn [truthyObject negb].
  destruct (hexStringToUint8Array maskHex) as [maskBuffer|e];
    [|intros [= <- <-]; cbn; intuition].
  destruct (xorBuffers xorResult maskBuffer) as [finalKeyRaw|e];
    [discriminate|intros [= <- <-]; cbn; intuition].
Qed.



(** ** The router: the promise chain *)


(** An empty plaintext dispatches nothing, with or without arguments. *)
Lemma empty_plaintext_noDispatch callee args :
  noDispatch (fst (callWithPlaintext "" callee args)).
Proof. destruct args; reflexivity. Qed.



End RouterFacts.

Section RouterClaims.
Context `{BrowserHost}.

Lemma convertParams_no_hashes types values :
  ~ In noHashesLog (snd (convertParams types values)).
Proof.
  revert values. induction types as [|type types IH]; intros [|value values]; cbn; auto.
  rewrite in_app_iff. intros [Hin|Hin]; [|eapply IH; eauto].
  unfold convertParam in Hin.
  repeat match type of Hin with
         | context [if ?b then _ else _] => destruct b
         | context [match JSON_parse ?v with _ => _ end] => destruct (JSON_parse v)
         end; cbn in Hin; intuition discriminate.
Qed.

Lemma dispatch_no_hashes functionName args :
  ~ In noHashesLog (fst (dispatch functionName args)).
Proof.
  unfold dispatch. destruct functionName as [name|]; [destruct (windowHasFunction name)|];
    cbn; intuition discriminate.
Qed.

Lemma parseAndCall_no_hashes callString caller args :
  ~ In noHashesLog (fst (parseAndCall callString caller args)).
Proof.
  unfold parseAndCall. destruct args as [|a args]; [|apply dispatch_no_hashes].
  destruct (negb (List.length (JsString.split JsString.isDash callString) =? 4));
    [cbn; intuition discriminate|].
  destruct (negb _ && negb _).
  - destruct (negb (_ =? _)); [cbn; intuition discriminate|].
    cbn [fst]. rewrite in_app_iff. intros [Hin|[Hin|Hin]].
    + eapply convertParams_no_hashes; eauto.
    + discriminate.
    + eapply dispatch_no_hashes; eauto.
  - cbn [fst]. intros [Hin|Hin]; [discriminate|eapply dispatch_no_hashes; eauto].
Qed.

Lemma catchHandler_no_hashes r :
  ~ In noHashesLog (fst r) -> ~ In noHashesLog (catchHandler r).
Proof.
  intros Hn. unfold catchHandler. destruct (snd r); auto.
  rewrite in_app_iff. intros [Hin|[Hin|[]]]; [auto|discriminate].
Qed.

Lemma callWithPlaintext_no_hashes plaintext callee args :
  ~ In noHashesLog (fst (callWithPlaintext plaintext callee args)).
Proof. destruct args; apply parseAndCall_no_hashes. Qed.

Lemma routerAsync_no_hashes m key callString callee args :
  ~ In noHashesLog (routerAsync m key callString callee args).
Proof.
  unfold routerAsync.
  destruct (importKey key) as [ck|]; [|cbn; intuition discriminate].
  assert (Hempty : ~ In noHashesLog
                     (ConsoleError "No IV found for encrypted call string"
                        :: catchHandler (callWithPlaintext "" callee args))).
  { intros [Hin|Hin]; [discriminate|].
    eapply catchHandler_no_hashes; [apply callWithPlaintext_no_hashes|exact Hin]. }
  destruct (lookupIv m callString) as [iv|]; [|exact Hempty].
  destruct (JsString.truthy iv); [|exact Hempty].
  destruct (decryptText ck iv callString) as [plaintext|]; [|cbn; intuition discriminate].
  apply catchHandler_no_hashes, callWithPlaintext_no_hashes.
Qed.

Lemma routerSync_KeyReady_events tree ivs live callee events m key :
  routerSync tree ivs live callee = KeyReady events m key ->
  events = [ConsoleLog "xorOfHashes (hex):"; ConsoleLog "Final key (hex):"].
Proof.
  unfold routerSync, lift.
  repeat match goal with
         | |- context [match ?x with _ => _ end] => destruct x; try discriminate
         end.
  now intros [= <- _ _].
Qed.

(** C10. The guard on [xorResult] is dead code: no call of
    [routerForwardCall] ever logs "No hashes found for branch", because a
    [Uint8Array] is truthy.  So when the mapping, its 32-byte mask and a
    non-empty branch are there and the live table holds none of the branch
    files, the reconstructed key is the published mask itself and the call
    goes on to the import of that key and the decryption. *)
Theorem no_hashes_guard_unreachable (tree : DependencyTree) (ivs : dict (dict string))
        (live : dict string) (callString callee : string) (args : list JSVal) :
  ~ In noHashesLog (fst (routerForwardCall tree ivs live callString callee args))
  /\ forall m maskHex branch,
      dict_get (normalizeCallee callee) ivs = Some m ->
      dict_get "mask" m = Some maskHex ->
      String.length maskHex = 64 ->
      collectBranch tree (normalizeCallee callee) = Ok branch ->
      branch <> [] ->
      (forall file, In file branch -> dict_get (routerFileName file) live = None) ->
      hexStringToUint8Array maskHex = Ok (hexPairs maskHex)
      /\ routerSync tree ivs live callee
         = KeyReady [ConsoleLog "xorOfHashes (hex):"; ConsoleLog "Final key (hex):"]
                    m (hexPairs maskHex)
      /\ routerForwardCall tree ivs live callString callee args
         = ([ConsoleLog "xorOfHashes (hex):"; ConsoleLog "Final key (hex):"]
              ++ routerAsync m (hexPairs maskHex) callString callee args, Normal).
Proof.
  split.
  - unfold routerForwardCall.
    destruct (routerSync tree ivs live callee) as [events c|events m key] eqn:Es; cbn [fst].
    + eapply routerSync_never_no_hashes; eauto.
    + rewrite (routerSync_KeyReady_events _ _ _ _ _ _ _ Es).
      rewrite in_app_iff. intros [[Hin|[Hin|[]]]|Hin]; try discriminate.
      eapply routerAsync_no_hashes; eauto.
  - intros m maskHex branch E Em Hl Eb Hne Habs.
    destruct (hexStringToUint8Array_64 maskHex Hl) as [Eh Lh].
    assert (Es : routerSync tree ivs live callee
                 = KeyReady [ConsoleLog "xorOfHashes (hex):"; ConsoleLog "Final key (hex):"]
                            m (hexPairs maskHex)).
    { rewrite (routerSync_branch tree ivs live callee m maskHex E Em)
        by (intros ->; discriminate).
      rewrite Eb. cbn [lift].
      destruct branch as [|f branch]; [contradiction|]. cbn [List.length Nat.eqb].
      rewrite foldLive_absent by assumption. cbn [lift].
      rewrite Eh. cbn [lift].
      rewrite xorBuffers_ok by (rewrite Lh; apply repeat_length). cbn [lift].
      rewrite xorBytes_zero_l by assumption. reflexivity. }
    split; [exact Eh|]. split; [exact Es|].
    unfold routerForwardCall. rewrite Es. reflexivity.
Qed.

End RouterClaims.




Lemma no_hashes_guard_unreachable_witness :
  hexStringToUint8Array Sample.maskHex = Ok (hexPairs Sample.maskHex)
  /\ routerSync Sample.tree Sample.ivsMapping [] "file3"
     = KeyReady [ConsoleLog "xorOfHashes (hex):"; ConsoleLog "Final key (hex):"]
                [("mask", Sample.maskHex); ("CT-static", "iv-static"); ("CT-dynamic", "iv-dynamic")]
                (hexPairs Sample.maskHex)
  /\ @routerForwardCall Sample.browser Sample.tree Sample.ivsMapping [] "CT-static" "file3" []
     = ([ConsoleLog "xorOfHashes (hex):"; ConsoleLog "Final key (hex):"]
          ++ @routerAsync Sample.browser
               [("mask", Sample.maskHex); ("CT-static", "iv-static"); ("CT-dynamic", "iv-dynamic")]
               (hexPairs Sample.maskHex) "CT-static" "file3" [], Normal).
Proof.
  apply (proj2 (@no_hashes_guard_unreachable Sample.browser Sample.tree Sample.ivsMapping []
                                             "CT-static" "file3" [])
               _ Sample.maskHex ["C:\site\file1.js"]).
  - reflexivity.
  - reflexivity.
  - reflexivity.
  - vm_compute. reflexivity.
  - discriminate.
  - intros file _. reflexivity.
Defined.


(** A live hash of odd length, and a root that is not router-dependent, end
    the call abruptly as well: the first through [hexStringToUint8Array], the
    second through the read of [dep] outside its scope. *)
Example router_throws_elsewhere :
  @routerForwardCall Sample.browser Sample.tree Sample.ivsMapping [("file1.js", "abc")]
                     "CT-static" "file3" []
  = ([], Abrupt "Invalid hexString")
  /\ @routerForwardCall Sample.browser Sample.tree
                        [("file1.js", [("mask", Sample.maskHex)])] Sample.globalHashes
                        "CT-static" "file1" []
     = ([], Abrupt "ReferenceError: dep is not defined").
Proof. split; vm_compute; reflexivity. Qed.

(** The static call of the sample decrypts and dispatches. *)
Example router_static_call :
  @routerForwardCall Sample.browser Sample.tree Sample.ivsMapping Sample.globalHashes
                     "CT-static" "file3" []
  = ([ConsoleLog "xorOfHashes (hex):"; ConsoleLog "Final key (hex):";
      ConsoleLog "Chiamata proveniente da:";
      Invoke "funct1" [VNum (NumInt 7); VStr "hello"]], Normal).
Proof. vm_compute. reflexivity. Qed.

(** ** Induction on dependency trees *)

(** A property of every [dependencies] object: it holds of the empty one,
    and of an object with one more entry when it holds of the entry's own
    [dependencies] and of the rest. *)
Lemma forest_ind (P : dict DependencyNode -> Prop) :
  P [] ->
  (forall dep child rest, P (dependencies child) -> P rest -> P ((dep, child) :: rest)) ->
  forall deps, P deps.
Proof.
  intros Hnil Hcons.
  assert (Hnode : forall n, P (dependencies n)).
  { fix IHn 1. intros [rd deps]. cbn [dependencies].
    induction deps as [|[dep child] rest IHrest].
    - exact Hnil.
    - apply Hcons; [apply IHn|exact IHrest]. }
  intros deps. exact (Hnode (mkNode false deps)).
Qed.

Lemma collectDeps_loop n st : collectDeps n st = collectDepsLoop (dependencies n) st.
Proof. destruct n. reflexivity. Qed.

Lemma collectDepsLoop_cons dep child rest st :
  collectDepsLoop ((dep, child) :: rest) st
  = collectDepsLoop rest (collectDepsLoop (dependencies child) (pushDep dep child st)).
Proof.
  unfold collectDepsLoop at 1. cbn [fold_left fst snd].
  rewrite collectDeps_loop. reflexivity.
Qed.

Lemma nodeCount_forest n : nodeCount n = forestCount (dependencies n).
Proof. destruct n. reflexivity. Qed.

Lemma pushDep_length dep child st :
  List.length (fst (pushDep dep child st)) <= S (List.length (fst st)).
Proof.
  unfold pushDep. destruct (negb _ && negb _); cbn [fst].
  - rewrite length_app. simpl. lia.
  - lia.
Qed.

(** The run-time walk pushes at most one file per node of the tree. *)
Lemma collectDepsLoop_bound deps :
  forall st, List.length (fst (collectDepsLoop deps st)) <= List.length (fst st) + forestCount deps.
Proof.
  induction deps as [|dep child rest IHc IHr] using forest_ind; intros st.
  - cbn. lia.
  - rewrite collectDepsLoop_cons.
    eapply Nat.le_trans; [apply IHr|].
    pose proof (IHc (pushDep dep child st)) as Hc.
    pose proof (pushDep_length dep child st) as Hp.
    cbn [forestCount fold_right snd]. fold (forestCount rest).
    rewrite nodeCount_forest. lia.
Qed.

(** ** Termination of the graph construction *)

Lemma filter_length_le {A : Type} (p q : A -> bool) l :
  (forall y, q y = true -> p y = true) ->
  List.length (filter q l) <= List.length (filter p l).
Proof.
  intros Himp. induction l as [|a l IH]; simpl; auto.
  destruct (q a) eqn:Eq.
  - rewrite (Himp a Eq). simpl. lia.
  - destruct (p a); simpl; lia.
Qed.

Lemma filter_length_lt {A : Type} (p q : A -> bool) l x :
  In x l -> p x = true -> q x = false ->
  (forall y, q y = true -> p y = true) ->
  List.length (filter q l) < List.length (filter p l).
Proof.
  intros Hin Hp Hq Himp. induction l as [|a l IH]; simpl; [contradiction|].
  destruct Hin as [->|Hin].
  - rewrite Hp, Hq. simpl. pose proof (filter_length_le p q l Himp). lia.
  - specialize (IH Hin). destruct (q a) eqn:Eq.
    + rewrite (Himp a Eq). simpl. lia.
    + destruct (p a); simpl; lia.
Qed.

Lemma unvisited_add allFiles file visited :
  In file allFiles -> set_has file visited = false ->
  unvisited allFiles (set_add file visited) < unvisited allFiles visited.
Proof.
  intros Hin Hnot. unfold unvisited.
  apply filter_length_lt with (x := file); auto.
  - now rewrite Hnot.
  - apply negb_false_iff, set_has_In, set_add_In. now left.
  - intros y Hy. apply negb_true_iff in Hy. apply negb_true_iff.
    apply set_has_false. apply set_has_false in Hy.
    intros Hc. apply Hy, set_add_In. now right.
Qed.

Lemma unvisited_nil allFiles : unvisited allFiles [] = List.length allFiles.
Proof.
  unfold unvisited. induction allFiles; simpl; auto.
Qed.

Section AnalyzerFacts.
Context `{BuildHost}.

Lemma buildFileContents_keys allFiles file :
  In file (dict_keys (buildFileContents allFiles)) -> In file allFiles.
Proof.
  unfold buildFileContents.
  assert (G : forall l acc,
             In file (dict_keys (fold_left (fun fc f =>
                                              match readFileSync f with
                                              | Some content => dict_set f content fc
                                              | None => fc
                                              end) l acc)) ->
             In file (dict_keys acc) \/ In file l).
  { induction l as [|f l IH]; intros acc Hin; simpl in *; auto.
    destruct (IH _ Hin) as [Hacc|Hl]; auto.
    destruct (readFileSync f); auto.
    apply dict_keys_set in Hacc. intuition. }
  intros Hin. destruct (G _ _ Hin) as [[]|Hl]. exact Hl.
Qed.

Section ProcessFileFacts.
Variable allFiles : list string.
Variable fileBaseIndex : dict string.
Variable fileContents : dict string.
Variable fileDeclarations : dict StrSet.
Variable globalFunctionIndex : dict string.

Hypothesis contents_of_files :
  forall file, In file (dict_keys fileContents) -> In file allFiles.

Local Abbreviation processFile' :=
  (processFile allFiles fileBaseIndex fileContents fileDeclarations globalFunctionIndex).

Lemma addDependency_fuel recur file visited dependentFile dependencies :
  (forall d, recur d visited <> OutOfFuel) ->
  addDependency recur file visited dependentFile dependencies <> OutOfFuel.
Proof.
  intros Hrec. unfold addDependency.
  destruct (negb _ && negb _); [|discriminate].
  specialize (Hrec dependentFile).
  destruct (recur dependentFile visited) as [| |[child|]]; cbn; congruence.
Qed.

Lemma routerCallStep_fuel recur file visited l :
  (forall d, recur d visited <> OutOfFuel) ->
  forall acc, acc <> OutOfFuel ->
              fold_left (routerCallStep fileBaseIndex recur file visited) l acc <> OutOfFuel.
Proof.
  intros Hrec. induction l as [|fileBase l IH]; intros acc Hacc; simpl; auto.
  apply IH. unfold routerCallStep.
  destruct acc as [| |deps]; cbn; try congruence.
  destruct (dict_get fileBase fileBaseIndex); [|discriminate].
  now apply addDependency_fuel.
Qed.

Lemma functionCallStep_fuel recur file visited l :
  (forall d, recur d visited <> OutOfFuel) ->
  forall acc, acc <> OutOfFuel ->
              fold_left (functionCallStep allFiles fileDeclarations globalFunctionIndex
                                          recur file visited) l acc <> OutOfFuel.
Proof.
  intros Hrec. induction l as [|fnName l IH]; intros acc Hacc; simpl; auto.
  apply IH. unfold functionCallStep.
  destruct acc as [| |deps]; cbn; try congruence.
  destruct (dict_get file fileDeclarations) as [declared|]; [|discriminate].
  destruct (set_has fnName declared); [discriminate|].
  destruct (dict_get fnName globalFunctionIndex) as [dependentFile|]; [|discriminate].
  destruct (existsb _ allFiles); [|discriminate].
  now apply addDependency_fuel.
Qed.

(** Every level of the recursion adds to [visited] a file of the project
    that was not in it, so the depth is bounded by the files not visited. *)
Lemma processFile_fuel fuel :
  forall file visited,
    unvisited allFiles visited < fuel ->
    processFile' fuel file visited <> OutOfFuel.
Proof.
  induction fuel as [|fuel IH]; intros file visited Hm; [lia|].
  cbn [processFile].
  destruct (set_has file visited) eqn:Ev; [discriminate|].
  destruct (dict_get file fileContents) as [content|] eqn:Ec; [|discriminate].
  assert (Hin : In file allFiles).
  { apply contents_of_files.
    destruct (in_dec string_dec file (dict_keys fileContents)) as [Hi|Hn]; auto.
    apply dict_get_None in Hn. congruence. }
  pose proof (unvisited_add allFiles file visited Hin Ev) as Hlt.
  assert (Hrec : forall d, processFile' fuel d (set_add file visited) <> OutOfFuel).
  { intros d. apply IH. lia. }
  pose proof (routerCallStep_fuel (processFile' fuel) file (set_add file visited)
                                  (routerCallRegexMatches content) Hrec (Returned [])
                                  ltac:(discriminate)) as H1.
  match type of H1 with
  | ?t <> _ => destruct t as [| |deps1]
  end; cbn [obind]; try congruence.
  pose proof (functionCallStep_fuel (processFile' fuel) file (set_add file visited)
                                    (getCalledFunctions content) Hrec (Returned deps1)
                                    ltac:(discriminate)) as H2.
  match type of H2 with
  | ?t <> _ => destruct t as [| |deps2]
  end; cbn [obind]; congruence.
Qed.
End ProcessFileFacts.

Lemma analyzeDependencies_fuel fuel allFiles :
  List.length allFiles < fuel ->
  analyzeDependencies fuel allFiles <> OutOfFuel.
Proof.
  intros Hfuel. unfold analyzeDependencies.
  destruct (buildGlobalFunctionIndex allFiles (buildFileDeclarations allFiles))
    as [gfi|e]; [|discriminate].
  assert (G : forall l acc, acc <> OutOfFuel ->
             fold_left (fun acc file =>
                          obind acc (fun dependencyTree =>
                            obind (processFile allFiles (buildFileBaseIndex allFiles)
                                               (buildFileContents allFiles)
                                               (buildFileDeclarations allFiles) gfi fuel file [])
                              (fun node =>
                                 match node with
                                 | Some n => Returned (dict_set file n dependencyTree)
                                 | None => Returned dependencyTree
                                 end))) l acc <> OutOfFuel).
  { induction l as [|file l IH]; intros acc Hacc; simpl; auto.
    apply IH. destruct acc as [| |tree]; cbn; try congruence.
    pose proof (processFile_fuel allFiles (buildFileBaseIndex allFiles)
                                 (buildFileContents allFiles)
                                 (buildFileDeclarations allFiles) gfi
                                 (buildFileContents_keys allFiles) fuel file []) as Hp.
    rewrite unvisited_nil in Hp. specialize (Hp Hfuel).
    destruct (processFile _ _ _ _ _ fuel file []) as [| |[n|]]; cbn; congruence. }
  apply G. discriminate.
Qed.

(** C9. Cycle termination: on every project, cyclic or not, the graph
    construction returns once its fuel exceeds the number of files, since
    [processFile] never recurses deeper than the files its branch has not
    visited; and the run-time walk of a tree pushes at most one file per
    node of the tree. *)
Theorem cycle_termination (allFiles : list string) (fuel : nat) :
  List.length allFiles < fuel ->
  analyzeDependencies fuel allFiles <> OutOfFuel
  /\ (forall globalFunctionIndex file visited,
         processFile allFiles (buildFileBaseIndex allFiles) (buildFileContents allFiles)
                     (buildFileDeclarations allFiles) globalFunctionIndex fuel file visited
         <> OutOfFuel)
  /\ (forall node, List.length (fst (collectDeps node ([], []))) <= nodeCount node).
Proof.
  intros Hfuel. split; [|split].
  - now apply analyzeDependencies_fuel.
  - intros gfi file visited. apply processFile_fuel.
    + apply buildFileContents_keys.
    + unfold unvisited.
      eapply Nat.le_lt_trans; [apply filter_length_le with (p := fun _ => true); auto|].
      rewrite forallb_filter_id; auto.
      apply forallb_forall. auto.
  - intros node. rewrite collectDeps_loop, nodeCount_forest.
    apply (collectDepsLoop_bound (dependencies node) ([], [])).
Qed.
End AnalyzerFacts.

(** ** The trees the graph construction builds *)

Lemma obind_returned {A : Type} (m : Outcome A) : obind m Returned = m.
Proof. now destruct m. Qed.

Lemma graphForest_forall calls rd visited deps :
  graphForest calls rd visited deps
  <-> forall c child, In (c, child) deps -> graphNode calls rd visited c child.
Proof.
  induction deps as [|[d ch] deps IH]; cbn [graphForest fold_right fst snd].
  - split; [intros _ c child []|auto].
  - fold (graphForest calls rd visited deps). rewrite IH. split.
    + intros [H1 H2] c child [[= <- <-]|Hin]; auto.
    + intros Hall. split; [apply Hall; now left|intros; apply Hall; now right].
Qed.

Lemma graphNode_unfold calls rd visited file flag deps :
  graphNode calls rd visited file (mkNode flag deps)
  <-> flag = rd file
      /\ (forall c, In c (dict_keys deps) ->
                    In c (calls file) /\ ~ In c (set_add file visited))
      /\ (forall c, In c (calls file) ->
                    In c (dict_keys deps) \/ In c (set_add file visited))
      /\ graphForest calls rd (set_add file visited) deps.
Proof. reflexivity. Qed.

Section GraphFacts.
Context `{BuildHost}.
Variable allFiles : list string.
Variable fileBaseIndex : dict string.
Variable fileContents : dict string.
Variable fileDeclarations : dict StrSet.
Variable globalFunctionIndex : dict string.

Local Abbreviation processFile' :=
  (processFile allFiles fileBaseIndex fileContents fileDeclarations globalFunctionIndex).
Local Abbreviation calls :=
  (callsOf allFiles fileBaseIndex fileContents fileDeclarations globalFunctionIndex).
Local Abbreviation rd := (rdOf fileContents).

Lemma addAll_stuck recur file visited targets (acc : Outcome (dict DependencyNode)) :
  (forall deps, acc <> Returned deps) -> addAll recur file visited targets acc = acc.
Proof.
  intros Hacc. induction targets as [|d targets IH]; cbn; auto.
  unfold addAll in IH. destruct acc as [| |deps]; cbn; auto.
  now specialize (Hacc deps).
Qed.

Lemma addAll_app recur file visited l1 l2 acc :
  addAll recur file visited (l1 ++ l2) acc
  = addAll recur file visited l2 (addAll recur file visited l1 acc).
Proof. unfold addAll. apply fold_left_app. Qed.

Lemma addDependency_spec recur file visited d deps deps' :
  addDependency recur file visited d deps = Returned deps' ->
  (deps' = deps /\ (d = file \/ In d visited \/ recur d visited = Returned None))
  \/ (d <> file /\ ~ In d visited
      /\ exists child, recur d visited = Returned (Some child)
                       /\ deps' = dict_set d child deps).
Proof.
  unfold addDependency.
  destruct (String.eqb d file) eqn:Ef.
  { apply String.eqb_eq in Ef. cbn. intros [= <-]. left. auto. }
  destruct (set_has d visited) eqn:Ev.
  { apply set_has_In in Ev. cbn. intros [= <-]. left. auto. }
  apply String.eqb_neq in Ef. apply set_has_false in Ev. cbn [negb andb].
  destruct (recur d visited) as [| |[child|]]; cbn; try discriminate; intros [= <-].
  - right. eauto.
  - left. auto.
Qed.

Lemma addAll_spec recur file visited targets :
  forall deps deps',
    addAll recur file visited targets (Returned deps) = Returned deps' ->
    (forall c, In c (dict_keys deps')
               <-> In c (dict_keys deps)
                   \/ (In c targets /\ c <> file /\ ~ In c visited
                       /\ exists child, recur c visited = Returned (Some child)))
    /\ (forall c child, In (c, child) deps' ->
                        In (c, child) deps \/ recur c visited = Returned (Some child))
    /\ (forall c, In c targets -> c <> file -> ~ In c visited ->
                  exists r, recur c visited = Returned r).
Proof.
  induction targets as [|d targets IH]; intros deps deps' Hfold.
  - cbn in Hfold. injection Hfold as <-. split; [|split].
    + intros c. split; [auto|]. intros [Hc|[[] _]]. exact Hc.
    + auto.
    + intros c [].
  - change (addAll recur file visited (d :: targets) (Returned deps))
      with (addAll recur file visited targets (addDependency recur file visited d deps))
      in Hfold.
    destruct (addDependency recur file visited d deps) as [| |deps1] eqn:Ed;
      try (rewrite addAll_stuck in Hfold by discriminate; discriminate).
    destruct (IH deps1 deps' Hfold) as [Hk [Hv Hr]].
    destruct (addDependency_spec _ _ _ _ _ _ Ed)
      as [[-> Hskip]|[Hne [Hnv [child [Erec ->]]]]].
    + split; [|split].
      * intros c. rewrite Hk. split.
        -- intros [Hc|[Hin Hrest]]; [now left|right]. split; [now right|exact Hrest].
        -- intros [Hc|[[->|Hin] [H1 [H2 [ch H3]]]]]; [now left| |right; eauto].
           destruct Hskip as [Hs|[Hs|Hs]]; [contradiction|contradiction|congruence].
      * exact Hv.
      * intros c [->|Hin] Hc1 Hc2; [|now apply Hr].
        destruct Hskip as [Hs|[Hs|Hs]]; [contradiction|contradiction|eauto].
    + split; [|split].
      * intros c. rewrite Hk, dict_keys_set. split.
        -- intros [[->|Hc]|[Hin Hrest]].
           ++ right. split; [now left|]. eauto.
           ++ now left.
           ++ right. split; [now right|exact Hrest].
        -- intros [Hc|[[->|Hin] Hrest]].
           ++ left. now right.
           ++ left. now left.
           ++ right. split; [exact Hin|exact Hrest].
      * intros c ch Hin. destruct (Hv c ch Hin) as [Hd|Hrec]; [|now right].
        clear Hin. revert c ch Hd.
        apply dict_set_values; auto.
      * intros c [->|Hin] Hc1 Hc2; [eauto|now apply Hr].
Qed.

Lemma routerCallStep_addAll recur file visited l :
  forall acc,
    fold_left (routerCallStep fileBaseIndex recur file visited) l acc
    = addAll recur file visited
             (flat_map (fun fileBase =>
                          match dict_get fileBase fileBaseIndex with
                          | Some dependentFile => [dependentFile]
                          | None => []
                          end) l) acc.
Proof.
  induction l as [|fileBase l IH]; intros acc; [reflexivity|].
  cbn [fold_left flat_map]. rewrite addAll_app, IH. f_equal.
  unfold routerCallStep. destruct (dict_get fileBase fileBaseIndex); cbn.
  - reflexivity.
  - apply obind_returned.
Qed.

Lemma functionCallStep_addAll recur file visited declared l :
  dict_get file fileDeclarations = Some declared ->
  forall acc,
    fold_left (functionCallStep allFiles fileDeclarations globalFunctionIndex
                                recur file visited) l acc
    = addAll recur file visited
             (flat_map (fun fnName =>
                          if set_has fnName declared then []
                          else match dict_get fnName globalFunctionIndex with
                               | Some dependentFile =>
                                   if existsb (String.eqb dependentFile) allFiles
                                   then [dependentFile] else []
                               | None => []
                               end) l) acc.
Proof.
  intros Ed. induction l as [|fnName l IH]; intros acc; [reflexivity|].
  cbn [fold_left flat_map]. rewrite addAll_app, IH. f_equal.
  unfold functionCallStep. rewrite Ed.
  destruct (set_has fnName declared); [apply obind_returned|].
  destruct (dict_get fnName globalFunctionIndex) as [d|]; [|apply obind_returned].
  destruct (existsb _ allFiles); [reflexivity|apply obind_returned].
Qed.

Lemma functionCallStep_undeclared recur file visited l :
  dict_get file fileDeclarations = None ->
  forall acc deps,
    fold_left (functionCallStep allFiles fileDeclarations globalFunctionIndex
                                recur file visited) l acc = Returned deps ->
    l = [] /\ acc = Returned deps.
Proof.
  intros Ed. destruct l as [|fnName l]; intros acc deps Hfold; [auto|].
  exfalso. cbn [fold_left] in Hfold.
  assert (Hstuck : forall l' (a : Outcome (dict DependencyNode)),
             (forall d, a <> Returned d) ->
             forall d,
               fold_left (functionCallStep allFiles fileDeclarations globalFunctionIndex
                                           recur file visited) l' a <> Returned d).
  { induction l' as [|x l' IH']; intros a Ha d; cbn; [apply Ha|].
    apply IH'. intros d'. unfold functionCallStep. destruct a; cbn; try discriminate.
    now rewrite Ed. }
  eapply Hstuck; [|exact Hfold].
  intros d. unfold functionCallStep. destruct acc; cbn; try discriminate.
  now rewrite Ed.
Qed.

Lemma processFile_Some fuel file visited n :
  processFile' fuel file visited = Returned (Some n) ->
  dict_has file fileContents = true /\ ~ In file visited.
Proof.
  destruct fuel as [|fuel]; [discriminate|]. cbn [processFile].
  destruct (set_has file visited) eqn:Ev; [discriminate|].
  unfold dict_has.
  destruct (dict_get file fileContents); [|discriminate].
  intros _. split; [reflexivity|]. now apply set_has_false.
Qed.

Lemma processFile_None fuel file visited :
  processFile' fuel file visited = Returned None ->
  In file visited \/ dict_get file fileContents = None.
Proof.
  destruct fuel as [|fuel]; [discriminate|]. cbn [processFile].
  destruct (set_has file visited) eqn:Ev; [intros _; left; now apply set_has_In|].
  destruct (dict_get file fileContents) as [content|]; [|auto].
  match goal with
  | |- obind ?a _ = _ -> _ => destruct a as [| |deps1]; cbn [obind]; try discriminate
  end.
  match goal with
  | |- obind ?a _ = _ -> _ => destruct a as [| |deps2]; cbn [obind]; discriminate
  end.
Qed.

(** Whatever [processFile] returns is a node of the call graph. *)
Lemma processFile_graph fuel :
  forall file visited n,
    processFile' fuel file visited = Returned (Some n) ->
    graphNode calls rd visited file n.
Proof.
  induction fuel as [|fuel IH]; intros file visited n Hp; [discriminate|].
  cbn [processFile] in Hp.
  destruct (set_has file visited) eqn:Ev; [discriminate|].
  destruct (dict_get file fileContents) as [content|] eqn:Ec; [|discriminate].
  rewrite routerCallStep_addAll in Hp.
  fold (routerTargets fileBaseIndex content) in Hp.
  destruct (addAll (processFile' fuel) file (set_add file visited)
                   (routerTargets fileBaseIndex content) (Returned []))
    as [| |deps1] eqn:E1; cbn [obind] in Hp; try discriminate.
  match type of Hp with
  | obind ?a _ = _ => destruct a as [| |deps2] eqn:E2; cbn [obind] in Hp; try discriminate
  end.
  injection Hp as <-.
  set (targets2 := match dict_get file fileDeclarations with
                   | Some declared =>
                       functionTargets allFiles globalFunctionIndex declared content
                   | None => []
                   end).
  assert (Hall : addAll (processFile' fuel) file (set_add file visited)
                        (routerTargets fileBaseIndex content ++ targets2) (Returned [])
                 = Returned deps2).
  { rewrite addAll_app, E1. subst targets2.
    destruct (dict_get file fileDeclarations) as [declared|] eqn:Ed.
    - rewrite (functionCallStep_addAll _ _ _ declared) in E2 by assumption. exact E2.
    - destruct (functionCallStep_undeclared _ _ _ _ Ed _ _ E2) as [_ ->]. reflexivity. }
  destruct (addAll_spec _ _ _ _ _ _ Hall) as [Hk [Hv Hr]].
  assert (Hcalls : calls file
                   = filter (fun d => dict_has d fileContents)
                            (routerTargets fileBaseIndex content ++ targets2)).
  { unfold callsOf. now rewrite Ec. }
  apply graphNode_unfold. split; [|split; [|split]].
  - unfold rdOf. now rewrite Ec.
  - intros c Hc. apply Hk in Hc. destruct Hc as [[]|[Hin [Hne [Hnv [child Hrec]]]]].
    split; [|exact Hnv].
    rewrite Hcalls. apply filter_In. split; [exact Hin|].
    now apply (processFile_Some _ _ _ _ Hrec).
  - intros c Hc. rewrite Hcalls in Hc. apply filter_In in Hc. destruct Hc as [Hin Hhas].
    destruct (in_dec string_dec c (set_add file visited)) as [Hv'|Hnv]; [now right|left].
    assert (Hne : c <> file).
    { intros ->. apply Hnv, set_add_In. now left. }
    destruct (Hr c Hin Hne Hnv) as [[child|] Hrec].
    + apply Hk. right. eauto 6.
    + apply processFile_None in Hrec. destruct Hrec as [Hx|Hx]; [contradiction|].
      unfold dict_has in Hhas. now rewrite Hx in Hhas.
  - apply graphForest_forall. intros c child Hin.
    destruct (Hv c child Hin) as [[]|Hrec]. now apply IH.
Qed.
End GraphFacts.

(** ** The run-time branch *)

Lemma nodesBelow_forest n : nodesBelow n = forestNodes (dependencies n).
Proof. destruct n. reflexivity. Qed.

Lemma forestNodes_cons dep child rest :
  forestNodes ((dep, child) :: rest)
  = (dep, routerDependant child) :: forestNodes (dependencies child) ++ forestNodes rest.
Proof.
  unfold forestNodes at 1. cbn [flat_map fst snd]. rewrite nodesBelow_forest. reflexivity.
Qed.

Lemma forestPaths_cons dep child rest :
  forestPaths ((dep, child) :: rest)
  = dep :: forestPaths (dependencies child) ++ forestPaths rest.
Proof.
  unfold forestPaths. rewrite forestNodes_cons. cbn [map fst]. now rewrite map_app.
Qed.

Lemma forestPaths_keys deps c : In c (dict_keys deps) -> In c (forestPaths deps).
Proof.
  induction deps as [|[d ch] deps IH]; [intros []|].
  rewrite forestPaths_cons. cbn [dict_keys map fst].
  intros [->|Hin]; [now left|]. right. apply in_or_app. right. now apply IH.
Qed.

Lemma graphForest_cons calls rd visited dep child rest :
  graphForest calls rd visited ((dep, child) :: rest)
  <-> graphNode calls rd visited dep child /\ graphForest calls rd visited rest.
Proof. reflexivity. Qed.

Lemma graphNode_children calls rd visited file n :
  graphNode calls rd visited file n ->
  routerDependant n = rd file
  /\ (forall c, In c (dict_keys (dependencies n)) ->
                In c (calls file) /\ ~ In c (set_add file visited))
  /\ (forall c, In c (calls file) ->
                In c (dict_keys (dependencies n)) \/ In c (set_add file visited))
  /\ graphForest calls rd (set_add file visited) (dependencies n).
Proof. destruct n as [flag deps]. intros Hg. apply graphNode_unfold in Hg. exact Hg. Qed.

(** In a tree of the call graph every occurrence of a file has its flag. *)
Lemma forestNodes_flags calls rd deps :
  forall visited, graphForest calls rd visited deps ->
                  forall x flag, In (x, flag) (forestNodes deps) -> flag = rd x.
Proof.
  induction deps as [|dep child rest IHc IHr] using forest_ind; intros visited Hg x flag Hin.
  - destruct Hin.
  - apply graphForest_cons in Hg. destruct Hg as [Hn Hrest].
    destruct (graphNode_children _ _ _ _ _ Hn) as [Hflag [_ [_ Hsub]]].
    rewrite forestNodes_cons in Hin. destruct Hin as [[= <- <-]|Hin]; [exact Hflag|].
    apply in_app_or in Hin. destruct Hin as [Hin|Hin]; eauto.
Qed.

Lemma pushDep_spec dep child (B : list string) (V : StrSet) :
  (forall x, In x V <-> In x B) -> NoDup B ->
  let st := pushDep dep child (B, V) in
  (forall x, In x (snd st) <-> In x (fst st))
  /\ NoDup (fst st)
  /\ (forall x, In x (fst st) <-> In x B \/ (x = dep /\ routerDependant child = false)).
Proof.
  intros Hinv Hnd. unfold pushDep. cbn [fst snd].
  destruct (routerDependant child) eqn:Er; cbn [negb andb fst snd].
  { split; [exact Hinv|]. split; [exact Hnd|].
    intros x. split; [auto|]. intros [Hx|[_ Hx]]; [exact Hx|discriminate]. }
  destruct (set_has dep V) eqn:Ev; cbn [negb fst snd].
  { apply set_has_In in Ev. split; [exact Hinv|]. split; [exact Hnd|].
    intros x. split; [auto|]. intros [Hx|[-> _]]; [exact Hx|now apply Hinv]. }
  apply set_has_false in Ev. split; [|split].
  - intros x. rewrite set_add_In, in_app_iff, Hinv. cbn. intuition.
  - apply NoDup_app; auto.
    + constructor; [intros []|constructor].
    + intros x Hx [<-|[]]. apply Ev, Hinv, Hx.
  - intros x. rewrite in_app_iff. cbn. intuition.
Qed.

(** The branch list holds each file once, and holds exactly the files that
    occur in the tree with the flag [false]. *)
Lemma collectDepsLoop_spec deps :
  forall (B : list string) (V : StrSet),
    (forall x, In x V <-> In x B) -> NoDup B ->
    let st := collectDepsLoop deps (B, V) in
    (forall x, In x (snd st) <-> In x (fst st))
    /\ NoDup (fst st)
    /\ (forall x, In x (fst st) <-> In x B \/ In (x, false) (forestNodes deps)).
Proof.
  induction deps as [|dep child rest IHc IHr] using forest_ind; intros B V Hinv Hnd.
  - cbn. split; [exact Hinv|]. split; [exact Hnd|].
    intros x. split; [auto|]. intros [Hx|[]]. exact Hx.
  - cbn zeta. rewrite collectDepsLoop_cons.
    destruct (pushDep_spec dep child B V Hinv Hnd) as [H1 [H2 H3]].
    destruct (pushDep dep child (B, V)) as [B1 V1]. cbn [fst snd] in *.
    destruct (IHc B1 V1 H1 H2) as [H4 [H5 H6]].
    destruct (collectDepsLoop (dependencies child) (B1, V1)) as [B2 V2]. cbn [fst snd] in *.
    destruct (IHr B2 V2 H4 H5) as [H7 [H8 H9]].
    split; [exact H7|]. split; [exact H8|].
    intros x. rewrite H9, H6, H3, forestNodes_cons. cbn [In]. rewrite in_app_iff.
    split.
    + intros [[[Hx|[-> Hf]]|Hx]|Hx]; auto.
      right. left. now rewrite Hf.
    + intros [Hx|[[= <- Hf]|[Hx|Hx]]]; auto.
Qed.

(** ** The build-side walk visits every file of the tree *)

Section Closure.
Variable calls : string -> list string.
Variable rd : string -> bool.
Variable root : string.
Variable F : StrSet.

(** Whatever a visited file refers to is visited, or is the root. *)
Hypothesis closed : forall y, In y F -> forall c, In c (calls y) -> In c F \/ c = root.

Lemma forestPaths_closed deps :
  forall visited,
    graphForest calls rd visited deps ->
    In root visited ->
    (forall c, In c (dict_keys deps) -> In c F) ->
    forall x, In x (forestPaths deps) -> In x F.
Proof.
  induction deps as [|dep child rest IHc IHr] using forest_ind;
    intros visited Hg Hroot Hkeys x Hin.
  - destruct Hin.
  - apply graphForest_cons in Hg. destruct Hg as [Hn Hrest].
    destruct (graphNode_children _ _ _ _ _ Hn) as [_ [Hsub1 [_ Hsub]]].
    assert (Hdep : In dep F) by (apply Hkeys; now left).
    rewrite forestPaths_cons in Hin. destruct Hin as [<-|Hin]; [exact Hdep|].
    apply in_app_or in Hin. destruct Hin as [Hin|Hin].
    + apply (IHc (set_add dep visited)); auto.
      * apply set_add_In. now right.
      * intros c Hc. destruct (Hsub1 c Hc) as [Hcall Hnv].
        destruct (closed dep Hdep c Hcall) as [Hf| ->]; [exact Hf|].
        exfalso. apply Hnv, set_add_In. now right.
    + apply (IHr visited); auto. intros c Hc. apply Hkeys. now right.
Qed.
End Closure.

(** ** The build-side walk *)

Section CollectFacts.
Context `{BuildHost}.
Variable fileContents : dict string.
Variable calls : string -> list string.
Variable rd : string -> bool.
Variable root : string.

Hypothesis sha_length : forall content, String.length (sha256hex content) = 64.

Local Abbreviation hashed := (fun x => buildHash fileContents x <> None).
Local Abbreviation goodEntry :=
  (fun (x : string) (v : Uint8Array) => v = hashBytes fileContents x /\ hashed x).

Lemma collectHashes_loop n visited :
  collectHashesFromDependencies fileContents n visited
  = collectHashesLoop fileContents (dependencies n) (Ok (([] : dict Uint8Array), visited)).
Proof. destruct n. reflexivity. Qed.

Lemma collectHashesLoop_cons d child rest c V :
  collectHashesLoop fileContents ((d, child) :: rest) (Ok (c, V))
  = if set_has d V then collectHashesLoop fileContents rest (Ok (c, V))
    else collectHashesLoop fileContents rest
           (collected <- collectOwnHash fileContents d child c ;;
            sub <- collectHashesLoop fileContents (dependencies child)
                                     (Ok (([] : dict Uint8Array), set_add d V)) ;;
            Ok (mergeCollected collected (fst sub), snd sub)).
Proof.
  unfold collectHashesLoop at 1. cbn [fold_left].
  unfold collectHashesStep at 2. cbn [bind fst snd].
  destruct (set_has d V); [reflexivity|].
  now rewrite collectHashes_loop.
Qed.

Lemma collectOwnHash_spec d child c :
  collectOwnHash fileContents d child c
  = Ok (match (if routerDependant child then None else buildHash fileContents d) with
        | Some h => dict_set d (hexPairs h) c
        | None => c
        end).
Proof.
  unfold collectOwnHash, buildHash.
  destruct (routerDependant child); cbn [negb]; [reflexivity|].
  destruct (dict_get d fileContents) as [content|]; [|reflexivity].
  destruct (JsString.truthy content); [|reflexivity].
  destruct (hexStringToUint8Array_64 _ (sha_length content)) as [E _].
  rewrite E. reflexivity.
Qed.

Lemma mergeCollected_keys (c sub : dict Uint8Array) x :
  In x (dict_keys (mergeCollected c sub)) <-> In x (dict_keys c) \/ In x (dict_keys sub).
Proof.
  unfold mergeCollected. revert c.
  induction sub as [|[k v] sub IH]; intros c; cbn [fold_left fst snd].
  - cbn. intuition.
  - rewrite IH, dict_keys_set. cbn. intuition.
Qed.

Lemma mergeCollected_values (P : string -> Uint8Array -> Prop) (c sub : dict Uint8Array) :
  (forall x v, In (x, v) c -> P x v) ->
  (forall x v, In (x, v) sub -> P x v) ->
  forall x v, In (x, v) (mergeCollected c sub) -> P x v.
Proof.
  unfold mergeCollected. revert c.
  induction sub as [|[k v0] sub IH]; intros c Hc Hs; cbn [fold_left fst snd]; [exact Hc|].
  apply IH.
  - apply dict_set_values; [apply Hs; now left|exact Hc].
  - intros x v Hin. apply Hs. now right.
Qed.

Lemma mergeCollected_NoDup (c sub : dict Uint8Array) :
  NoDup (dict_keys c) -> NoDup (dict_keys (mergeCollected c sub)).
Proof.
  unfold mergeCollected. revert c.
  induction sub as [|[k v] sub IH]; intros c Hc; cbn [fold_left fst snd]; [exact Hc|].
  apply IH. now apply dict_set_NoDup.
Qed.

(** What the walk of one [dependencies] object does to [collected] and
    [visited]: it does not throw; [visited] grows by files of the tree and
    then holds every key of the object; every file it adds is closed under
    [calls] up to the root; [collected] grows by exactly the added files
    that are not router-dependent and have a digest, each with the bytes of
    its digest. *)
Lemma collectHashesLoop_spec deps :
  forall (E : StrSet) (c : dict Uint8Array) (V : StrSet),
    graphForest calls rd E deps ->
    (forall e, In e E -> In e V \/ e = root) ->
    exists c' V',
      collectHashesLoop fileContents deps (Ok (c, V)) = Ok (c', V')
      /\ (forall y, In y V -> In y V')
      /\ (forall k, In k (dict_keys deps) -> In k V')
      /\ (forall y, In y V' -> In y V \/ In y (forestPaths deps))
      /\ (forall y, In y V' -> ~ In y V -> forall k, In k (calls y) -> In k V' \/ k = root)
      /\ (forall x, In x (dict_keys c')
                    <-> In x (dict_keys c)
                        \/ (In x V' /\ ~ In x V /\ rd x = false /\ hashed x))
      /\ ((forall x v, In (x, v) c -> goodEntry x v) ->
          forall x v, In (x, v) c' -> goodEntry x v)
      /\ (NoDup (dict_keys c) -> NoDup (dict_keys c')).
Proof.
  induction deps as [|d child rest IHc IHr] using forest_ind; intros E c V Hg HE.
  - exists c, V. split; [reflexivity|].
    split; [auto|]. split; [intros k []|]. split; [auto|].
    split; [intros y Hy Hn; contradiction|].
    split; [|split; auto].
    intros x. split; [auto|]. intros [Hx|[Hx [Hn _]]]; [exact Hx|contradiction].
  - apply graphForest_cons in Hg. destruct Hg as [Hn Hrest].
    destruct (graphNode_children _ _ _ _ _ Hn) as [Hflag [K1 [K2 Hsub]]].
    cbn [fst snd] in Hflag, K1, K2, Hsub.
    rewrite collectHashesLoop_cons.
    destruct (set_has d V) eqn:Ev.
    + apply set_has_In in Ev.
      destruct (IHr E c V Hrest HE) as [c' [V' [E1 [M [K [S [C [KC [VL ND]]]]]]]]].
      exists c', V'. split; [exact E1|].
      split; [exact M|].
      split; [intros k [<-|Hk]; auto|].
      split.
      { intros y Hy. destruct (S y Hy) as [Hv|Hp]; [now left|right].
        rewrite forestPaths_cons. right. apply in_or_app. now right. }
      split; [exact C|]. split; [exact KC|]. split; [exact VL|exact ND].
    + apply set_has_false in Ev.
      rewrite collectOwnHash_spec. cbn [bind].
      set (c1 := match (if routerDependant child then None else buildHash fileContents d) with
                 | Some h => dict_set d (hexPairs h) c
                 | None => c
                 end).
      assert (HE1 : forall e, In e (set_add d E) -> In e (set_add d V) \/ e = root).
      { intros e He. apply set_add_In in He. destruct He as [->|He].
        - left. apply set_add_In. now left.
        - destruct (HE e He) as [Hv|Hr]; [left; apply set_add_In; now right|now right]. }
      destruct (IHc (set_add d E) [] (set_add d V) Hsub HE1)
        as [sub [V2 [E2 [M2 [K2' [S2 [C2 [KC2 [VL2 ND2]]]]]]]]].
      rewrite E2. cbn [bind fst snd].
      assert (HE2 : forall e, In e E -> In e V2 \/ e = root).
      { intros e He. destruct (HE e He) as [Hv|Hr]; [left|now right].
        apply M2, set_add_In. now right. }
      destruct (IHr E (mergeCollected c1 sub) V2 Hrest HE2)
        as [c' [V' [E3 [M3 [K3 [S3 [C3 [KC3 [VL3 ND3]]]]]]]]].
      exists c', V'. split; [exact E3|].
      assert (HdV2 : In d V2) by (apply M2, set_add_In; now left).
      assert (Hc1 : forall x, In x (dict_keys c1)
                              <-> In x (dict_keys c) \/ (x = d /\ rd d = false /\ hashed d)).
      { intros x. subst c1. rewrite Hflag.
        destruct (rd d).
        - split; [auto|]. intros [Hx|[_ [Hx _]]]; [exact Hx|discriminate].
        - destruct (buildHash fileContents d) as [h|] eqn:Eh.
          + rewrite dict_keys_set. split.
            * intros [->|Hx]; [right; repeat split; discriminate|now left].
            * intros [Hx|[-> _]]; [now right|now left].
          + split; [auto|]. intros [Hx|[_ [_ Hx]]]; [exact Hx|]. now contradiction Hx. }
      split; [|split; [|split; [|split; [|split; [|split]]]]].
      * intros y Hy. apply M3, M2, set_add_In. now right.
      * intros k [<-|Hk]; [now apply M3|now apply K3].
      * intros y Hy. rewrite forestPaths_cons. cbn [In]. rewrite in_app_iff.
        destruct (S3 y Hy) as [Hy2|Hp]; [|auto].
        destruct (S2 y Hy2) as [Hy1|Hp]; [|auto].
        apply set_add_In in Hy1. destruct Hy1 as [->|Hv]; auto.
      * intros y Hy Hny k Hk.
        destruct (in_dec string_dec y V2) as [Hy2|Hny2]; [|now apply (C3 y Hy Hny2 k)].
        destruct (in_dec string_dec y (set_add d V)) as [Hy1|Hny1].
        -- apply set_add_In in Hy1. destruct Hy1 as [->|Hv]; [|contradiction].
           destruct (K2 k Hk) as [Hkey|Hvis].
           ++ left. now apply M3, K2'.
           ++ apply set_add_In in Hvis. destruct Hvis as [->|He].
              ** left. now apply M3.
              ** destruct (HE k He) as [Hv|Hr]; [left|now right].
                 apply M3, M2, set_add_In. now right.
        -- destruct (C2 y Hy2 Hny1 k Hk) as [Hv|Hr]; [left; now apply M3|now right].
      * intros x. rewrite KC3, mergeCollected_keys, Hc1, KC2. cbn [dict_keys map In].
        split.
        -- intros [[[Hx|[-> [Hr Hh]]]|[[]|[Hx2 [Hn1 [Hr Hh]]]]]|[Hx3 [Hn2 [Hr Hh]]]].
           ++ now left.
           ++ right. repeat split; auto.
           ++ right. repeat split; auto.
              intros Hv. apply Hn1, set_add_In. now right.
           ++ right. repeat split; auto.
              intros Hv. apply Hn2, M2, set_add_In. now right.
        -- intros [Hx|[Hx3 [Hnv [Hr Hh]]]]; [now left; left; left|].
           destruct (in_dec string_dec x V2) as [Hx2|Hn2]; [|right; auto].
           left. destruct (in_dec string_dec x (set_add d V)) as [Hx1|Hn1].
           ++ apply set_add_In in Hx1. destruct Hx1 as [->|Hv]; [|contradiction].
              left. right. auto.
           ++ right. right. auto.
      * intros Hgood. apply VL3.
        apply mergeCollected_values.
        -- subst c1. destruct (routerDependant child); [exact Hgood|].
           destruct (buildHash fileContents d) as [h|] eqn:Eh; [|exact Hgood].
           apply dict_set_values; [|exact Hgood].
           unfold hashBytes. rewrite Eh. split; [reflexivity|discriminate].
        -- apply VL2. intros x v [].
      * intros Hnd. apply ND3, mergeCollected_NoDup.
        subst c1. destruct (routerDependant child); [exact Hnd|].
        destruct (buildHash fileContents d); [now apply dict_set_NoDup|exact Hnd].
Qed.
End CollectFacts.

(** ** Bytes stay bytes *)

Lemma lxor_byte a b : isByte a -> isByte b -> isByte (Z.lxor a b).
Proof.
  unfold isByte. intros [Ha1 Ha2] [Hb1 Hb2]. split.
  - apply Z.lxor_nonneg. lia.
  - destruct (Z.eq_dec (Z.lxor a b) 0) as [->|Hne]; [lia|].
    assert (Hpos : (0 < Z.lxor a b)%Z).
    { pose proof (proj2 (Z.lxor_nonneg a b) ltac:(lia)). lia. }
    apply (Z.log2_lt_pow2 _ 8 Hpos).
    eapply Z.le_lt_trans; [apply Z.log2_lxor; lia|].
    assert (La : (Z.log2 a < 8)%Z).
    { destruct (Z.eq_dec a 0) as [->|]; [reflexivity|]. apply Z.log2_lt_pow2; lia. }
    assert (Lb : (Z.log2 b < 8)%Z).
    { destruct (Z.eq_dec b 0) as [->|]; [reflexivity|]. apply Z.log2_lt_pow2; lia. }
    lia.
Qed.

Lemma xorBytes_bytes a b :
  Forall isByte a -> Forall isByte b -> Forall isByte (xorBytes a b).
Proof.
  intros Ha. revert b. induction Ha as [|x a Hx Ha IH]; intros b Hb; [constructor|].
  destruct Hb as [|y b Hy Hb]; cbn; constructor; auto using lxor_byte.
Qed.

Lemma hexPairs_bytes s : Forall isByte (hexPairs s).
Proof.
  revert s. fix IH 1. intros [|a [|b rest]]; try constructor.
  - unfold Hex.toUint8, isByte.
    destruct (Hex.parseInt16 _); [apply Z.mod_pos_bound|]; lia.
  - apply IH.
Qed.

Lemma fold_xorBytes_bytes hashes acc :
  Forall isByte acc -> Forall (Forall isByte) hashes ->
  Forall isByte (fold_left xorBytes hashes acc).
Proof.
  intros Hacc Hall. revert acc Hacc.
  induction Hall as [|h hashes Hh Hall IH]; intros acc Hacc; cbn; auto.
  apply IH. now apply xorBytes_bytes.
Qed.

Lemma newUint8Array_bytes n : Forall isByte (newUint8Array n).
Proof.
  unfold newUint8Array. induction n; cbn; constructor; auto. unfold isByte. lia.
Qed.

(** ** Both sides fold the same digests *)

Lemma foldExc_map_snd (c : dict Uint8Array) acc :
  foldExc (fun xorResult kv => xorArrays xorResult (snd kv)) c acc
  = foldExc xorArrays (map snd c) acc.
Proof.
  revert acc. induction c as [|kv c IH]; intros acc; cbn; auto.
  destruct (xorArrays acc (snd kv)); cbn; auto.
Qed.

Section FoldFacts.
Context `{BuildHost}.
Variable fileContents : dict string.

Hypothesis sha_length : forall content, String.length (sha256hex content) = 64.

Lemma buildHash_length file h :
  buildHash fileContents file = Some h -> String.length h = 64.
Proof.
  unfold buildHash. destruct (dict_get file fileContents) as [content|]; [|discriminate].
  destruct (JsString.truthy content); [|discriminate].
  intros [= <-]. apply sha_length.
Qed.

Lemma hashBytes_length file :
  buildHash fileContents file <> None -> List.length (hashBytes fileContents file) = 32.
Proof.
  unfold hashBytes. destruct (buildHash fileContents file) as [h|] eqn:E; [|congruence].
  intros _. apply hexStringToUint8Array_64. eapply buildHash_length; eauto.
Qed.

Lemma hashBytes_bytes file : Forall isByte (hashBytes fileContents file).
Proof.
  unfold hashBytes. destruct (buildHash fileContents file); [apply hexPairs_bytes|constructor].
Qed.

Lemma collected_values (c : dict Uint8Array) :
  (forall x v, In (x, v) c ->
               v = hashBytes fileContents x /\ buildHash fileContents x <> None) ->
  map snd c = map (hashBytes fileContents) (dict_keys c).
Proof.
  induction c as [|[x v] c IH]; intros Hgood; cbn; auto.
  f_equal.
  - apply (Hgood x v). now left.
  - apply IH. intros x' v' Hin. apply Hgood. now right.
Qed.

Lemma foldLiveHash_liveHash live acc file :
  foldLiveHash live acc file
  = match liveHash live (routerFileName file) with
    | Some h => hashBuffer <- hexStringToUint8Array h ;; xorBuffers acc hashBuffer
    | None => Ok acc
    end.
Proof.
  unfold foldLiveHash, liveHash.
  destruct (dict_get (routerFileName file) live) as [h|]; [|reflexivity].
  destruct (JsString.truthy h); reflexivity.
Qed.

(** With a live table that agrees with the build, the run-time loop is the
    fold of the build's digests of the branch files that have one. *)
Lemma foldLive_as_build live branch :
  (forall file, In file branch ->
                liveHash live (routerFileName file) = buildHash fileContents file) ->
  forall acc,
    foldExc (foldLiveHash live) branch acc
    = foldExc xorBuffers
              (map (hashBytes fileContents)
                   (filter (fun x => match buildHash fileContents x with
                                     | Some _ => true
                                     | None => false
                                     end) branch)) acc.
Proof.
  induction branch as [|file branch IH]; intros Hlive acc; [reflexivity|].
  cbn [foldExc filter]. rewrite foldLiveHash_liveHash, Hlive by (now left).
  assert (IH' := IH (fun f Hf => Hlive f (or_intror Hf))).
  destruct (buildHash fileContents file) as [h|] eqn:Eh.
  - cbn [map foldExc]. unfold hashBytes at 1. rewrite Eh.
    destruct (hexStringToUint8Array_64 h (buildHash_length _ _ Eh)) as [E _].
    rewrite E. cbn [bind].
    destruct (xorBuffers acc (hexPairs h)); cbn [bind]; auto.
  - cbn [bind]. apply IH'.
Qed.
End FoldFacts.

Section AnalysisFacts.
Context `{BuildHost}.

(** Every root of the tree is what [processFile] returned for it. *)
Lemma analyzeDependencies_root fuel allFiles tree file n :
  analyzeDependencies fuel allFiles = Returned tree ->
  In (file, n) tree ->
  exists globalFunctionIndex,
    processFile allFiles (buildFileBaseIndex allFiles) (buildFileContents allFiles)
                (buildFileDeclarations allFiles) globalFunctionIndex fuel file []
    = Returned (Some n).
Proof.
  unfold analyzeDependencies.
  destruct (buildGlobalFunctionIndex allFiles (buildFileDeclarations allFiles))
    as [gfi|e]; [|discriminate].
  intros Hfold Hin. exists gfi.
  set (step := fun (acc : Outcome DependencyTree) (f : string) =>
                 obind acc (fun dependencyTree =>
                   obind (processFile allFiles (buildFileBaseIndex allFiles)
                                      (buildFileContents allFiles)
                                      (buildFileDeclarations allFiles) gfi fuel f [])
                     (fun node =>
                        match node with
                        | Some n => Returned (dict_set f n dependencyTree)
                        | None => Returned dependencyTree
                        end))) in *.
  set (P := fun (f : string) (n : DependencyNode) =>
              processFile allFiles (buildFileBaseIndex allFiles) (buildFileContents allFiles)
                          (buildFileDeclarations allFiles) gfi fuel f [] = Returned (Some n)).
  assert (Hstuck : forall l (a : Outcome DependencyTree),
             (forall t, a <> Returned t) -> forall t, fold_left step l a <> Returned t).
  { induction l as [|f l IH]; intros a Ha t; cbn; [apply Ha|].
    apply IH. intros t'. subst step. cbn. destruct a; cbn; try discriminate.
    now specialize (Ha a). }
  assert (G : forall l acc t,
             fold_left step l (Returned acc) = Returned t ->
             (forall f n, In (f, n) acc -> P f n) ->
             forall f n, In (f, n) t -> P f n).
  { induction l as [|f l IH]; intros acc t Hf Hacc.
    - cbn in Hf. injection Hf as <-. exact Hacc.
    - change (fold_left step (f :: l) (Returned acc))
        with (fold_left step l (step (Returned acc) f)) in Hf.
      destruct (step (Returned acc) f) as [| |acc1] eqn:Es.
      { exfalso. apply (Hstuck l OutOfFuel ltac:(discriminate) t Hf). }
      { exfalso. apply (Hstuck l (Raised e) ltac:(discriminate) t Hf). }
      apply (IH acc1 t Hf).
      subst step. cbn in Es.
      destruct (processFile _ _ _ _ _ fuel f []) as [| |[n0|]] eqn:Ep;
        cbn in Es; try discriminate; injection Es as <-; [|exact Hacc].
      apply dict_set_values; [exact Ep|exact Hacc]. }
  apply (G allFiles [] tree Hfold (fun f n (Hf : In (f, n) []) => match Hf with end)).
  exact Hin.
Qed.
End AnalysisFacts.

(** ** Key reconstruction *)

Section KeyReconstruction.
Context `{BuildHost}.

Local Abbreviation logs :=
  [ConsoleLog "xorOfHashes (hex):"; ConsoleLog "Final key (hex):"].

(** C1, as the code has it.  Take a tree the graph construction has built,
    a router-dependent root [routerFile] of it that the run time finds for
    the callee, and the published hex of a 32-byte mask.  If the root has at
    least one descendant that is not router-dependent, and the live table
    holds for each branch file exactly the digest the build folded for it
    (none for a file the build skipped), then the build derives a key, the
    run time reconstructs a key, and the two are the same 32 bytes. *)
Theorem key_reconstruction_equivalence
        (allFiles : list string) (fuel : nat) (tree : DependencyTree)
        (routerFile : string) (routerNode : DependencyNode) (maskBytes : Uint8Array)
        (ivs : dict (dict string)) (live : dict string) (callee : string)
        (mappingForFile : dict string) :
  (forall content, String.length (sha256hex content) = 64) ->
  analyzeDependencies fuel allFiles = Returned tree ->
  dict_get routerFile tree = Some routerNode ->
  routerDependant routerNode = true ->
  List.length maskBytes = 32 ->
  Forall isByte maskBytes ->
  findRoot tree (normalizeCallee callee) = Some routerFile ->
  dict_get (normalizeCallee callee) ivs = Some mappingForFile ->
  dict_get "mask" mappingForFile = Some (uint8ArrayToHexString maskBytes) ->
  fst (collectDeps routerNode ([], [])) <> [] ->
  (forall file, In file (fst (collectDeps routerNode ([], []))) ->
                liveHash live (routerFileName file)
                = buildHash (buildFileContents allFiles) file) ->
  exists keyRecord finalKeyRaw,
    computeKeyForRouterFile routerFile routerNode (buildFileContents allFiles) maskBytes
    = Ok keyRecord
    /\ mask keyRecord = uint8ArrayToHexString maskBytes
    /\ routerSync tree ivs live callee = KeyReady logs mappingForFile finalKeyRaw
    /\ hexStringToUint8Array (key keyRecord) = Ok finalKeyRaw
    /\ List.length finalKeyRaw = 32.
Proof.
  intros Hsha Han Hroot Hrd Hml Hmb Hfind Hmap Hmask Hne Hlive.
  set (fc := buildFileContents allFiles) in *.
(* the tree is a tree of the call graph *)
  destruct (analyzeDependencies_root fuel allFiles tree routerFile routerNode Han
                                     (dict_get_In _ _ _ Hroot)) as [gfi Hp].
  apply processFile_graph in Hp.
  set (calls := callsOf allFiles (buildFileBaseIndex allFiles) fc
                        (buildFileDeclarations allFiles) gfi) in *.
  set (rd := rdOf fc) in *.
  destruct (graphNode_children _ _ _ _ _ Hp) as [_ [_ [_ Hsub]]].
(* the build-side walk *)
  destruct (collectHashesLoop_spec fc calls rd routerFile Hsha (dependencies routerNode)
                                   (set_add routerFile []) [] [] Hsub)
    as [collected [F [Ecol [_ [Hkeys [Hsound [Hclosed [Hchar [Hgood Hnd]]]]]]]]].
  { intros e He. apply set_add_In in He. destruct He as [->|[]]. now right. }
  assert (Hall : forall x, In x (forestPaths (dependencies routerNode)) -> In x F).
  { apply (forestPaths_closed calls rd routerFile F) with (visited := set_add routerFile []).
    - intros y Hy. apply (Hclosed y Hy). intros [].
    - exact Hsub.
    - apply set_add_In. now left.
    - exact Hkeys. }
(* the run-time walk *)
  rewrite collectDeps_loop in Hne, Hlive.
  set (branch := fst (collectDepsLoop (dependencies routerNode) ([], []))) in *.
  assert (Hbranch : NoDup branch
                    /\ forall x, In x branch
                                 <-> In (x, false) (forestNodes (dependencies routerNode))).
  { destruct (collectDepsLoop_spec (dependencies routerNode) [] []
                                   (fun x => conj (fun h => h) (fun h => h)) (NoDup_nil _))
      as [_ [Bnd Bchar]].
    split; [exact Bnd|]. intros x. subst branch. rewrite (Bchar x). cbn [In]. tauto. }
  destruct Hbranch as [Bnd Bchar].
  set (hasHash := fun x => match buildHash fc x with Some _ => true | None => false end).
(* both walks reach the same files *)
  assert (Hsame : forall x, In x (dict_keys collected) <-> In x (filter hasHash branch)).
  { intros x. rewrite Hchar, filter_In, Bchar. cbn [dict_keys map In]. split.
    - intros [[]|[HxF [_ [Hr Hh]]]]. split.
      + destruct (Hsound x HxF) as [[]|Hpath].
        unfold forestPaths in Hpath. apply in_map_iff in Hpath.
        destruct Hpath as [[x' flag] [Ex Hin]]. cbn in Ex. subst x'.
        rewrite (forestNodes_flags calls rd _ _ Hsub x flag Hin) in Hin.
        now rewrite Hr in Hin.
      + subst hasHash. cbn. destruct (buildHash fc x); [reflexivity|congruence].
    - intros [Hin Hh]. right.
      assert (Hr : rd x = false).
      { symmetry. exact (forestNodes_flags calls rd _ _ Hsub x false Hin). }
      split; [|split; [auto|split; [exact Hr|]]].
      + apply Hall. unfold forestPaths. apply in_map_iff. exists (x, false). auto.
      + subst hasHash. cbn in Hh. destruct (buildHash fc x); [discriminate|discriminate Hh]. }
  assert (Hperm : Permutation (dict_keys collected) (filter hasHash branch)).
  { apply NoDup_Permutation; [apply Hnd; constructor|now apply NoDup_filter|exact Hsame]. }
  set (L1 := map (hashBytes fc) (dict_keys collected)).
  set (L2 := map (hashBytes fc) (filter hasHash branch)).
  assert (HL1 : Forall (fun h => List.length h = 32) L1).
  { subst L1. apply Forall_forall. intros h Hh. apply in_map_iff in Hh.
    destruct Hh as [x [<- Hx]]. apply hashBytes_length; [exact Hsha|].
    apply Hchar in Hx. destruct Hx as [[]|[_ [_ [_ Hx]]]]. exact Hx. }
  destruct (foldExc_xorArrays 32 L1 (newUint8Array 32) (repeat_length _ _) HL1)
    as [Efold1 Lacc].
  set (acc := fold_left xorBytes L1 (newUint8Array 32)) in *.
  assert (Efold2 : foldExc xorBuffers L2 (newUint8Array 32) = Ok acc).
  { assert (HL2 : Forall (fun h => List.length h = 32) L2).
    { rewrite Forall_forall in *. intros h Hh. apply HL1.
      eapply Permutation_in; [|exact Hh].
      apply Permutation_sym, Permutation_map, Hperm. }
    destruct (foldExc_xorBuffers 32 L2 (newUint8Array 32) (repeat_length _ _) HL2)
      as [E2 _].
    rewrite E2. f_equal. subst acc. symmetry.
    apply fold_xorBytes_perm, Permutation_map, Hperm. }
  assert (Hacc_bytes : Forall isByte acc).
  { subst acc. apply fold_xorBytes_bytes; [apply newUint8Array_bytes|].
    subst L1. apply Forall_forall. intros h Hh. apply in_map_iff in Hh.
    destruct Hh as [x [<- _]]. apply hashBytes_bytes. }
  set (finalKey := xorBytes acc maskBytes).
  assert (Hfinal_bytes : Forall isByte finalKey) by (now apply xorBytes_bytes).
  destruct (hex_round_trip finalKey Hfinal_bytes) as [Hround _].
  destruct (hex_round_trip maskBytes Hmb) as [Hmask_round Hmask_len].
(* the build *)
  eexists. exists finalKey.
  split; [|split; [|split; [|split]]].
  - unfold computeKeyForRouterFile.
    rewrite collectHashes_loop, Ecol. cbn [bind fst snd].
    rewrite foldExc_map_snd, (collected_values fc collected) by (apply Hgood; intros x v []).
    fold L1. rewrite Efold1. cbn [bind].
    rewrite xorArrays_ok by congruence. cbn [bind]. reflexivity.
  - reflexivity.
  - rewrite (routerSync_branch tree ivs live callee mappingForFile
                               (uint8ArrayToHexString maskBytes) Hmap Hmask).
    2:{ intros E. rewrite E in Hmask_len. rewrite Hml in Hmask_len. discriminate. }
    unfold collectBranch. rewrite Hfind, Hroot, Hrd. cbn [negb andb lift].
    rewrite collectDeps_loop. fold branch.
    assert (Hlen : (List.length branch =? 0) = false).
    { clearbody branch. destruct branch; [contradiction|reflexivity]. }
    rewrite Hlen.
    rewrite (foldLive_as_build fc Hsha live branch Hlive).
    unfold L2, hasHash in Efold2. rewrite Efold2. cbn [lift truthyObject negb].
    rewrite Hmask_round. cbn [lift].
    rewrite xorBuffers_ok by congruence. reflexivity.
  - cbn [key]. exact Hround.
  - subst finalKey. rewrite xorBytes_length, Lacc, Hml. reflexivity.
Qed.
End KeyReconstruction.

Lemma sample_sha_length :
  forall content, String.length (@sha256hex Sample.node content) = 64.
Proof.
  intros content. cbn. destruct (String.eqb content Sample.content1); reflexivity.
Qed.

(** The sample project, cycle included, is analysed with fuel 4, and its
    tree is [Sample.projectTree]. *)
Example sample_analysis :
  @analyzeDependencies Sample.node 4 Sample.allFiles = Returned Sample.projectTree
  /\ @analyzeDependencies Sample.node 3 Sample.cycleFiles = Returned Sample.cycleTree.
Proof. split; vm_compute; reflexivity. Qed.

Lemma cycle_termination_witness :
  @analyzeDependencies Sample.node 4 Sample.allFiles <> OutOfFuel
  /\ (forall globalFunctionIndex file visited,
         @processFile Sample.node Sample.allFiles
                      (@buildFileBaseIndex Sample.node Sample.allFiles)
                      (@buildFileContents Sample.node Sample.allFiles)
                      (@buildFileDeclarations Sample.node Sample.allFiles)
                      globalFunctionIndex 4 file visited
         <> OutOfFuel)
  /\ (forall node, List.length (fst (collectDeps node ([], []))) <= nodeCount node).
Proof.
  apply (@cycle_termination Sample.node Sample.allFiles 4). cbn. lia.
Defined.

Lemma key_reconstruction_equivalence_witness :
  exists keyRecord finalKeyRaw,
    @computeKeyForRouterFile Sample.node Sample.file3
       (mkNode true [(Sample.file4, mkNode true []); (Sample.file1, mkNode false [])])
       (@buildFileContents Sample.node Sample.allFiles) Sample.maskBytes
    = Ok keyRecord
    /\ mask keyRecord = uint8ArrayToHexString Sample.maskBytes
    /\ routerSync Sample.projectTree Sample.ivsMapping Sample.globalHashes "file3"
       = KeyReady [ConsoleLog "xorOfHashes (hex):"; ConsoleLog "Final key (hex):"]
                  [("mask", Sample.maskHex); ("CT-static", "iv-static");
                   ("CT-dynamic", "iv-dynamic")]
                  finalKeyRaw
    /\ hexStringToUint8Array (key keyRecord) = Ok finalKeyRaw
    /\ List.length finalKeyRaw = 32.
Proof.
  apply (@key_reconstruction_equivalence Sample.node Sample.allFiles 4 Sample.projectTree
           Sample.file3
           (mkNode true [(Sample.file4, mkNode true []); (Sample.file1, mkNode false [])])
           Sample.maskBytes Sample.ivsMapping Sample.globalHashes "file3"
           [("mask", Sample.maskHex); ("CT-static", "iv-static"); ("CT-dynamic", "iv-dynamic")]).
  - exact sample_sha_length.
  - vm_compute. reflexivity.
  - vm_compute. reflexivity.
  - reflexivity.
  - vm_compute. reflexivity.
  - apply hexPairs_bytes.
  - vm_compute. reflexivity.
  - vm_compute. reflexivity.
  - vm_compute. reflexivity.
  - vm_compute. discriminate.
  - intros file Hin. vm_compute in Hin. destruct Hin as [<-|[]]. vm_compute. reflexivity.
Defined.

(** C1 as stated fails, in three ways.
    (1) On the cycle of [file3.js] and [file4.js] alone, a tree the build
    makes, the build derives a key (the mask) and the run time stops with
    "No dependency branch found": it reconstructs no key.
    (2) On a tree in which a file occurs twice with different entries, the
    build's shared [visited] Set skips the second occurrence with all below
    it, the run time walks into it: the keys differ although the live table
    holds the build's digests.
    (3) An empty dependency file is skipped by the build and hashed by the
    extension: the keys differ. *)
Lemma key_reconstruction_fails :
  (@analyzeDependencies Sample.node 3 Sample.cycleFiles = Returned Sample.cycleTree
   /\ option_map key
        (okValue (@computeKeyForRouterFile Sample.node Sample.file3
                    (mkNode true [(Sample.file4, mkNode true [])])
                    (@buildFileContents Sample.node Sample.cycleFiles) Sample.maskBytes))
      = Some Sample.maskHex
   /\ readyKey (routerSync Sample.cycleTree Sample.ivsMapping Sample.globalHashes "file3")
      = None)
  /\ (liveHash Sample.repeatLive (routerFileName Sample.fileA)
      = @buildHash Sample.node Sample.repeatContents Sample.fileA
      /\ liveHash Sample.repeatLive (routerFileName Sample.fileC)
         = @buildHash Sample.node Sample.repeatContents Sample.fileC
      /\ option_map key
           (okValue (@computeKeyForRouterFile Sample.node Sample.fileR
                       (mkNode true
                          [ (Sample.fileA, mkNode false []);
                            (Sample.fileB,
                             mkNode true
                               [(Sample.fileA, mkNode false [(Sample.fileC, mkNode false [])])]) ])
                       Sample.repeatContents Sample.maskBytes))
         = Some "96ba62ee64a3c192956fbde52df5a220f11a0ed5d7e707306bac08beaa9d99ff"
      /\ option_map uint8ArrayToHexString
           (readyKey (routerSync Sample.repeatTree Sample.rMapping Sample.repeatLive "r"))
         = Some "aa865ed2589ffdaea95381d911c99e1ccd2632e9ebdb3b0c5790348296a1a5c3")
  /\ (dict_get (routerFileName Sample.fileA) Sample.emptyLive
      = Some (@sha256hex Sample.node "")
      /\ option_map key
           (okValue (@computeKeyForRouterFile Sample.node Sample.fileR
                       (mkNode true [(Sample.fileA, mkNode false [])])
                       Sample.emptyContents Sample.maskBytes))
         = Some Sample.maskHex
      /\ option_map uint8ArrayToHexString
           (readyKey (routerSync Sample.emptyTree Sample.rMapping Sample.emptyLive "r"))
         = Some "0f23fb77fd3a580b0cf6247cb46c3bb96883974c4e7e9ea9f235912733040066").
Proof.
  repeat split; vm_compute; reflexivity.
Qed.

(* ================================================================= *)
(** * Part III: further properties of the code *)

(* ----------------------------------------------------------------- *)
(** ** Hex strings and byte arrays *)

Lemma xorBytes_involutive : forall a b : Uint8Array,
  List.length a = List.length b -> xorBytes (xorBytes a b) b = a.
Proof.
  induction a as [|x a IH]; intros [|y b] Hlen; simpl in *; try discriminate; auto.
  rewrite IH by lia. f_equal.
  rewrite Z.lxor_assoc, Z.lxor_nilpotent, Z.lxor_0_r. reflexivity.
Qed.

Lemma xorBytes_comm : forall a b : Uint8Array, xorBytes a b = xorBytes b a.
Proof.
  induction a as [|x a IH]; intros [|y b]; simpl; auto.
  rewrite IH, Z.lxor_comm. reflexivity.
Qed.

Lemma all_bytes_render_alike : forallb byteRendersAlike (seq 0 256) = true.
Proof. vm_compute. reflexivity. Qed.

Lemma padStart2_byteToHex : forall b : Z,
  isByte b -> padStart2 (Hex.toString16 b) = byteToHex b.
Proof.
  intros b [Hlo Hhi].
  pose proof all_bytes_render_alike as Hall.
  rewrite forallb_forall in Hall.
  specialize (Hall (Z.to_nat b)).
  unfold byteRendersAlike in Hall. rewrite Z2Nat.id in Hall by lia.
  apply String.eqb_eq, Hall, in_seq. lia.
Qed.

Lemma digestToHex_router : forall bytes : Uint8Array,
  Forall isByte bytes -> digestToHex bytes = uint8ArrayToHexString bytes.
Proof.
  intros bytes Hb. unfold digestToHex, uint8ArrayToHexString. f_equal.
  induction Hb as [|b l Hb _ IH]; simpl; [reflexivity|].
  rewrite IH, padStart2_byteToHex by assumption. reflexivity.
Qed.

(** X1. Router.js, [uint8ArrayToHexString] then [hexStringToUint8Array]:
    rendering a byte array as hex and reading the string back returns the
    array, and the string has two characters per byte. *)
Theorem hex_codec_round_trip : forall bytes : Uint8Array,
  Forall isByte bytes ->
  hexStringToUint8Array (uint8ArrayToHexString bytes) = Ok bytes /\
  String.length (uint8ArrayToHexString bytes) = 2 * List.length bytes.
Proof. intros bytes Hb. apply hex_round_trip, Hb. Qed.

Lemma hex_codec_round_trip_witness :
  hexStringToUint8Array (uint8ArrayToHexString [0; 10; 255]%Z) = Ok [0; 10; 255]%Z /\
  String.length (uint8ArrayToHexString [0; 10; 255]%Z) = 2 * 3.
Proof.
  apply (hex_codec_round_trip [0; 10; 255]%Z).
  repeat constructor; unfold isByte; lia.
Defined.

(** X2. [hexStringToUint8Array] throws "Invalid hexString" exactly on the
    strings of odd length.  On every other string it returns an array of half
    the length whose elements are bytes, whatever the characters are: a pair
    that is no hex number is stored as 0, it is no error. *)
Theorem hexStringToUint8Array_total : forall s : string,
  match hexStringToUint8Array s with
  | Ok bytes =>
      Nat.even (String.length s) = true /\
      List.length bytes = String.length s / 2 /\
      Forall isByte bytes /\
      (forall a b rest, s = String a (String b rest) ->
         Hex.parseInt16 (String a (String b EmptyString)) = None ->
         bytes = 0%Z :: hexPairs rest)
  | Throw e => Nat.odd (String.length s) = true /\ e = "Invalid hexString"
  end.
Proof.
  intros s. unfold hexStringToUint8Array.
  destruct (String.length s mod 2 =? 0) eqn:E; cbn [negb].
  - apply Nat.eqb_eq in E. repeat split.
    + apply Nat.even_spec. exists (String.length s / 2).
      pose proof (Nat.div_mod_eq (String.length s) 2). lia.
    + apply hexPairs_length.
    + apply hexPairs_bytes.
    + intros a b rest -> Hnan. cbn [hexPairs]. rewrite Hnan. reflexivity.
  - apply Nat.eqb_neq in E. split; [|reflexivity].
    rewrite <- Nat.negb_even. apply negb_true_iff.
    destruct (Nat.even (String.length s)) eqn:Ev; [|reflexivity].
    apply Nat.even_spec in Ev. destruct Ev as [k Hk].
    exfalso. apply E. rewrite Hk, Nat.mul_comm. apply Nat.Div0.mod_mul.
Qed.

(** X3. Router.js, [xorBuffers]: it throws exactly when the two arrays differ
    in length; otherwise the result has their length, and XOR-ing it with
    either argument gives back the other one (so the mask and the folded
    hashes determine the key, and the key and the mask the folded hashes). *)
Theorem xorBuffers_involution : forall a b : Uint8Array,
  match xorBuffers a b with
  | Ok c =>
      List.length a = List.length b /\ List.length c = List.length a /\
      xorBuffers c b = Ok a /\ xorBuffers c a = Ok b
  | Throw e =>
      List.length a <> List.length b /\ e = "Buffers must be of equal length"
  end.
Proof.
  intros a b. unfold xorBuffers, xorBuffersWith.
  destruct (List.length a =? List.length b) eqn:E; cbn [negb].
  - apply Nat.eqb_eq in E.
    assert (Hc : List.length (xorBytes a b) = List.length a)
      by (rewrite xorBytes_length; lia).
    split; [exact E|]. split; [exact Hc|].
    replace (List.length (xorBytes a b) =? List.length b) with true
      by (symmetry; apply Nat.eqb_eq; lia).
    replace (List.length (xorBytes a b) =? List.length a) with true
      by (symmetry; apply Nat.eqb_eq; lia).
    cbn [negb]. split.
    + f_equal. apply xorBytes_involutive, E.
    + f_equal. rewrite (xorBytes_comm a b). apply xorBytes_involutive. lia.
  - apply Nat.eqb_neq in E. split; [exact E|reflexivity].
Qed.

(** X4. background.js, [computeSHA256]: the extension renders the digest
    bytes with [toString(16).padStart(2, '0')], Router.js renders bytes with
    [('00' + toString(16)).slice(-2)].  On bytes the two renderings are the
    same string, and [hexStringToUint8Array] of the page reads the digest
    bytes back from it. *)
Theorem extension_hex_is_router_hex : forall (host : ExtensionHost) (content : string),
  Forall isByte (digestSHA256 content) ->
  computeSHA256 content = uint8ArrayToHexString (digestSHA256 content) /\
  hexStringToUint8Array (computeSHA256 content) = Ok (digestSHA256 content) /\
  String.length (computeSHA256 content) = 2 * List.length (digestSHA256 content).
Proof.
  intros host content Hb. unfold computeSHA256.
  rewrite (digestToHex_router _ Hb).
  split; [reflexivity|]. apply hex_round_trip, Hb.
Qed.

Lemma extension_hex_is_router_hex_witness :
  @computeSHA256 More.extension "abc" =
    uint8ArrayToHexString (@digestSHA256 More.extension "abc") /\
  hexStringToUint8Array (@computeSHA256 More.extension "abc") =
    Ok (@digestSHA256 More.extension "abc") /\
  String.length (@computeSHA256 More.extension "abc") =
    2 * List.length (@digestSHA256 More.extension "abc").
Proof.
  apply (extension_hex_is_router_hex More.extension "abc").
  apply Forall_forall. intros x Hx. apply repeat_spec in Hx. subst x.
  vm_compute. split; [discriminate | reflexivity].
Defined.

(* ----------------------------------------------------------------- *)
(** ** The hash listener and the extension *)

Lemma split_nonempty : forall isSep s, JsString.split isSep s <> [].
Proof.
  intros isSep s. destruct s as [|c rest]; simpl; [discriminate|].
  destruct (isSep c); [discriminate|].
  destruct (JsString.split isSep rest); discriminate.
Qed.

Lemma split_parts_sepFree : forall isSep s,
  Forall (fun part => sepFree isSep part = true) (JsString.split isSep s).
Proof.
  intros isSep. induction s as [|c rest IH]; simpl.
  - constructor; [reflexivity|constructor].
  - destruct (isSep c) eqn:Ec.
    + constructor; [reflexivity|exact IH].
    + destruct (JsString.split isSep rest) as [|h t].
      * constructor; [simpl; rewrite Ec; reflexivity|constructor].
      * inversion IH; subst. constructor; [simpl; rewrite Ec; assumption|assumption].
Qed.

Lemma last_In : forall (A : Type) (l : list A) (d : A), l <> [] -> In (last l d) l.
Proof.
  induction l as [|x l IH]; intros d Hne; [congruence|].
  destruct l as [|y l]; [left; reflexivity|].
  right. apply IH. discriminate.
Qed.

Lemma pop_split_sepFree : forall isSep s,
  sepFree isSep (JsString.pop (JsString.split isSep s)) = true.
Proof.
  intros isSep s.
  pose proof (split_parts_sepFree isSep s) as Hall.
  rewrite Forall_forall in Hall. apply Hall.
  apply last_In, split_nonempty.
Qed.

Lemma dict_set_nonempty : forall (V : Type) (k : string) (v : V) (d : dict V),
  dict_set k v d <> [].
Proof.
  intros V k v [|[k' v'] rest]; simpl; [discriminate|].
  destruct (String.eqb k k'); discriminate.
Qed.

Lemma hashesAvailable_set : forall k v (d : dict string),
  hashesAvailable (dict_set k v d) = true.
Proof.
  intros k v d. pose proof (dict_set_nonempty _ k v d) as Hne.
  unfold hashesAvailable, dict_keys.
  destruct (dict_set k v d); [congruence|reflexivity].
Qed.

Lemma split_pop_suffix : forall isSep s,
  exists prefix,
    s = String.append prefix (JsString.pop (JsString.split isSep s)) /\
    match JsString.split isSep s with
    | [_] => prefix = EmptyString
    | _ => True
    end.
Proof.
  intros isSep. induction s as [|c rest IH].
  - exists EmptyString. split; reflexivity.
  - destruct IH as [prefix [Hrest Hone]]. cbn [JsString.split].
    pose proof (split_nonempty isSep rest) as Hne.
    destruct (isSep c).
    + exists (String c prefix). split.
      * cbn [String.append]. f_equal.
        unfold JsString.pop in *. destruct (JsString.split isSep rest) as [|h t]; [congruence|].
        exact Hrest.
      * destruct (JsString.split isSep rest); [congruence|exact I].
    + destruct (JsString.split isSep rest) as [|h [|h' t]]; [congruence| |].
      * subst prefix. exists EmptyString. split; [|reflexivity].
        unfold JsString.pop in *. cbn [last String.append] in *. f_equal. exact Hrest.
      * exists (String c prefix). split; [|exact I].
        unfold JsString.pop in *. cbn [String.append]. f_equal. exact Hrest.
Qed.

Lemma append_length : forall s t,
  String.length (String.append s t) = String.length s + String.length t.
Proof. induction s as [|c s IH]; intros t; cbn; [reflexivity|rewrite IH; reflexivity]. Qed.

Lemma substring_append_skip : forall p t k m,
  substring (String.length p + k) m (String.append p t) = substring k m t.
Proof.
  induction p as [|c p IH]; intros t k m; [reflexivity|].
  cbn [String.length String.append Nat.add substring]. apply IH.
Qed.

(** A URL that ends with ".js" has a last segment other than [__proto__]. *)
Lemma js_url_segment : forall detailsUrl,
  JsString.endsWith detailsUrl ".js" = true ->
  JsString.pop (JsString.split JsString.isSlash detailsUrl) <> "__proto__".
Proof.
  intros detailsUrl Hends Hproto.
  destruct (split_pop_suffix JsString.isSlash detailsUrl) as [prefix [Hurl _]].
  rewrite Hproto in Hurl. rewrite Hurl in Hends.
  unfold JsString.endsWith in Hends. rewrite append_length in Hends.
  cbn [String.length] in Hends.
  replace (3 <=? String.length prefix + 9) with true in Hends
    by (symmetry; apply Nat.leb_le; lia).
  replace (String.length prefix + 9 - 3) with (String.length prefix + 6) in Hends by lia.
  rewrite substring_append_skip in Hends. vm_compute in Hends. discriminate.
Qed.

(** X5. The message listener of the page: a message that does not come
    from the page's own window, or whose action is not "hashSaved", changes
    nothing.  Any other message is stored under the last "/"-segment of its
    URL, a name without "/".  When that name is [__proto__] the assignment
    stores nothing and [globalHashes] is left as it was; for every other name
    the hash is stored under the name, overwriting what was there, the other
    entries are left alone, and [globalHashes] is not empty afterwards. *)
Theorem onMessage_stores_under_last_segment :
  forall (event : MessageEvent) (globalHashes : dict string),
  let filename := JsString.pop (JsString.split JsString.isSlash (url event)) in
  if sourceIsWindow event && String.eqb (action event) "hashSaved" then
    sepFree JsString.isSlash filename = true /\
    if String.eqb filename "__proto__"
    then fst (onMessage event globalHashes) = globalHashes
    else dict_get filename (fst (onMessage event globalHashes)) = Some (hash event) /\
         (forall other, other <> filename ->
            dict_get other (fst (onMessage event globalHashes))
            = dict_get other globalHashes) /\
         hashesAvailable (fst (onMessage event globalHashes)) = true
  else onMessage event globalHashes = (globalHashes, []).
Proof.
  intros event globalHashes filename. unfold onMessage.
  destruct (sourceIsWindow event); cbn [negb andb]; [|reflexivity].
  destruct (String.eqb (action event) "hashSaved"); [|reflexivity].
  cbn [fst]. fold filename. split; [apply pop_split_sepFree|].
  destruct (String.eqb filename "__proto__"); [reflexivity|].
  repeat split.
  - apply dict_get_set_same.
  - intros other Hne. apply dict_get_set_other. exact Hne.
  - apply hashesAvailable_set.
Qed.

Lemma onMessage_stores_under_last_segment_witness :
  dict_get "file1.js" (fst (onMessage More.message [("file1.js", "old")])) = Some Sample.hexA /\
  dict_get "file3.js" (fst (onMessage More.message [("file3.js", Sample.hexB)]))
    = Some Sample.hexB /\
  fst (onMessage More.protoMessage []) = [].
Proof.
  pose proof (onMessage_stores_under_last_segment More.message [("file1.js", "old")]) as H1.
  pose proof (onMessage_stores_under_last_segment More.message [("file3.js", Sample.hexB)]) as H3.
  pose proof (onMessage_stores_under_last_segment More.protoMessage []) as Hp.
  cbv zeta in H1, H3, Hp.
  change (sourceIsWindow More.message && String.eqb (action More.message) "hashSaved")
    with true in H1, H3.
  change (sourceIsWindow More.protoMessage && String.eqb (action More.protoMessage) "hashSaved")
    with true in Hp.
  change (String.eqb (JsString.pop (JsString.split JsString.isSlash (url More.message)))
                     "__proto__") with false in H1, H3.
  change (String.eqb (JsString.pop (JsString.split JsString.isSlash (url More.protoMessage)))
                     "__proto__") with true in Hp.
  cbv iota in H1, H3, Hp.
  destruct H1 as [_ [H1 _]]. destruct H3 as [_ [_ [H3 _]]]. destruct Hp as [_ Hp].
  split; [exact H1|]. split; [|exact Hp].
  rewrite (H3 "file3.js"); [reflexivity|].
  vm_compute. discriminate.
Defined.

(** X6. The extension's [onCompleted] listener posts a message into the
    page only for a URL that ends with ".js" and contains "recompiled", whose
    text it could fetch, while a tab is active.  The hash it posts is
    [computeSHA256] of the fetched text; the extension stores it under the
    whole URL, and the page's listener under the last segment of the URL. *)
Theorem extension_feeds_page :
  forall (host : ExtensionHost) (detailsUrl : string) (hashes globalHashes : dict string),
  match posted (onCompleted detailsUrl hashes) with
  | Some message =>
      JsString.endsWith detailsUrl ".js" = true /\
      JsString.includes detailsUrl "recompiled" = true /\
      hasActiveTab = true /\
      exists text,
        fetchText detailsUrl = Some text /\
        dict_get detailsUrl (storedHashes (onCompleted detailsUrl hashes))
          = Some (computeSHA256 text) /\
        dict_get (JsString.pop (JsString.split JsString.isSlash detailsUrl))
                 (fst (onMessage message globalHashes))
          = Some (computeSHA256 text)
  | None =>
      hasActiveTab = false \/ storedHashes (onCompleted detailsUrl hashes) = hashes
  end.
Proof.
  intros host detailsUrl hashes globalHashes. unfold onCompleted.
  destruct (JsString.endsWith detailsUrl ".js") eqn:Ejs; cbn [negb posted storedHashes];
    [|right; reflexivity].
  destruct (JsString.includes detailsUrl "recompiled"); cbn [posted storedHashes];
    [|right; reflexivity].
  destruct (fetchText detailsUrl) as [text|]; cbn [posted storedHashes];
    [|right; reflexivity].
  destruct hasActiveTab; [|left; reflexivity].
  repeat split. exists text. repeat split.
  - apply dict_get_set_same.
  - unfold onMessage. cbn [sourceIsWindow action url hash negb].
    change (String.eqb "hashSaved" "hashSaved") with true. cbn [fst].
    pose proof (js_url_segment detailsUrl Ejs) as Hseg.
    apply String.eqb_neq in Hseg. rewrite Hseg.
    apply dict_get_set_same.
Qed.

(* ----------------------------------------------------------------- *)
(** ** The tables of the analysis *)

Section IndexFacts.
Context `{BuildHost}.

(** A table filled in one pass, one entry per element that has one. *)
Lemma fold_set_get : forall (C V : Type) (r : string -> option C) (h : C -> V)
    (l : list string) (acc : dict V) (k : string),
  dict_get k (fold_left (fun d f => match r f with
                                    | Some c => dict_set f (h c) d
                                    | None => d
                                    end) l acc)
  = match r k with
    | Some c => if existsb (String.eqb k) l then Some (h c) else dict_get k acc
    | None => dict_get k acc
    end.
Proof.
  intros C V r h. induction l as [|f l IH]; intros acc k; cbn [fold_left existsb].
  - destruct (r k); reflexivity.
  - rewrite IH. destruct (String.eqb k f) eqn:E.
    + apply String.eqb_eq in E. subst f. cbn [orb].
      destruct (r k) as [c|]; [|reflexivity].
      destruct (existsb (String.eqb k) l); [reflexivity|].
      apply dict_get_set_same.
    + apply String.eqb_neq in E. cbn [orb].
      assert (Hacc : dict_get k match r f with
                                | Some c => dict_set f (h c) acc
                                | None => acc
                                end = dict_get k acc).
      { destruct (r f); [|reflexivity]. apply dict_get_set_other. exact E. }
      rewrite Hacc. reflexivity.
Qed.

Lemma existsb_eqb_In : forall (k : string) (l : list string),
  existsb (String.eqb k) l = true <-> In k l.
Proof.
  intros k l. rewrite existsb_exists. split.
  - intros [x [Hin Hx]]. apply String.eqb_eq in Hx. subst. exact Hin.
  - intros Hin. exists k. split; [exact Hin|apply String.eqb_refl].
Qed.

Lemma buildFileContents_get : forall allFiles file,
  dict_get file (buildFileContents allFiles)
  = if existsb (String.eqb file) allFiles then readFileSync file else None.
Proof.
  intros allFiles file. unfold buildFileContents.
  rewrite (fold_set_get string string readFileSync (fun c => c)).
  destruct (readFileSync file), (existsb (String.eqb file) allFiles); reflexivity.
Qed.

Lemma buildFileDeclarations_get : forall allFiles file,
  dict_get file (buildFileDeclarations allFiles)
  = if existsb (String.eqb file) allFiles
    then option_map getDeclaredFunctions (readFileSync file) else None.
Proof.
  intros allFiles file. unfold buildFileDeclarations.
  rewrite (fold_set_get string StrSet readFileSync getDeclaredFunctions).
  destruct (readFileSync file), (existsb (String.eqb file) allFiles); reflexivity.
Qed.

Lemma indexDeclared_get : forall file declared idx fn,
  dict_get fn (indexDeclared file declared idx)
  = match dict_get fn idx with
    | Some g => Some g
    | None => if existsb (String.eqb fn) declared && negb (inherited fn)
              then Some file else None
    end.
Proof.
  intros file. unfold indexDeclared.
  induction declared as [|d declared IH]; intros idx fn; cbn [fold_left existsb].
  - destruct (dict_get fn idx); reflexivity.
  - rewrite IH. destruct (dict_get d idx) as [g|] eqn:Ed.
    + destruct (dict_get fn idx) as [g'|] eqn:Ef; [reflexivity|].
      destruct (String.eqb fn d) eqn:E; [|reflexivity].
      apply String.eqb_eq in E. subst. congruence.
    + destruct (String.eqb fn d) eqn:E.
      * apply String.eqb_eq in E. subst d.
        destruct (inherited fn) eqn:Ei.
        -- rewrite Ed, !andb_false_r. reflexivity.
        -- rewrite dict_get_set_same, Ed. reflexivity.
      * apply String.eqb_neq in E. cbn [orb].
        destruct (inherited d); [reflexivity|].
        rewrite dict_get_set_other by exact E. reflexivity.
Qed.

Lemma firstDeclaring_step : forall fd seen file declared idx fn,
  dict_get file fd = Some declared ->
  firstDeclaring fd seen fn (dict_get fn idx) ->
  firstDeclaring fd (seen ++ [file]) fn (dict_get fn (indexDeclared file declared idx)).
Proof.
  intros fd seen file declared idx fn Hd Hinv.
  rewrite indexDeclared_get.
  destruct (dict_get fn idx) as [g|].
  - destruct Hinv as [Hown [before [after [dg [Hs [Hg [Hin Hbefore]]]]]]].
    split; [exact Hown|].
    exists before, (after ++ [file]), dg. subst seen.
    rewrite <- app_assoc. repeat split; assumption.
  - destruct (inherited fn) eqn:Einh.
    + rewrite andb_false_r. left. exact Einh.
    + rewrite andb_true_r. destruct Hinv as [Hinv|Hinv]; [congruence|].
      destruct (existsb (String.eqb fn) declared) eqn:E.
      * apply existsb_eqb_In in E. split; [exact Einh|].
        exists seen, [], declared. repeat split; assumption.
      * right. intros g d Hin Hg. apply in_app_or in Hin. destruct Hin as [Hin|[->|[]]].
        -- exact (Hinv g d Hin Hg).
        -- rewrite Hd in Hg. injection Hg as <-.
           intros Hfn. apply existsb_eqb_In in Hfn. congruence.
Qed.

Lemma functionIndex_loop : forall fd l seen idx idx',
  foldExc (fun idx file =>
             match dict_get file fd with
             | None => Throw "TypeError"
             | Some declared => Ok (indexDeclared file declared idx)
             end) l idx = Ok idx' ->
  (forall fn, firstDeclaring fd seen fn (dict_get fn idx)) ->
  forall fn, firstDeclaring fd (seen ++ l) fn (dict_get fn idx').
Proof.
  intros fd. induction l as [|file l IH]; intros seen idx idx' Hf Hinv fn.
  - cbn in Hf. injection Hf as <-. rewrite app_nil_r. apply Hinv.
  - cbn [foldExc] in Hf. destruct (dict_get file fd) as [declared|] eqn:Ed;
      cbn [bind] in Hf; [|discriminate].
    replace (seen ++ file :: l) with ((seen ++ [file]) ++ l)
      by (rewrite <- app_assoc; reflexivity).
    eapply IH; [exact Hf|].
    intros fn'. apply (firstDeclaring_step fd seen file declared idx fn' Ed (Hinv fn')).
Qed.

Lemma functionIndex_throws : forall fd l idx,
  (exists file, In file l /\ dict_get file fd = None) ->
  foldExc (fun idx file =>
             match dict_get file fd with
             | None => Throw "TypeError"
             | Some declared => Ok (indexDeclared file declared idx)
             end) l idx = Throw "TypeError".
Proof.
  intros fd. induction l as [|f l IH]; intros idx [file [Hin Hnone]]; [destruct Hin|].
  cbn [foldExc]. destruct (dict_get f fd) as [declared|] eqn:Ed; cbn [bind]; [|reflexivity].
  apply IH. exists file. split; [|exact Hnone].
  destruct Hin as [->|Hin]; [congruence|exact Hin].
Qed.

Lemma functionIndex_ok : forall fd l idx,
  (forall file, In file l -> dict_get file fd <> None) ->
  exists idx',
    foldExc (fun idx file =>
               match dict_get file fd with
               | None => Throw "TypeError"
               | Some declared => Ok (indexDeclared file declared idx)
               end) l idx = Ok idx'.
Proof.
  intros fd. induction l as [|f l IH]; intros idx Hall; [exists idx; reflexivity|].
  cbn [foldExc]. destruct (dict_get f fd) as [declared|] eqn:Ed; cbn [bind].
  - apply IH. intros file Hin. apply Hall. right. exact Hin.
  - exfalso. apply (Hall f); [left; reflexivity|exact Ed].
Qed.

Lemma functionIndex_skips_inherited : forall allFiles fd idx fn,
  buildGlobalFunctionIndex allFiles fd = Ok idx ->
  inherited fn = true -> dict_get fn idx = None.
Proof.
  intros allFiles fd idx fn Hok Hinh.
  pose proof (functionIndex_loop fd allFiles [] [] idx Hok
                (fun fn' => or_intror (fun g d (F : In g []) => match F with end)) fn)
    as Hfirst.
  destruct (dict_get fn idx) as [file|]; [|reflexivity].
  destruct Hfirst as [Hown _]. congruence.
Qed.

(** X7. The function index of [analyzeDependencies]
    ([if (!globalFunctionIndex[fnName]) globalFunctionIndex[fnName] = file],
    on an object literal).  A function name that the literal inherits from
    [Object.prototype] ([toString], [constructor], ..) is never indexed,
    whatever file declares it.  Any other name is mapped to the first file of
    [allFiles] that declares it, and has no entry exactly when no file
    declares it. *)
Theorem globalFunctionIndex_first_declaring_file :
  forall (allFiles : list string) (fileDeclarations : dict StrSet)
         (globalFunctionIndex : dict string) (fnName : string),
  buildGlobalFunctionIndex allFiles fileDeclarations = Ok globalFunctionIndex ->
  match dict_get fnName globalFunctionIndex with
  | Some file =>
      inherited fnName = false /\
      exists before after declared,
        allFiles = before ++ file :: after /\
        dict_get file fileDeclarations = Some declared /\ In fnName declared /\
        forall g d, In g before -> dict_get g fileDeclarations = Some d -> ~ In fnName d
  | None =>
      inherited fnName = true \/
      forall g d, In g allFiles -> dict_get g fileDeclarations = Some d -> ~ In fnName d
  end.
Proof.
  intros allFiles fd idx fn Hok.
  apply (functionIndex_loop fd allFiles [] [] idx Hok).
  intros fn'. right. intros g d [].
Qed.

(** A file that declares [toString] and [helper]: only [helper] is indexed. *)
Example prototype_named_function_not_indexed :
  buildGlobalFunctionIndex ["C:\site\a.js"] [("C:\site\a.js", ["toString"; "helper"])]
  = Ok [("helper", "C:\site\a.js")].
Proof. reflexivity. Qed.


End IndexFacts.

Lemma globalFunctionIndex_first_declaring_file_witness :
  inherited "funzioneDiFile3" = false /\
  exists before after declared,
    Sample.allFiles = before ++ Sample.file3 :: after /\
    dict_get Sample.file3 (@buildFileDeclarations Sample.node Sample.allFiles)
      = Some declared /\
    In "funzioneDiFile3" declared /\
    forall g d, In g before ->
      dict_get g (@buildFileDeclarations Sample.node Sample.allFiles) = Some d ->
      ~ In "funzioneDiFile3" d.
Proof.
  exact (globalFunctionIndex_first_declaring_file Sample.allFiles
           (@buildFileDeclarations Sample.node Sample.allFiles)
           More.functionIndex "funzioneDiFile3" eq_refl).
Defined.


(* ----------------------------------------------------------------- *)
(** ** When the analysis returns a tree *)

Section AnalysisOutcome.
Context `{BuildHost}.

Section Walk.
Variable allFiles : list string.
Variable fileBaseIndex : dict string.
Variable fileContents : dict string.
Variable fileDeclarations : dict StrSet.
Variable globalFunctionIndex : dict string.
Hypothesis declared_when_read : forall file,
  dict_get file fileContents <> None -> dict_get file fileDeclarations <> None.

Local Abbreviation walk :=
  (processFile allFiles fileBaseIndex fileContents fileDeclarations globalFunctionIndex).

Lemma addDependency_no_raise : forall recur file visited d deps e,
  (forall f v e', recur f v <> Raised e') ->
  addDependency recur file visited d deps <> Raised e.
Proof.
  intros recur file visited d deps e Hrec. unfold addDependency.
  destruct (negb (String.eqb d file) && negb (set_has d visited)); [|discriminate].
  destruct (recur d visited) as [|e'|[c|]] eqn:E; cbn [obind]; try discriminate.
  exfalso. exact (Hrec _ _ _ E).
Qed.

Lemma routerCallStep_no_raise : forall recur file visited l acc e,
  (forall f v e', recur f v <> Raised e') ->
  (forall e', acc <> Raised e') ->
  fold_left (routerCallStep fileBaseIndex recur file visited) l acc <> Raised e.
Proof.
  intros recur file visited l. induction l as [|x l IH]; intros acc e Hrec Hacc.
  - apply Hacc.
  - cbn [fold_left]. apply IH; [exact Hrec|].
    intros e'. unfold routerCallStep.
    destruct acc as [|e0|deps]; cbn [obind]; [discriminate|apply Hacc|].
    destruct (dict_get x fileBaseIndex); [|discriminate].
    apply addDependency_no_raise, Hrec.
Qed.

Lemma functionCallStep_no_raise : forall recur file visited l acc e,
  dict_get file fileDeclarations <> None ->
  (forall f v e', recur f v <> Raised e') ->
  (forall e', acc <> Raised e') ->
  fold_left (functionCallStep allFiles fileDeclarations globalFunctionIndex recur file visited)
            l acc <> Raised e.
Proof.
  intros recur file visited l. induction l as [|x l IH]; intros acc e Hd Hrec Hacc.
  - apply Hacc.
  - cbn [fold_left]. apply IH; [exact Hd|exact Hrec|].
    intros e'. unfold functionCallStep.
    destruct acc as [|e0|deps]; cbn [obind]; [discriminate|apply Hacc|].
    destruct (dict_get file fileDeclarations) as [declared|]; [|congruence].
    destruct (set_has x declared); [discriminate|].
    destruct (dict_get x globalFunctionIndex) as [d|]; [|discriminate].
    destruct (existsb (String.eqb d) allFiles); [|discriminate].
    apply addDependency_no_raise, Hrec.
Qed.

Lemma processFile_no_raise : forall fuel file visited e,
  walk fuel file visited <> Raised e.
Proof.
  induction fuel as [|fuel IH]; intros file visited e; cbn [processFile]; [discriminate|].
  destruct (set_has file visited); [discriminate|].
  destruct (dict_get file fileContents) as [content|] eqn:Ec; [|discriminate].
  assert (Hd : dict_get file fileDeclarations <> None)
    by (apply declared_when_read; congruence).
  match goal with
  | |- obind ?m _ <> _ => destruct m as [|e1|deps] eqn:E1
  end; cbn [obind]; [discriminate| |].
  - exfalso. revert E1. apply routerCallStep_no_raise; [exact IH|discriminate].
  - match goal with
    | |- obind ?m _ <> _ => destruct m as [|e2|deps2] eqn:E2
    end; cbn [obind]; [discriminate| |discriminate].
    exfalso. revert E2. apply functionCallStep_no_raise; [exact Hd|exact IH|discriminate].
Qed.

End Walk.

Lemma analyzeDependencies_unreadable : forall fuel allFiles file,
  In file allFiles -> readFileSync file = None ->
  analyzeDependencies fuel allFiles = Raised "TypeError".
Proof.
  intros fuel allFiles file Hin Hnone. unfold analyzeDependencies, buildGlobalFunctionIndex.
  rewrite functionIndex_throws; [reflexivity|].
  exists file. split; [exact Hin|].
  rewrite buildFileDeclarations_get, Hnone.
  destruct (existsb (String.eqb file) allFiles); reflexivity.
Qed.

Lemma analyzeDependencies_walks : forall fuel allFiles idx l tree0,
  List.length allFiles < fuel ->
  (forall file, In file allFiles -> readFileSync file <> None) ->
  (forall file, In file l -> In file allFiles) ->
  exists tree,
    fold_left (fun acc file =>
                 obind acc (fun dependencyTree =>
                   obind (processFile allFiles (buildFileBaseIndex allFiles)
                                      (buildFileContents allFiles)
                                      (buildFileDeclarations allFiles) idx fuel file [])
                     (fun node =>
                        match node with
                        | Some n => Returned (dict_set file n dependencyTree)
                        | None => Returned dependencyTree
                        end)))
              l (Returned tree0) = Returned tree /\
    (forall f, In f (dict_keys tree) <-> In f (dict_keys tree0) \/ In f l) /\
    (NoDup (dict_keys tree0) -> NoDup (dict_keys tree)).
Proof.
  intros fuel allFiles idx l tree0 Hfuel Hread. revert tree0.
  induction l as [|file l IH]; intros tree0 Hsub.
  - exists tree0. split; [reflexivity|]. split; [|auto].
    intros f. split; [auto|intros [Hf|[]]; exact Hf].
  - cbn [fold_left obind].
    assert (Hfile : In file allFiles) by (apply Hsub; left; reflexivity).
    destruct (processFile allFiles (buildFileBaseIndex allFiles) (buildFileContents allFiles)
                (buildFileDeclarations allFiles) idx fuel file []) as [|e|[n|]] eqn:E.
    + exfalso. revert E. apply processFile_fuel.
      * apply buildFileContents_keys.
      * unfold unvisited. apply Nat.le_lt_trans with (List.length allFiles);
          [apply List.filter_length_le|exact Hfuel].
    + exfalso. revert E. apply processFile_no_raise.
      intros f Hf. rewrite buildFileContents_get in Hf.
      rewrite buildFileDeclarations_get.
      destruct (existsb (String.eqb f) allFiles); [|congruence].
      destruct (readFileSync f); [discriminate|congruence].
    + cbn [obind].
      destruct (IH (dict_set file n tree0)) as [tree [Hfold [Hkeys Hnd]]].
      { intros f Hf. apply Hsub. right. exact Hf. }
      exists tree. split; [exact Hfold|]. split.
      * intros f. rewrite Hkeys, dict_keys_set. cbn [In]. intuition.
      * intros Hnd0. apply Hnd, dict_set_NoDup, Hnd0.
    + exfalso. apply processFile_None in E. destruct E as [[]|E].
      rewrite buildFileContents_get in E.
      apply existsb_eqb_In in Hfile. rewrite Hfile in E.
      exact (Hread file (proj1 (existsb_eqb_In _ _) Hfile) E).
Qed.

(** X9. [analyzeDependencies] with more fuel than files: when every file
    of [allFiles] can be read it returns a tree with exactly one root per
    file; when some file cannot be read it throws a TypeError (at
    [fileDeclarations[file].forEach], whatever the fuel) and returns no tree
    at all. *)
Theorem analyzeDependencies_outcome : forall (fuel : nat) (allFiles : list string),
  List.length allFiles < fuel ->
  if forallb (fun file => match readFileSync file with Some _ => true | None => false end)
             allFiles
  then exists tree,
         analyzeDependencies fuel allFiles = Returned tree /\
         (forall file, In file (dict_keys tree) <-> In file allFiles) /\
         NoDup (dict_keys tree)
  else analyzeDependencies fuel allFiles = Raised "TypeError".
Proof.
  intros fuel allFiles Hfuel.
  destruct (forallb _ allFiles) eqn:Eall.
  - rewrite forallb_forall in Eall.
    assert (Hread : forall file, In file allFiles -> readFileSync file <> None).
    { intros file Hin. specialize (Eall file Hin).
      destruct (readFileSync file); [discriminate|discriminate]. }
    assert (Hindex : exists idx,
               buildGlobalFunctionIndex allFiles (buildFileDeclarations allFiles) = Ok idx).
    { apply functionIndex_ok.
      intros file Hin. rewrite buildFileDeclarations_get.
      apply existsb_eqb_In in Hin. rewrite Hin.
      specialize (Hread file (proj1 (existsb_eqb_In _ _) Hin)).
      destruct (readFileSync file); [discriminate|congruence]. }
    destruct Hindex as [idx Hidx].
    unfold analyzeDependencies. cbv zeta. rewrite Hidx.
    destruct (analyzeDependencies_walks fuel allFiles idx allFiles [] Hfuel Hread)
      as [tree [Hfold [Hkeys Hnd]]]; [auto|].
    exists tree. split; [exact Hfold|]. split.
    + intros file. rewrite Hkeys. cbn [dict_keys map In]. intuition.
    + apply Hnd. constructor.
  - assert (Hex : exists file, In file allFiles /\ readFileSync file = None).
    { clear Hfuel. induction allFiles as [|f l IH]; [discriminate|].
      cbn [forallb] in Eall. apply andb_false_iff in Eall. destruct Eall as [Ef|El].
      - exists f. split; [left; reflexivity|]. destruct (readFileSync f); [discriminate|reflexivity].
      - destruct (IH El) as [file [Hin Hn]]. exists file. split; [right; exact Hin|exact Hn]. }
    destruct Hex as [file [Hin Hnone]].
    apply (analyzeDependencies_unreadable fuel allFiles file Hin Hnone).
Qed.

End AnalysisOutcome.

Lemma analyzeDependencies_outcome_witness :
  (exists tree,
     @analyzeDependencies Sample.node 4 Sample.allFiles = Returned tree /\
     (forall file, In file (dict_keys tree) <-> In file Sample.allFiles) /\
     NoDup (dict_keys tree)) /\
  @analyzeDependencies Sample.node 3 ["C:\site\nowhere.js"; Sample.file1] = Raised "TypeError".
Proof.
  split.
  - apply (@analyzeDependencies_outcome Sample.node 4 Sample.allFiles). simpl. lia.
  - apply (@analyzeDependencies_outcome Sample.node 3 ["C:\site\nowhere.js"; Sample.file1]).
    simpl. lia.
Defined.

(* ----------------------------------------------------------------- *)
(** ** Branches of an analysed tree *)

Lemma chainsBelow_forest : forall n chain,
  chainsBelow n chain = forestChains (dependencies n) chain.
Proof. intros [flag deps] chain. reflexivity. Qed.

Lemma forestChains_cons : forall dep child rest chain,
  forestChains ((dep, child) :: rest) chain
  = (dep :: chain) :: forestChains (dependencies child) (dep :: chain)
      ++ forestChains rest chain.
Proof.
  intros dep child rest chain. unfold forestChains at 1. cbn [flat_map fst snd].
  rewrite chainsBelow_forest. reflexivity.
Qed.

Section Chains.
Variable calls : string -> list string.
Variable rd : string -> bool.
Variable Good : string -> Prop.
Hypothesis calls_good : forall p c, In c (calls p) -> Good c.

Lemma graphForest_chains : forall deps visited chain,
  graphForest calls rd visited deps ->
  (forall c, In c (dict_keys deps) -> ~ In c visited /\ Good c) ->
  NoDup chain ->
  (forall x, In x chain -> In x visited /\ Good x) ->
  forall ch, In ch (forestChains deps chain) ->
             NoDup ch /\ forall x, In x ch -> Good x.
Proof.
  induction deps as [|dep child rest IHchild IHrest] using forest_ind;
    intros visited chain Hg Hkeys Hnd Hchain ch Hin; [destruct Hin|].
  rewrite forestChains_cons in Hin.
  apply graphForest_cons in Hg. destruct Hg as [Hnode Hrest].
  assert (Hdep : ~ In dep visited /\ Good dep) by (apply Hkeys; left; reflexivity).
  assert (Hnd' : NoDup (dep :: chain)).
  { constructor; [|exact Hnd]. intros Hc. apply (proj1 Hdep), Hchain, Hc. }
  assert (Hgood' : forall x, In x (dep :: chain) -> Good x).
  { intros x [<-|Hx]; [exact (proj2 Hdep)|apply Hchain, Hx]. }
  destruct Hin as [<-|Hin]; [split; assumption|].
  apply in_app_or in Hin. destruct Hin as [Hin|Hin].
  - apply graphNode_children in Hnode.
    destruct Hnode as [_ [Hck [_ Hforest]]].
    apply (IHchild (set_add dep visited) (dep :: chain) Hforest); [| exact Hnd' | | exact Hin].
    + intros c Hc. destruct (Hck c Hc) as [Hcall Hnot].
      split; [exact Hnot|exact (calls_good _ _ Hcall)].
    + intros x Hx. split; [|apply Hgood', Hx].
      apply set_add_In. destruct Hx as [<-|Hx]; [left; reflexivity|right; apply Hchain, Hx].
  - apply (IHrest visited chain Hrest); [|exact Hnd|exact Hchain|exact Hin].
    intros c Hc. apply Hkeys. right. exact Hc.
Qed.

End Chains.

Section BranchFacts.
Context `{BuildHost}.

Lemma callsOf_allFiles : forall allFiles idx file c,
  In c (callsOf allFiles (buildFileBaseIndex allFiles) (buildFileContents allFiles)
               (buildFileDeclarations allFiles) idx file) ->
  In c allFiles.
Proof.
  intros allFiles idx file c Hc. unfold callsOf in Hc.
  destruct (dict_get file (buildFileContents allFiles)); [|destruct Hc].
  apply filter_In in Hc. destruct Hc as [_ Hhas].
  unfold dict_has in Hhas. rewrite buildFileContents_get in Hhas.
  destruct (existsb (String.eqb c) allFiles) eqn:E; [|discriminate].
  apply existsb_eqb_In, E.
Qed.

(** X10. In the tree [analyzeDependencies] returns no file occurs twice on
    the way from a root down to a node (a file may still occur in several
    branches), every file on the way is a file of [allFiles], and so no
    branch is deeper than the number of files. *)
Theorem branches_never_repeat_a_file :
  forall (fuel : nat) (allFiles : list string) (tree : DependencyTree)
         (root : string) (node : DependencyNode) (chain : list string),
  analyzeDependencies fuel allFiles = Returned tree ->
  In (root, node) tree ->
  In chain (chainsBelow node [root]) ->
  NoDup chain /\ (forall file, In file chain -> In file allFiles) /\
  List.length chain <= List.length allFiles.
Proof.
  intros fuel allFiles tree root node chain Htree Hroot Hchain.
  destruct (analyzeDependencies_root fuel allFiles tree root node Htree Hroot) as [idx Hp].
  pose proof (processFile_Some _ _ _ _ _ _ _ _ _ Hp) as [Hhas _].
  assert (Hrootin : In root allFiles).
  { unfold dict_has in Hhas. rewrite buildFileContents_get in Hhas.
    destruct (existsb (String.eqb root) allFiles) eqn:E; [|discriminate].
    apply existsb_eqb_In, E. }
  apply processFile_graph in Hp. apply graphNode_children in Hp.
  destruct Hp as [_ [Hck [_ Hforest]]].
  rewrite chainsBelow_forest in Hchain.
  assert (Hres : NoDup chain /\ forall x, In x chain -> In x allFiles).
  { apply (graphForest_chains _ (rdOf (buildFileContents allFiles))
             (fun x => In x allFiles) (callsOf_allFiles allFiles idx)
             (dependencies node) (set_add root []) [root] Hforest); [| | |exact Hchain].
    - intros c Hc. destruct (Hck c Hc) as [Hcall Hnot].
      split; [exact Hnot|exact (callsOf_allFiles _ _ _ _ Hcall)].
    - constructor; [intros []|constructor].
    - intros x [<-|[]]. split; [|exact Hrootin].
      apply set_add_In. left. reflexivity. }
  destruct Hres as [Hnd Hall]. split; [exact Hnd|]. split; [exact Hall|].
  apply NoDup_incl_length; [exact Hnd|exact Hall].
Qed.

End BranchFacts.

Lemma branches_never_repeat_a_file_witness :
  NoDup [Sample.file4; Sample.file3] /\
  (forall file, In file [Sample.file4; Sample.file3] -> In file Sample.allFiles) /\
  List.length [Sample.file4; Sample.file3] <= List.length Sample.allFiles.
Proof.
  apply (@branches_never_repeat_a_file Sample.node 4 Sample.allFiles Sample.projectTree
           Sample.file3 (mkNode true [(Sample.file4, mkNode true []);
                                      (Sample.file1, mkNode false [])])).
  - vm_compute. reflexivity.
  - vm_compute. right. left. reflexivity.
  - vm_compute. left. reflexivity.
Defined.

(* ----------------------------------------------------------------- *)
(** ** Key derivation on any tree *)

Section KeyFacts.
Context `{BuildHost}.
Variable fileContents : dict string.
Hypothesis sha_length : forall content, String.length (sha256hex content) = 64.

Local Abbreviation goodHash :=
  (fun (x : string) (v : Uint8Array) =>
     v = hashBytes fileContents x /\ buildHash fileContents x <> None).

(** The walk of [collectHashesFromDependencies] over any forest. *)
Lemma collectHashesLoop_any : forall deps (c : dict Uint8Array) (V : StrSet),
  exists c' V',
    collectHashesLoop fileContents deps (Ok (c, V)) = Ok (c', V')
    /\ (forall y, In y V -> In y V')
    /\ (forall x, In x (dict_keys c') ->
                  In x (dict_keys c)
                  \/ (In (x, false) (forestNodes deps) /\ ~ In x V
                      /\ buildHash fileContents x <> None))
    /\ ((forall x v, In (x, v) c -> goodHash x v) ->
        forall x v, In (x, v) c' -> goodHash x v)
    /\ (NoDup (dict_keys c) -> NoDup (dict_keys c')).
Proof.
  induction deps as [|d child rest IHc IHr] using forest_ind; intros c V.
  - exists c, V. split; [reflexivity|]. split; [auto|]. split; [auto|]. split; auto.
  - rewrite collectHashesLoop_cons. rewrite forestNodes_cons.
    destruct (set_has d V) eqn:Ev.
    + destruct (IHr c V) as [c' [V' [E1 [M [KC [VL ND]]]]]].
      exists c', V'. split; [exact E1|]. split; [exact M|].
      split; [|split; [exact VL|exact ND]].
      intros x Hx. destruct (KC x Hx) as [Hc|[Hn [Hv Hh]]]; [left; exact Hc|right].
      split; [|split; assumption]. right. apply in_or_app. right. exact Hn.
    + apply set_has_false in Ev.
      rewrite (collectOwnHash_spec fileContents sha_length). cbn [bind].
      set (c1 := match (if routerDependant child then None else buildHash fileContents d) with
                 | Some h => dict_set d (hexPairs h) c
                 | None => c
                 end).
      destruct (IHc ([] : dict Uint8Array) (set_add d V)) as [sub [V2 [E2 [M2 [KC2 [VL2 ND2]]]]]].
      rewrite E2. cbn [bind fst snd].
      destruct (IHr (mergeCollected c1 sub) V2) as [c' [V' [E3 [M3 [KC3 [VL3 ND3]]]]]].
      exists c', V'. split; [exact E3|].
      split; [|split; [|split]].
      * intros y Hy. apply M3, M2, set_add_In. right. exact Hy.
      * intros x Hx. destruct (KC3 x Hx) as [Hm|[Hn [Hv Hh]]].
        -- apply (mergeCollected_keys (fun _ => []) (fun _ => true) "") in Hm.
           destruct Hm as [Hx1|Hx2].
           ++ subst c1. destruct (routerDependant child) eqn:Erd; [left; exact Hx1|].
              destruct (buildHash fileContents d) as [h|] eqn:Eh; [|left; exact Hx1].
              apply dict_keys_set in Hx1. destruct Hx1 as [->|Hx1]; [|left; exact Hx1].
              right. split; [left; reflexivity|].
              split; [exact Ev|congruence].
           ++ destruct (KC2 x Hx2) as [[]|[Hn [Hv Hh]]]. right.
              split; [right; apply in_or_app; left; exact Hn|].
              split; [|exact Hh]. intros Hc. apply Hv, set_add_In. right. exact Hc.
        -- right. split; [right; apply in_or_app; right; exact Hn|].
           split; [|exact Hh]. intros Hc. apply Hv, M2, set_add_In. right. exact Hc.
      * intros Hgood. apply VL3. apply mergeCollected_values.
        -- subst c1. destruct (routerDependant child); [exact Hgood|].
           destruct (buildHash fileContents d) as [h|] eqn:Eh; [|exact Hgood].
           apply dict_set_values; [|exact Hgood].
           unfold hashBytes. rewrite Eh. split; [reflexivity|discriminate].
        -- apply VL2. intros x v [].
      * intros Hnd. apply ND3, mergeCollected_NoDup.
        subst c1. destruct (routerDependant child); [exact Hnd|].
        destruct (buildHash fileContents d); [apply dict_set_NoDup, Hnd|exact Hnd].
Qed.

Lemma collectHashes_any : forall (node : DependencyNode) (visited : StrSet),
  exists collected visited',
    collectHashesFromDependencies fileContents node visited = Ok (collected, visited') /\
    (forall file, In file visited -> In file visited') /\
    NoDup (dict_keys collected) /\
    forall file bytes, In (file, bytes) collected ->
      In (file, false) (nodesBelow node) /\ ~ In file visited /\ goodHash file bytes.
Proof.
  intros node visited. rewrite collectHashes_loop, nodesBelow_forest.
  destruct (collectHashesLoop_any (dependencies node) [] visited)
    as [c' [V' [E [M [KC [VL ND]]]]]].
  exists c', V'. split; [exact E|]. split; [exact M|].
  split; [apply ND; constructor|].
  intros file bytes Hin.
  assert (Hkey : In file (dict_keys c')).
  { unfold dict_keys. apply in_map_iff. exists (file, bytes). split; [reflexivity|exact Hin]. }
  destruct (KC file Hkey) as [[]|[Hn [Hv Hh]]].
  split; [exact Hn|]. split; [exact Hv|].
  exact (VL (fun x v (F : In (x, v) []) => match F with end) file bytes Hin).
Qed.

(** X11. [collectHashesFromDependencies] on any tree, with a SHA-256 of 64
    characters: it never throws, and whatever the [visited] Set holds at the
    start it collects hashes only for files that occur below the node as an
    entry that is not router-dependent, were not visited before and have a
    content that is not empty.  Each collected value is the 32 bytes of the
    SHA-256 of that file's content, and no file is collected twice. *)
Theorem collectHashes_only_plain_dependencies :
  forall (node : DependencyNode) (visited : StrSet),
  exists collected visited',
    collectHashesFromDependencies fileContents node visited = Ok (collected, visited') /\
    (forall file, In file visited -> In file visited') /\
    NoDup (dict_keys collected) /\
    forall file bytes, In (file, bytes) collected ->
      In (file, false) (nodesBelow node) /\ ~ In file visited /\
      (exists content, dict_get file fileContents = Some content /\ content <> "" /\
                       bytes = hexPairs (sha256hex content)) /\
      List.length bytes = 32 /\ Forall isByte bytes.
Proof.
  intros node visited.
  destruct (collectHashes_any node visited) as [c [V' [E [M [ND Hval]]]]].
  exists c, V'. split; [exact E|]. split; [exact M|]. split; [exact ND|].
  intros file bytes Hin.
  destruct (Hval file bytes Hin) as [Hn [Hv [Hb Hh]]].
  split; [exact Hn|]. split; [exact Hv|]. split; [|split].
  - unfold hashBytes in Hb. unfold buildHash in Hb, Hh.
    destruct (dict_get file fileContents) as [content|]; [|congruence].
    exists content. split; [reflexivity|].
    destruct content as [|a content]; [cbn in Hh; congruence|].
    split; [discriminate|exact Hb].
  - subst bytes. apply hashBytes_length; assumption.
  - subst bytes. apply hashBytes_bytes.
Qed.

Lemma computeKey_shape : forall routerFile routerNode maskBytes,
  List.length maskBytes = 32 -> Forall isByte maskBytes ->
  exists collected visited xorResult,
    collectHashesFromDependencies fileContents routerNode [] = Ok (collected, visited) /\
    xorResult = fold_left xorBytes (map snd collected) (newUint8Array 32) /\
    List.length xorResult = 32 /\ Forall isByte xorResult /\
    computeKeyForRouterFile routerFile routerNode fileContents maskBytes
    = Ok {| routerFile := routerFile;
            collectedHashes :=
              fold_left (fun o kv => dict_set (path_basename (fst kv))
                                              (uint8ArrayToHexString (snd kv)) o)
                        collected [];
            xorOfHashes := uint8ArrayToHexString xorResult;
            mask := uint8ArrayToHexString maskBytes;
            key := uint8ArrayToHexString (xorBytes xorResult maskBytes) |}.
Proof.
  intros routerFile routerNode maskBytes Hlen Hbytes.
  destruct (collectHashes_any routerNode []) as [c [V [E [_ [_ Hval]]]]].
  exists c, V, (fold_left xorBytes (map snd c) (newUint8Array 32)).
  split; [exact E|]. split; [reflexivity|].
  assert (Hlens : Forall (fun h => List.length h = 32) (map snd c)).
  { apply Forall_forall. intros v Hv. apply in_map_iff in Hv.
    destruct Hv as [[x v'] [<- Hin]]. cbn [snd].
    destruct (Hval x v' Hin) as [_ [_ [-> Hh]]]. apply hashBytes_length; assumption. }
  assert (Hbs : Forall (Forall isByte) (map snd c)).
  { apply Forall_forall. intros v Hv. apply in_map_iff in Hv.
    destruct Hv as [[x v'] [<- Hin]]. cbn [snd].
    destruct (Hval x v' Hin) as [_ [_ [-> Hh]]]. apply hashBytes_bytes. }
  destruct (foldExc_xorArrays 32 (map snd c) (newUint8Array 32)) as [Hfold Hl];
    [apply repeat_length|exact Hlens|].
  split; [exact Hl|]. split; [apply fold_xorBytes_bytes; [apply newUint8Array_bytes|exact Hbs]|].
  unfold computeKeyForRouterFile. rewrite E. cbn [bind fst].
  rewrite foldExc_map_snd, Hfold. cbn [bind].
  rewrite xorArrays_ok by lia. cbn [bind]. reflexivity.
Qed.

End KeyFacts.

Section KeyRecords.
Context `{BuildHost}.
Variable fileContents : dict string.
Hypothesis sha_length : forall content, String.length (sha256hex content) = 64.

(** X12. [computeKeyForRouterFile] on any node, with a SHA-256 of 64
    characters and a mask of 32 bytes: it never throws, and the record it
    returns is consistent for the run time.  Its three hex strings decode
    with [hexStringToUint8Array], the mask to the mask that was drawn; the
    key is [xorOfHashes] XOR mask, which is how [routerForwardCall] rebuilds
    it, and [xorOfHashes] is key XOR mask. *)
Theorem computeKey_record_consistent :
  forall (file : string) (routerNode : DependencyNode) (maskBytes : Uint8Array),
  List.length maskBytes = 32 -> Forall isByte maskBytes ->
  exists record xorResult finalKey,
    computeKeyForRouterFile file routerNode fileContents maskBytes = Ok record /\
    routerFile record = file /\
    hexStringToUint8Array (mask record) = Ok maskBytes /\
    hexStringToUint8Array (xorOfHashes record) = Ok xorResult /\
    hexStringToUint8Array (key record) = Ok finalKey /\
    xorBuffers xorResult maskBytes = Ok finalKey /\
    xorBuffers finalKey maskBytes = Ok xorResult /\
    String.length (mask record) = 64 /\ String.length (key record) = 64.
Proof.
  intros file routerNode maskBytes Hlen Hbytes.
  destruct (computeKey_shape fileContents sha_length file routerNode maskBytes Hlen Hbytes)
    as [c [V [xr [_ [_ [Hl [Hb Hrec]]]]]]].
  assert (Hkl : List.length (xorBytes xr maskBytes) = 32)
    by (rewrite xorBytes_length; lia).
  assert (Hkb : Forall isByte (xorBytes xr maskBytes))
    by (apply xorBytes_bytes; assumption).
  eexists. exists xr, (xorBytes xr maskBytes).
  split; [exact Hrec|]. cbn [routerFile mask xorOfHashes key].
  split; [reflexivity|].
  split; [apply hex_round_trip, Hbytes|].
  split; [apply hex_round_trip, Hb|].
  split; [apply hex_round_trip, Hkb|].
  split; [apply xorBuffers_ok; lia|].
  split.
  - rewrite xorBuffers_ok by lia. f_equal. apply xorBytes_involutive. lia.
  - split.
    + rewrite (proj2 (hex_round_trip _ Hbytes)). lia.
    + rewrite (proj2 (hex_round_trip _ Hkb)). lia.
Qed.

(** X13. A router file below which no entry is both not router-dependent
    and of non-empty content has nothing to fold: [computeKeyForRouterFile]
    then returns a record whose key is the mask itself, the string that the
    build publishes in [ivs_mapping]. *)
Theorem key_is_mask_without_plain_dependency :
  forall (file : string) (routerNode : DependencyNode) (maskBytes : Uint8Array),
  List.length maskBytes = 32 -> Forall isByte maskBytes ->
  (forall dep, In (dep, false) (nodesBelow routerNode) -> buildHash fileContents dep = None) ->
  exists record,
    computeKeyForRouterFile file routerNode fileContents maskBytes = Ok record /\
    collectedHashes record = [] /\
    key record = mask record /\
    hexStringToUint8Array (key record) = Ok maskBytes.
Proof.
  intros file routerNode maskBytes Hlen Hbytes Hnone.
  destruct (computeKey_shape fileContents sha_length file routerNode maskBytes Hlen Hbytes)
    as [c [V [xr [E [Hxr [_ [_ Hrec]]]]]]].
  destruct (collectHashes_any fileContents sha_length routerNode [])
    as [c0 [V0 [E0 [_ [_ Hval]]]]].
  rewrite E in E0. injection E0 as <- <-.
  assert (Hc : c = []).
  { destruct c as [|[x v] c]; [reflexivity|].
    destruct (Hval x v (or_introl eq_refl)) as [Hn [_ [_ Hh]]].
    exfalso. apply Hh, Hnone, Hn. }
  subst c. cbn [map fold_left] in Hxr. subst xr.
  rewrite xorBytes_zero_l in Hrec by exact Hlen.
  eexists. split; [exact Hrec|]. cbn [collectedHashes key mask fold_left].
  split; [reflexivity|]. split; [reflexivity|].
  apply hex_round_trip, Hbytes.
Qed.

Lemma buildEncryptionKeys_loop : forall (drawMask : string -> Uint8Array) l keys0,
  (forall file, List.length (drawMask file) = 32 /\ Forall isByte (drawMask file)) ->
  exists keys,
    foldExc (fun encryptionKeys kv =>
               if routerDependant (snd kv) then
                 record <- computeKeyForRouterFile (fst kv) (snd kv) fileContents
                                                   (drawMask (fst kv)) ;;
                 Ok (dict_set (path_basename (fst kv)) record encryptionKeys)
               else Ok encryptionKeys) l keys0 = Ok keys /\
    (forall b, In b (dict_keys keys) <->
               In b (dict_keys keys0) \/
               exists file n, In (file, n) l /\ routerDependant n = true /\
                              path_basename file = b) /\
    (forall b r, dict_get b keys = Some r ->
                 dict_get b keys0 = Some r \/
                 exists file n, In (file, n) l /\ routerDependant n = true /\
                                path_basename file = b /\
                                computeKeyForRouterFile file n fileContents (drawMask file)
                                = Ok r).
Proof.
  intros drawMask l. induction l as [|[file n] l IH]; intros keys0 Hmask.
  - exists keys0. split; [reflexivity|]. split.
    + intros b. split; [auto|]. intros [Hb|[f [n [[] _]]]]. exact Hb.
    + intros b r Hr. left. exact Hr.
  - cbn [foldExc fst snd]. destruct (routerDependant n) eqn:Erd.
    + destruct (Hmask file) as [Hl Hb].
      destruct (computeKey_shape fileContents sha_length file n (drawMask file) Hl Hb)
        as [c [V [xr [_ [_ [_ [_ Hrec]]]]]]].
      rewrite Hrec. cbn [bind].
      match goal with
      | |- context [dict_set (path_basename file) ?r keys0] => set (record := r) in *
      end.
      destruct (IH (dict_set (path_basename file) record keys0) Hmask)
        as [keys [Hfold [Hkeys Hget]]].
      exists keys. split; [exact Hfold|]. split.
      * intros b. rewrite Hkeys, dict_keys_set. split.
        -- intros [[->|Hb0]|[f [m [Hin Hrest]]]].
           ++ right. exists file, n. split; [left; reflexivity|]. split; [exact Erd|reflexivity].
           ++ left. exact Hb0.
           ++ right. exists f, m. split; [right; exact Hin|exact Hrest].
        -- intros [Hb0|[f [m [[Heq|Hin] [Hrd Hbase]]]]].
           ++ left. right. exact Hb0.
           ++ injection Heq as <- <-. left. left. symmetry. exact Hbase.
           ++ right. exists f, m. split; [exact Hin|]. split; [exact Hrd|exact Hbase].
      * intros b r Hr. destruct (Hget b r Hr) as [H0|[f [m [Hin Hrest]]]].
        -- destruct (String.eqb b (path_basename file)) eqn:Eb.
           ++ apply String.eqb_eq in Eb. subst b. rewrite dict_get_set_same in H0.
              injection H0 as <-. right. exists file, n.
              split; [left; reflexivity|]. split; [exact Erd|]. split; [reflexivity|exact Hrec].
           ++ apply String.eqb_neq in Eb. rewrite dict_get_set_other in H0 by exact Eb.
              left. exact H0.
        -- right. exists f, m. split; [right; exact Hin|exact Hrest].
    + destruct (IH keys0 Hmask) as [keys [Hfold [Hkeys Hget]]].
      exists keys. split; [exact Hfold|]. split.
      * intros b. rewrite Hkeys. split.
        -- intros [Hb0|[f [m [Hin Hrest]]]]; [left; exact Hb0|].
           right. exists f, m. split; [right; exact Hin|exact Hrest].
        -- intros [Hb0|[f [m [[Heq|Hin] [Hrd Hbase]]]]]; [left; exact Hb0| |].
           ++ injection Heq as <- <-. congruence.
           ++ right. exists f, m. split; [exact Hin|]. split; [exact Hrd|exact Hbase].
      * intros b r Hr. destruct (Hget b r Hr) as [H0|[f [m [Hin Hrest]]]]; [left; exact H0|].
        right. exists f, m. split; [right; exact Hin|exact Hrest].
Qed.

(** X14. The loop of the build script that fills [encryptionKeys], with a
    SHA-256 of 64 characters and masks of 32 bytes: it never throws; a base
    name gets a record exactly when it is the base name of a router-dependent
    root of the tree, and the record is what [computeKeyForRouterFile]
    returns for such a root.  A root that is not router-dependent gets no
    key. *)
Theorem encryptionKeys_for_router_roots :
  forall (dependencyTree : DependencyTree) (drawMask : string -> Uint8Array),
  (forall file, List.length (drawMask file) = 32 /\ Forall isByte (drawMask file)) ->
  exists encryptionKeys,
    buildEncryptionKeys dependencyTree fileContents drawMask = Ok encryptionKeys /\
    (forall baseName, In baseName (dict_keys encryptionKeys) <->
       exists file node, In (file, node) dependencyTree /\ routerDependant node = true /\
                         path_basename file = baseName) /\
    (forall baseName record, dict_get baseName encryptionKeys = Some record ->
       exists file node, In (file, node) dependencyTree /\ routerDependant node = true /\
                         path_basename file = baseName /\
                         computeKeyForRouterFile file node fileContents (drawMask file)
                         = Ok record).
Proof.
  intros tree drawMask Hmask.
  destruct (buildEncryptionKeys_loop drawMask tree [] Hmask) as [keys [Hfold [Hkeys Hget]]].
  exists keys. split; [exact Hfold|]. split.
  - intros b. rewrite Hkeys. cbn [dict_keys map In]. intuition.
  - intros b r Hr. destruct (Hget b r Hr) as [H0|Hex]; [discriminate|exact Hex].
Qed.

End KeyRecords.

Lemma collectHashes_only_plain_dependencies_witness :
  exists collected visited',
    @collectHashesFromDependencies Sample.node (@buildFileContents Sample.node Sample.allFiles)
      (mkNode true [(Sample.file4, mkNode true []); (Sample.file1, mkNode false [])]) []
    = Ok (collected, visited') /\
    (forall file, In file [] -> In file visited') /\
    NoDup (dict_keys collected) /\
    forall file bytes, In (file, bytes) collected ->
      In (file, false)
         (nodesBelow (mkNode true [(Sample.file4, mkNode true []);
                                   (Sample.file1, mkNode false [])])) /\
      ~ In file [] /\
      (exists content,
         dict_get file (@buildFileContents Sample.node Sample.allFiles) = Some content /\
         content <> "" /\ bytes = hexPairs (@sha256hex Sample.node content)) /\
      List.length bytes = 32 /\ Forall isByte bytes.
Proof.
  apply (@collectHashes_only_plain_dependencies Sample.node
           (@buildFileContents Sample.node Sample.allFiles)).
  exact sample_sha_length.
Defined.

Lemma computeKey_record_consistent_witness :
  exists record xorResult finalKey,
    @computeKeyForRouterFile Sample.node Sample.file3
      (mkNode true [(Sample.file4, mkNode true []); (Sample.file1, mkNode false [])])
      (@buildFileContents Sample.node Sample.allFiles) Sample.maskBytes = Ok record /\
    routerFile record = Sample.file3 /\
    hexStringToUint8Array (mask record) = Ok Sample.maskBytes /\
    hexStringToUint8Array (xorOfHashes record) = Ok xorResult /\
    hexStringToUint8Array (key record) = Ok finalKey /\
    xorBuffers xorResult Sample.maskBytes = Ok finalKey /\
    xorBuffers finalKey Sample.maskBytes = Ok xorResult /\
    String.length (mask record) = 64 /\ String.length (key record) = 64.
Proof.
  apply (@computeKey_record_consistent Sample.node
           (@buildFileContents Sample.node Sample.allFiles) sample_sha_length).
  - vm_compute. reflexivity.
  - apply hexPairs_bytes.
Defined.

Lemma key_is_mask_without_plain_dependency_witness :
  exists record,
    @computeKeyForRouterFile Sample.node Sample.file3
      (mkNode true [(Sample.file4, mkNode true [])])
      (@buildFileContents Sample.node Sample.cycleFiles) Sample.maskBytes = Ok record /\
    collectedHashes record = [] /\
    key record = mask record /\
    hexStringToUint8Array (key record) = Ok Sample.maskBytes.
Proof.
  apply (@key_is_mask_without_plain_dependency Sample.node
           (@buildFileContents Sample.node Sample.cycleFiles) sample_sha_length).
  - vm_compute. reflexivity.
  - apply hexPairs_bytes.
  - intros dep Hin. vm_compute in Hin. destruct Hin as [Heq|[]]. inversion Heq.
Defined.

Lemma encryptionKeys_for_router_roots_witness :
  exists encryptionKeys,
    @buildEncryptionKeys Sample.node Sample.projectTree
      (@buildFileContents Sample.node Sample.allFiles) (fun _ => Sample.maskBytes)
    = Ok encryptionKeys /\
    (forall baseName, In baseName (dict_keys encryptionKeys) <->
       exists file node, In (file, node) Sample.projectTree /\ routerDependant node = true /\
                         @path_basename Sample.node file = baseName) /\
    (forall baseName record, dict_get baseName encryptionKeys = Some record ->
       exists file node, In (file, node) Sample.projectTree /\ routerDependant node = true /\
                         @path_basename Sample.node file = baseName /\
                         @computeKeyForRouterFile Sample.node file node
                           (@buildFileContents Sample.node Sample.allFiles) Sample.maskBytes
                         = Ok record).
Proof.
  apply (@encryptionKeys_for_router_roots Sample.node
           (@buildFileContents Sample.node Sample.allFiles) sample_sha_length
           Sample.projectTree (fun _ => Sample.maskBytes)).
  intros file. split; [vm_compute; reflexivity|apply hexPairs_bytes].
Defined.

(* ----------------------------------------------------------------- *)
(** ** What routerForwardCall may invoke *)

Lemma routerSync_quiet : forall tree ivs live callee,
  match routerSync tree ivs live callee with
  | Stopped events _ => filter isInvoke events = []
  | KeyReady events _ _ => filter isInvoke events = []
  end.
Proof.
  intros tree ivs live callee. unfold routerSync, lift.
  repeat match goal with
         | |- context [match ?x with _ => _ end] =>
             lazymatch x with
             | context [match _ with _ => _ end] => fail
             | _ => destruct x; cbv beta iota
             end
         end; reflexivity.
Qed.

Lemma noDispatch_filter : forall events, noDispatch events -> filter isInvoke events = [].
Proof.
  unfold noDispatch. induction events as [|e l IH]; intros Hno; [reflexivity|].
  cbn [existsb] in Hno. apply orb_false_iff in Hno. destruct Hno as [He Hl].
  cbn [filter]. rewrite He. apply IH, Hl.
Qed.

Section DispatchFacts.
Context `{BrowserHost}.

Lemma convertParams_quiet : forall types values,
  filter isInvoke (snd (convertParams types values)) = [].
Proof.
  induction types as [|t types IH]; intros [|v values]; try reflexivity.
  cbn [convertParams snd]. rewrite filter_app, IH, app_nil_r.
  unfold convertParam.
  repeat match goal with
         | |- context [match ?x with _ => _ end] => destruct x
         end; reflexivity.
Qed.

Lemma dispatch_invokes : forall functionName args,
  filter isInvoke (fst (dispatch functionName args)) = [] \/
  exists f, functionName = Some f /\ windowHasFunction f = true /\
            filter isInvoke (fst (dispatch functionName args)) = [Invoke f args].
Proof.
  intros [f|] args; cbn [dispatch]; [|left; reflexivity].
  destruct (windowHasFunction f) eqn:E; [|left; reflexivity].
  right. exists f. repeat split. exact E.
Qed.

Lemma parseAndCall_invokes : forall plaintext caller args,
  filter isInvoke (fst (parseAndCall plaintext caller args)) = [] \/
  exists f a,
    nth_error (JsString.split JsString.isDash plaintext) 1 = Some f /\
    windowHasFunction f = true /\
    filter isInvoke (fst (parseAndCall plaintext caller args)) = [Invoke f a].
Proof.
  intros plaintext caller args. unfold parseAndCall.
  set (parts := JsString.split JsString.isDash plaintext).
  destruct args as [|a args].
  - destruct (negb (List.length parts =? 4)); [left; reflexivity|].
    destruct (negb (String.eqb (nth 2 parts "") "null")
              && negb (String.eqb (nth 3 parts "") "null")).
    + destruct (negb (_ =? _)); [left; reflexivity|].
      cbn [fst]. rewrite filter_app, convertParams_quiet. cbn [app filter isInvoke].
      match goal with
      | |- context [dispatch ?fn ?xs] => destruct (dispatch_invokes fn xs) as [Hq|[f [Hf [Hw Hq]]]]
      end.
      * left. exact Hq.
      * right. exists f. eexists. split; [exact Hf|]. split; [exact Hw|exact Hq].
    + cbn [fst filter isInvoke].
      destruct (dispatch_invokes (nth_error parts 1) []) as [Hq|[f [Hf [Hw Hq]]]].
      * left. exact Hq.
      * right. exists f, []. split; [exact Hf|]. split; [exact Hw|exact Hq].
  - destruct (dispatch_invokes (nth_error parts 1) (a :: args)) as [Hq|[f [Hf [Hw Hq]]]].
    + left. exact Hq.
    + right. exists f, (a :: args). split; [exact Hf|]. split; [exact Hw|exact Hq].
Qed.

Lemma catchHandler_filter : forall r,
  filter isInvoke (catchHandler r) = filter isInvoke (fst r).
Proof.
  intros [events [|e]]; cbn [catchHandler fst snd]; [reflexivity|].
  rewrite filter_app. cbn [filter isInvoke]. apply app_nil_r.
Qed.

Lemma callWithPlaintext_invokes : forall plaintext callee args,
  filter isInvoke (catchHandler (callWithPlaintext plaintext callee args)) = [] \/
  exists f a,
    nth_error (JsString.split JsString.isDash plaintext) 1 = Some f /\
    windowHasFunction f = true /\
    filter isInvoke (catchHandler (callWithPlaintext plaintext callee args)) = [Invoke f a].
Proof.
  intros plaintext callee args. rewrite catchHandler_filter.
  unfold callWithPlaintext. destruct args; apply parseAndCall_invokes.
Qed.

(** X15. [routerForwardCall] calls at most one page function, and only at
    the end of a chain in which every step succeeded: the synchronous part
    rebuilt a key, [importKey] accepted it, the mapping of the file holds an
    IV for the call string, and the call string decrypted under that key and
    IV.  The function called is the second field of the decrypted
    descriptor, and it is a function of [window]. *)
Theorem dispatch_only_after_decryption :
  forall (tree : DependencyTree) (ivs : dict (dict string)) (live : dict string)
         (callString callee : string) (args : list JSVal),
  let events := fst (routerForwardCall tree ivs live callString callee args) in
  filter isInvoke events = [] \/
  exists functionName arguments logs mappingForFile finalKeyRaw cryptoKey ivBase64 plaintext,
    filter isInvoke events = [Invoke functionName arguments] /\
    routerSync tree ivs live callee = KeyReady logs mappingForFile finalKeyRaw /\
    importKey finalKeyRaw = Some cryptoKey /\
    lookupIv mappingForFile callString = Some ivBase64 /\
    decryptText cryptoKey ivBase64 callString = Some plaintext /\
    nth_error (JsString.split JsString.isDash plaintext) 1 = Some functionName /\
    windowHasFunction functionName = true.
Proof.
  intros tree ivs live callString callee args. cbv zeta. unfold routerForwardCall.
  pose proof (routerSync_quiet tree ivs live callee) as Hquiet.
  destruct (routerSync tree ivs live callee) as [events c|events m key] eqn:Esync;
    cbn [fst]; [left; exact Hquiet|].
  rewrite filter_app, Hquiet. cbn [app]. unfold routerAsync.
  destruct (importKey key) as [ck|] eqn:Eimp; [|left; reflexivity].
  destruct (lookupIv m callString) as [iv|] eqn:Eiv.
  - destruct (JsString.truthy iv).
    + destruct (decryptText ck iv callString) as [plaintext|] eqn:Edec; [|left; reflexivity].
      destruct (callWithPlaintext_invokes plaintext callee args) as [Hq|[f [a [Hf [Hw Hq]]]]].
      * left. exact Hq.
      * right. exists f, a, events, m, key, ck, iv, plaintext.
        repeat split; assumption.
    + cbn [filter isInvoke]. left.
      rewrite catchHandler_filter.
      apply noDispatch_filter, empty_plaintext_noDispatch.
  - cbn [filter isInvoke]. left.
    rewrite catchHandler_filter.
    apply noDispatch_filter, empty_plaintext_noDispatch.
Qed.

End DispatchFacts.

(* ----------------------------------------------------------------- *)
(** ** The key and the live hashes *)

Lemma xorBytes_zero_r : forall (n : nat) (a : Uint8Array),
  List.length a = n -> xorBytes a (newUint8Array n) = a.
Proof.
  intros n a Hlen. rewrite xorBytes_comm. apply xorBytes_zero_l, Hlen.
Qed.

Lemma xorBytes_cancel_r : forall a b c : Uint8Array,
  List.length a = List.length c -> List.length b = List.length c ->
  xorBytes a c = xorBytes b c -> a = b.
Proof.
  intros a b c Ha Hb Heq.
  rewrite <- (xorBytes_involutive a c Ha), <- (xorBytes_involutive b c Hb), Heq.
  reflexivity.
Qed.

Lemma xorBytes_cancel_l : forall a b c : Uint8Array,
  List.length a = List.length c -> List.length b = List.length c ->
  xorBytes c a = xorBytes c b -> a = b.
Proof.
  intros a b c Ha Hb Heq. apply (xorBytes_cancel_r a b c Ha Hb).
  rewrite (xorBytes_comm a c), (xorBytes_comm b c). exact Heq.
Qed.

Lemma fold_xorBytes_middle : forall (l1 l2 : list Uint8Array) (h acc : Uint8Array),
  fold_left xorBytes (l1 ++ h :: l2) acc = xorBytes (fold_left xorBytes (l1 ++ l2) acc) h.
Proof.
  intros l1 l2 h acc.
  rewrite (fold_xorBytes_perm (l1 ++ h :: l2) ((l1 ++ l2) ++ [h])).
  - rewrite fold_left_app. reflexivity.
  - apply Permutation_sym. eapply Permutation_trans.
    + apply Permutation_sym, Permutation_cons_append.
    + apply Permutation_middle.
Qed.

Section LiveFacts.
Variable live : dict string.
Hypothesis live_well_formed : forall name h,
  dict_get name live = Some h -> h = "" \/ String.length h = 64.

Lemma liveBytes_length : forall file, List.length (liveBytes live file) = 32.
Proof.
  intros file. unfold liveBytes, liveHash.
  destruct (dict_get (routerFileName file) live) as [h|] eqn:E; [|apply repeat_length].
  destruct (live_well_formed _ _ E) as [->|Hlen]; [apply repeat_length|].
  destruct h as [|a h]; [discriminate|]. cbn [JsString.truthy].
  rewrite hexPairs_length, Hlen. reflexivity.
Qed.

Lemma foldLive_as_bytes : forall branch acc,
  List.length acc = 32 ->
  foldExc (foldLiveHash live) branch acc
  = Ok (fold_left xorBytes (map (liveBytes live) branch) acc).
Proof.
  induction branch as [|file branch IH]; intros acc Hacc; [reflexivity|].
  cbn [foldExc map fold_left].
  assert (Hstep : foldLiveHash live acc file = Ok (xorBytes acc (liveBytes live file))).
  { rewrite foldLiveHash_liveHash. unfold liveBytes.
    destruct (liveHash live (routerFileName file)) as [h|] eqn:E.
    - unfold liveHash in E.
      destruct (dict_get (routerFileName file) live) as [h'|] eqn:Eg; [|discriminate].
      destruct (live_well_formed _ _ Eg) as [->|Hlen]; [discriminate|].
      destruct (JsString.truthy h'); [|discriminate]. injection E as <-.
      destruct (hexStringToUint8Array_64 h' Hlen) as [Hdec Hl].
      rewrite Hdec. cbn [bind]. apply xorBuffers_ok. lia.
    - rewrite xorBytes_zero_r by exact Hacc. reflexivity. }
  rewrite Hstep. cbn [bind]. apply IH.
  rewrite xorBytes_length, liveBytes_length. lia.
Qed.

End LiveFacts.

Lemma liveBytes_set_same : forall live name h file,
  String.length h = 64 -> routerFileName file = name ->
  liveBytes (dict_set name h live) file = hexPairs h.
Proof.
  intros live name h file Hlen <-. unfold liveBytes, liveHash.
  rewrite dict_get_set_same. destruct h; [discriminate|reflexivity].
Qed.

Lemma liveBytes_set_other : forall live name h file,
  routerFileName file <> name ->
  liveBytes (dict_set name h live) file = liveBytes live file.
Proof.
  intros live name h file Hne. unfold liveBytes, liveHash.
  rewrite dict_get_set_other by exact Hne. reflexivity.
Qed.

Lemma liveBytes_map_other : forall live name h files,
  (forall g, In g files -> routerFileName g <> name) ->
  map (liveBytes (dict_set name h live)) files = map (liveBytes live) files.
Proof.
  intros live name h files Hne. apply map_ext_in.
  intros g Hg. apply liveBytes_set_other, Hne, Hg.
Qed.

Lemma well_formed_set : forall (live : dict string) name h,
  (forall n x, dict_get n live = Some x -> x = "" \/ String.length x = 64) ->
  String.length h = 64 ->
  forall n x, dict_get n (dict_set name h live) = Some x -> x = "" \/ String.length x = 64.
Proof.
  intros live name h Hwf Hlen n x Hget.
  destruct (String.eqb n name) eqn:E.
  - apply String.eqb_eq in E. subst n. rewrite dict_get_set_same in Hget.
    injection Hget as <-. right. exact Hlen.
  - apply String.eqb_neq in E. rewrite dict_get_set_other in Hget by exact E.
    apply (Hwf n x Hget).
Qed.

(** What a call that reaches a key went through. *)
Lemma routerSync_KeyReady_inv : forall tree ivs live callee events m key,
  routerSync tree ivs live callee = KeyReady events m key ->
  exists maskHex branch xorResult maskBuffer,
    dict_get (normalizeCallee callee) ivs = Some m /\
    dict_get "mask" m = Some maskHex /\ maskHex <> "" /\
    collectBranch tree (normalizeCallee callee) = Ok branch /\ branch <> [] /\
    foldExc (foldLiveHash live) branch (newUint8Array 32) = Ok xorResult /\
    hexStringToUint8Array maskHex = Ok maskBuffer /\
    List.length xorResult = List.length maskBuffer /\
    key = xorBytes xorResult maskBuffer.
Proof.
  intros tree ivs live callee events m key Hsync. unfold routerSync in Hsync.
  destruct (dict_get (normalizeCallee callee) ivs) as [m'|] eqn:Em; [|discriminate].
  destruct (dict_get "mask" m') as [maskHex|] eqn:Emask; [|discriminate].
  destruct maskHex as [|c maskHex]; [discriminate|]. cbn [JsString.truthy negb] in Hsync.
  unfold lift in Hsync.
  destruct (collectBranch tree (normalizeCallee callee)) as [branch|e] eqn:Eb;
    [|discriminate].
  destruct branch as [|f branch]; [discriminate|].
  cbn [List.length Nat.eqb] in Hsync.
  destruct (foldExc (foldLiveHash live) (f :: branch) (newUint8Array 32)) as [xr|e] eqn:Ef;
    [|discriminate].
  cbn [truthyObject negb] in Hsync.
  destruct (hexStringToUint8Array (String c maskHex)) as [mb|e] eqn:Eh; [|discriminate].
  unfold xorBuffers, xorBuffersWith in Hsync.
  destruct (List.length xr =? List.length mb) eqn:El; cbn [negb] in Hsync; [|discriminate].
  injection Hsync as <- <- <-.
  exists (String c maskHex), (f :: branch), xr, mb.
  apply Nat.eqb_eq in El.
  repeat split; try assumption; try reflexivity; discriminate.
Qed.

Lemma routerSync_from_fold : forall tree ivs live callee m maskHex branch xorResult maskBuffer,
  dict_get (normalizeCallee callee) ivs = Some m ->
  dict_get "mask" m = Some maskHex -> maskHex <> "" ->
  collectBranch tree (normalizeCallee callee) = Ok branch -> branch <> [] ->
  foldExc (foldLiveHash live) branch (newUint8Array 32) = Ok xorResult ->
  hexStringToUint8Array maskHex = Ok maskBuffer ->
  List.length xorResult = List.length maskBuffer ->
  routerSync tree ivs live callee
  = KeyReady [ConsoleLog "xorOfHashes (hex):"; ConsoleLog "Final key (hex):"]
             m (xorBytes xorResult maskBuffer).
Proof.
  intros tree ivs live callee m maskHex branch xr mb Em Emask Hne Eb Hb Ef Eh El.
  rewrite (routerSync_branch tree ivs live callee m maskHex Em Emask Hne).
  rewrite Eb. cbn [lift].
  destruct branch as [|f branch]; [congruence|]. cbn [List.length Nat.eqb].
  rewrite Ef. cbn [lift]. rewrite Eh. cbn [lift].
  rewrite xorBuffers_ok by exact El. reflexivity.
Qed.

(** X16. Tamper sensitivity of the key.  Let a call reach a key, with live
    hashes of 64 characters, and let [file] be a file of the branch whose
    bare name no other file of the branch has.  When the listener stores
    another hash for that name, one that decodes to other bytes than were
    folded for the file before, the same call reaches a key again and the
    key is a different one. *)
Theorem key_changes_with_the_hash_of_a_branch_file :
  forall (tree : DependencyTree) (ivs : dict (dict string)) (live : dict string)
         (callee : string) (events : list Event) (m : dict string) (key : Uint8Array)
         (before after : list string) (file newHash : string),
  (forall name h, dict_get name live = Some h -> h = "" \/ String.length h = 64) ->
  String.length newHash = 64 ->
  routerSync tree ivs live callee = KeyReady events m key ->
  collectBranch tree (normalizeCallee callee) = Ok (before ++ file :: after) ->
  (forall g, In g (before ++ after) -> routerFileName g <> routerFileName file) ->
  hexPairs newHash <> liveBytes live file ->
  exists key',
    routerSync tree ivs (dict_set (routerFileName file) newHash live) callee
    = KeyReady events m key' /\
    key' <> key.
Proof.
  intros tree ivs live callee events m key before after file newHash
         Hwf Hlen Hsync Hbranch Hunique Hdiff.
  pose proof (routerSync_KeyReady_events _ _ _ _ _ _ _ Hsync) as Hev.
  destruct (routerSync_KeyReady_inv _ _ _ _ _ _ _ Hsync)
    as [maskHex [branch [xr [mb [Em [Emask [Hne [Eb [Hb [Ef [Eh [El Hkey]]]]]]]]]]]].
  rewrite Hbranch in Eb. injection Eb as <-.
  set (name := routerFileName file) in *.
  set (live' := dict_set name newHash live).
  assert (Hwf' : forall n x, dict_get n live' = Some x -> x = "" \/ String.length x = 64)
    by (apply well_formed_set; assumption).
  rewrite (foldLive_as_bytes live Hwf) in Ef by apply repeat_length.
  injection Ef as Hxr.
  rewrite map_app in Hxr. cbn [map] in Hxr. rewrite fold_xorBytes_middle in Hxr.
  set (others := fold_left xorBytes (map (liveBytes live) before ++ map (liveBytes live) after)
                           (newUint8Array 32)) in *.
  assert (Hothers : List.length others = 32).
  { subst others. rewrite <- map_app.
    apply (foldExc_xorBuffers 32); [apply repeat_length|].
    apply Forall_forall. intros v Hv. apply in_map_iff in Hv.
    destruct Hv as [g [<- _]]. apply liveBytes_length, Hwf. }
  assert (Hfold' : foldExc (foldLiveHash live') (before ++ file :: after) (newUint8Array 32)
                   = Ok (xorBytes others (hexPairs newHash))).
  { rewrite (foldLive_as_bytes live' Hwf') by apply repeat_length. f_equal.
    rewrite map_app. cbn [map]. rewrite fold_xorBytes_middle.
    unfold live'. rewrite (liveBytes_set_same live name newHash file Hlen eq_refl).
    rewrite <- map_app, (liveBytes_map_other live name newHash (before ++ after) Hunique).
    rewrite map_app. reflexivity. }
  assert (Hnew : List.length (hexPairs newHash) = 32)
    by (rewrite hexPairs_length, Hlen; reflexivity).
  assert (Hold : List.length (liveBytes live file) = 32) by (apply liveBytes_length, Hwf).
  assert (Hxrl : List.length xr = 32)
    by (rewrite <- Hxr, xorBytes_length; lia).
  exists (xorBytes (xorBytes others (hexPairs newHash)) mb). split.
  - rewrite Hev.
    apply (routerSync_from_fold tree ivs live' callee m maskHex (before ++ file :: after));
      try assumption.
    rewrite xorBytes_length. lia.
  - intros Heq. apply Hdiff. rewrite Hkey, <- Hxr in Heq.
    apply xorBytes_cancel_r in Heq; [|rewrite xorBytes_length; lia|rewrite xorBytes_length; lia].
    apply xorBytes_cancel_l in Heq; [exact Heq|lia|lia].
Qed.

(** X17. Two files of the branch with one bare name cancel.  Let a call
    reach a key, with live hashes of 64 characters, and let exactly two
    files of the branch, in different folders, have the bare name [name].
    Whatever hash the listener stores for that name, the call reaches the
    same key: the key does not depend on the content of either file. *)
Theorem same_bare_name_twice_cancels :
  forall (tree : DependencyTree) (ivs : dict (dict string)) (live : dict string)
         (callee : string) (events : list Event) (m : dict string) (key : Uint8Array)
         (first between last : list string) (file twin newHash : string),
  (forall name h, dict_get name live = Some h -> h = "" \/ String.length h = 64) ->
  String.length newHash = 64 ->
  routerSync tree ivs live callee = KeyReady events m key ->
  collectBranch tree (normalizeCallee callee)
    = Ok (first ++ file :: between ++ twin :: last) ->
  routerFileName twin = routerFileName file ->
  (forall g, In g (first ++ between ++ last) -> routerFileName g <> routerFileName file) ->
  routerSync tree ivs (dict_set (routerFileName file) newHash live) callee
  = KeyReady events m key.
Proof.
  intros tree ivs live callee events m key first between last file twin newHash
         Hwf Hlen Hsync Hbranch Htwin Hunique.
  pose proof (routerSync_KeyReady_events _ _ _ _ _ _ _ Hsync) as Hev.
  destruct (routerSync_KeyReady_inv _ _ _ _ _ _ _ Hsync)
    as [maskHex [branch [xr [mb [Em [Emask [Hne [Eb [Hb [Ef [Eh [El Hkey]]]]]]]]]]]].
  rewrite Hbranch in Eb. injection Eb as <-.
  set (name := routerFileName file) in *.
  set (live' := dict_set name newHash live).
  assert (Hwf' : forall n x, dict_get n live' = Some x -> x = "" \/ String.length x = 64)
    by (apply well_formed_set; assumption).
  assert (Hcancel : forall table,
             (forall n x, dict_get n table = Some x -> x = "" \/ String.length x = 64) ->
             foldExc (foldLiveHash table) (first ++ file :: between ++ twin :: last)
                     (newUint8Array 32)
             = Ok (fold_left xorBytes (map (liveBytes table) (first ++ between ++ last))
                             (newUint8Array 32))).
  { intros table Htable.
    rewrite (foldLive_as_bytes table Htable) by apply repeat_length. f_equal.
    rewrite map_app. cbn [map]. rewrite fold_xorBytes_middle.
    rewrite map_app. cbn [map]. rewrite app_assoc, fold_xorBytes_middle.
    assert (Hsame : liveBytes table twin = liveBytes table file)
      by (unfold liveBytes; rewrite Htwin; reflexivity).
    rewrite Hsame, xorBytes_involutive.
    - rewrite <- app_assoc, <- !map_app. reflexivity.
    - rewrite liveBytes_length by exact Htable.
      rewrite <- app_assoc, <- !map_app.
      apply (foldExc_xorBuffers 32); [apply repeat_length|].
      apply Forall_forall. intros v Hv. apply in_map_iff in Hv.
      destruct Hv as [g [<- _]]. apply liveBytes_length, Htable. }
  rewrite (Hcancel live Hwf) in Ef. injection Ef as Hxr.
  rewrite Hev, Hkey, <- Hxr.
  apply (routerSync_from_fold tree ivs live' callee m maskHex
           (first ++ file :: between ++ twin :: last)); try assumption.
  - rewrite (Hcancel live' Hwf'). unfold live'.
    rewrite (liveBytes_map_other live name newHash _ Hunique). reflexivity.
  - rewrite Hxr. exact El.
Qed.

Lemma sample_live_hashes_well_formed : forall (live : dict string),
  forallb (fun kv => (String.length (snd kv) =? 64) || (String.length (snd kv) =? 0)) live = true ->
  forall name h, dict_get name live = Some h -> h = "" \/ String.length h = 64.
Proof.
  intros live Hall name h Hget. apply dict_get_In in Hget.
  rewrite forallb_forall in Hall. specialize (Hall _ Hget). cbn [snd] in Hall.
  apply orb_true_iff in Hall. destruct Hall as [H64|H0].
  - right. apply Nat.eqb_eq, H64.
  - left. apply Nat.eqb_eq in H0. destruct h; [reflexivity|discriminate].
Qed.

Lemma key_changes_with_the_hash_of_a_branch_file_witness :
  exists key',
    routerSync Sample.tree Sample.ivsMapping
               (dict_set (routerFileName Sample.file1) Sample.hexB Sample.globalHashes) "file3"
    = KeyReady [ConsoleLog "xorOfHashes (hex):"; ConsoleLog "Final key (hex):"]
               [("mask", Sample.maskHex); ("CT-static", "iv-static");
                ("CT-dynamic", "iv-dynamic")] key' /\
    key' <> xorBytes Sample.hashA Sample.maskBytes.
Proof.
  apply (key_changes_with_the_hash_of_a_branch_file Sample.tree Sample.ivsMapping
           Sample.globalHashes "file3" _ _ _ [] [] Sample.file1 Sample.hexB).
  - apply sample_live_hashes_well_formed. vm_compute. reflexivity.
  - vm_compute. reflexivity.
  - vm_compute. reflexivity.
  - vm_compute. reflexivity.
  - intros g [].
  - vm_compute. discriminate.
Defined.

Lemma same_bare_name_twice_cancels_witness :
  routerSync More.twinTree Sample.rMapping
             (dict_set (routerFileName More.utilA) Sample.hexB More.twinLive) "r"
  = KeyReady [ConsoleLog "xorOfHashes (hex):"; ConsoleLog "Final key (hex):"]
             [("mask", Sample.maskHex)] Sample.maskBytes.
Proof.
  apply (same_bare_name_twice_cancels More.twinTree Sample.rMapping More.twinLive "r"
           _ _ _ [] [] [] More.utilA More.utilB Sample.hexB).
  - apply sample_live_hashes_well_formed. vm_compute. reflexivity.
  - vm_compute. reflexivity.
  - vm_compute. reflexivity.
  - vm_compute. reflexivity.
  - vm_compute. reflexivity.
  - intros g [].
Defined.

(* ----------------------------------------------------------------- *)
(** ** Tables written key by key *)

(** After [for (x of l) d[k(x)] = v(x)], a key holds the value of the last
    [x] that has it. *)
Lemma fold_dict_set_last : forall (A V : Type) (k : A -> string) (v : A -> V)
    (l : list A) (d0 : dict V) (key : string),
  dict_get key (fold_left (fun d x => dict_set (k x) (v x) d) l d0)
  = match find (fun x => String.eqb (k x) key) (rev l) with
    | Some x => Some (v x)
    | None => dict_get key d0
    end.
Proof.
  intros A V k v l d0 key. induction l as [|x l IH] using rev_ind; [reflexivity|].
  rewrite fold_left_app, rev_app_distr. cbn [fold_left rev app find].
  destruct (String.eqb (k x) key) eqn:E.
  - apply String.eqb_eq in E. rewrite <- E. apply dict_get_set_same.
  - apply String.eqb_neq in E. rewrite dict_get_set_other by (intros Hk; apply E; symmetry; exact Hk).
    exact IH.
Qed.

Lemma fold_dict_set_keys_NoDup : forall (A V : Type) (k : A -> string) (v : A -> V)
    (l : list A) (d0 : dict V),
  NoDup (dict_keys d0) ->
  NoDup (dict_keys (fold_left (fun d x => dict_set (k x) (v x) d) l d0)).
Proof.
  intros A V k v l. induction l as [|x l IH]; intros d0 Hnd; [exact Hnd|].
  cbn [fold_left]. apply IH, dict_set_NoDup, Hnd.
Qed.

Lemma dict_values_unique : forall (V : Type) (d : dict V) (k : string) (v v' : V),
  NoDup (dict_keys d) -> In (k, v) d -> In (k, v') d -> v = v'.
Proof.
  intros V d k v v' Hnd Hv Hv'.
  apply (dict_In_get _ _ _ Hnd) in Hv. apply (dict_In_get _ _ _ Hnd) in Hv'.
  congruence.
Qed.

(* ----------------------------------------------------------------- *)
(** ** The verifier and its table *)

Lemma verifyLoop_compared : forall simplified live files seen,
  exists done, compared (verifyLoop simplified live seen files) = seen ++ done /\
               exists rest, files = done ++ rest.
Proof.
  intros simplified live. induction files as [|file files IH]; intros seen.
  - exists []. split; [cbn; rewrite app_nil_r; reflexivity|exists []; reflexivity].
  - cbn [verifyLoop].
    match goal with |- context [if ?b then _ else _] => destruct b end.
    + exists [file]. split; [reflexivity|exists files; reflexivity].
    + destruct (IH (seen ++ [file])) as [done [Hc [rest Hr]]].
      exists (file :: done). split.
      * rewrite Hc, <- app_assoc. reflexivity.
      * exists rest. rewrite Hr. reflexivity.
Qed.

(** X18. The first loop of [verifyHashes] re-keys the precomputed table by
    bare file name with a plain assignment: when several entries have one
    bare name the last of them is the one that is compared, the earlier ones
    never are, and no name is compared twice. *)
Theorem verifier_compares_last_entry_of_a_name :
  forall (precomputed globalHashes : dict string) (fileName : string),
  dict_get fileName (simplifyPrecomputed precomputed)
  = option_map snd (find (fun kv => String.eqb (verifierFileName (fst kv)) fileName)
                         (rev precomputed)) /\
  NoDup (compared (verifyHashes precomputed globalHashes)).
Proof.
  intros precomputed live fileName. split.
  - unfold simplifyPrecomputed.
    rewrite (fold_dict_set_last (string * string) string
               (fun kv => verifierFileName (fst kv)) snd).
    destruct (find _ (rev precomputed)); reflexivity.
  - unfold verifyHashes.
    destruct (verifyLoop_compared (simplifyPrecomputed precomputed) live
                (dict_keys (simplifyPrecomputed precomputed)) [])
      as [done [Hc [rest Hr]]].
    rewrite Hc. cbn [app].
    assert (Hnd : NoDup (dict_keys (simplifyPrecomputed precomputed))).
    { unfold simplifyPrecomputed.
      apply (fold_dict_set_keys_NoDup (string * string) string
               (fun kv => verifierFileName (fst kv)) snd).
      constructor. }
    rewrite Hr in Hnd. apply NoDup_app_remove_r in Hnd. exact Hnd.
Qed.

Lemma verifyLoop_overlay : forall simplified live files seen file,
  In file files -> dict_get file live = None ->
  (forall f, In f files -> In f (dict_keys simplified)) ->
  emitted (verifyLoop simplified live seen files)
  = [ConsoleWarn "Mismatch per"; InsertOverlay].
Proof.
  intros simplified live. induction files as [|f files IH]; intros seen file Hin Hnone Hkeys;
    [destruct Hin|].
  cbn [verifyLoop].
  match goal with |- context [if ?b then _ else _] => destruct b eqn:Eb end;
    [reflexivity|].
  destruct Hin as [->|Hin].
  - exfalso. rewrite Hnone in Eb.
    assert (Hk : In file (dict_keys simplified)) by (apply Hkeys; left; reflexivity).
    destruct (dict_get file simplified) as [h|] eqn:Eg.
    + rewrite orb_true_r in Eb. discriminate.
    + apply dict_get_None in Eg. contradiction.
  - apply (IH (seen ++ [f]) file Hin Hnone).
    intros g Hg. apply Hkeys. right. exact Hg.
Qed.

(** X19. The start-up statement verifies once, as soon as [globalHashes]
    is not empty.  If at that poll the hash of a file of the precomputed
    table has not arrived yet, the verifier warns of a mismatch and inserts
    the tamper overlay, whatever the hashes that did arrive. *)
Theorem startup_overlay_on_partial_table :
  forall (fuel : nat) (env : PageEnv) (startTime : Z) (precomputed : dict string)
         (poll : nat) (now : Z) (fileName : string),
  waitForGlobalHashes fuel defaultTimeout defaultInterval env startTime
    = Some (Resolved poll now) ->
  In fileName (dict_keys (simplifyPrecomputed precomputed)) ->
  dict_get fileName (hashesAt env now) = None ->
  startup fuel env startTime precomputed = Some [ConsoleWarn "Mismatch per"; InsertOverlay].
Proof.
  intros fuel env startTime precomputed poll now fileName Hwait Hin Hnone.
  unfold startup. rewrite Hwait. f_equal. unfold verifyHashes.
  apply (verifyLoop_overlay _ _ _ [] fileName Hin Hnone). auto.
Qed.

(** X20. [verifyHashes] with a constant that cannot be decoded:
    [decodePrecomputedHashes] logs the error and returns an empty table, over
    which the comparison loop does not run.  Whatever [globalHashes] holds,
    nothing is compared, the success line is logged and no overlay is
    inserted.  The same holds for a constant that decodes to an empty
    table. *)
Theorem undecodable_table_passes :
  forall (atobJson : string -> option (dict string)) (encodedStr : string)
         (globalHashes : dict string),
  atobJson encodedStr = None \/ atobJson encodedStr = Some [] ->
  compared (verifyHashesEncoded atobJson encodedStr globalHashes) = [] /\
  ~ In InsertOverlay (emitted (verifyHashesEncoded atobJson encodedStr globalHashes)) /\
  last (emitted (verifyHashesEncoded atobJson encodedStr globalHashes)) InsertOverlay
    = ConsoleLog "Tutti gli hash combaciano.".
Proof.
  intros atobJson encodedStr live Hdec.
  unfold verifyHashesEncoded, decodePrecomputedHashes.
  destruct Hdec as [-> | ->]; cbn.
  - split; [reflexivity|]. split; [|reflexivity].
    intros [Hf|[Hf|[]]]; discriminate.
  - split; [reflexivity|]. split; [|reflexivity].
    intros [Hf|[]]; discriminate.
Qed.

Lemma startup_overlay_on_partial_table_witness :
  startup 51 {| timerLateness := fun _ => 0%Z;
                hashesAt := fun _ => [("other.js", Sample.hexB)] |}
          1000 Sample.windowsPrecomputed
  = Some [ConsoleWarn "Mismatch per"; InsertOverlay].
Proof.
  apply (startup_overlay_on_partial_table 51 _ 1000 Sample.windowsPrecomputed
           0 1000%Z "file1.js").
  - vm_compute. reflexivity.
  - vm_compute. left. reflexivity.
  - vm_compute. reflexivity.
Defined.

Lemma undecodable_table_passes_witness :
  compared (verifyHashesEncoded More.atobJson "garbage" Sample.globalHashes) = [] /\
  ~ In InsertOverlay (emitted (verifyHashesEncoded More.atobJson "garbage" Sample.globalHashes)) /\
  last (emitted (verifyHashesEncoded More.atobJson "garbage" Sample.globalHashes)) InsertOverlay
    = ConsoleLog "Tutti gli hash combaciano.".
Proof.
  apply (undecodable_table_passes More.atobJson "garbage" Sample.globalHashes).
  left. vm_compute. reflexivity.
Defined.

(* ----------------------------------------------------------------- *)
(** ** The mapping the build writes, read by the run time *)

(** X21. The build writes [mapping[file]] as the mask followed by one
    entry per encrypted call, ciphertext to IV; [routerForwardCall] looks the
    IV up by the call string.  For every string but "mask" the run time finds
    the IV of the last call that has that ciphertext, and nothing when no
    call has it; and while no ciphertext is the string "mask", it finds the
    mask of the record under "mask".  The mapping of a file is found under
    the key the file has in [encryptionKeys]. *)
Theorem mapping_lookup_round_trip : forall (keys : RouterFileKeys) (callString : string),
  (forall encryptionKeys file,
     NoDup (dict_keys encryptionKeys) -> In (file, keys) encryptionKeys ->
     dict_get file (buildMapping encryptionKeys) = Some (mappingForKeys keys)) /\
  (callString <> "mask" ->
   lookupIv (mappingForKeys keys) callString
   = option_map iv (find (fun call => String.eqb (ciphertext call) callString)
                         (rev (encryptedCalls keys)))) /\
  ((forall call, In call (encryptedCalls keys) -> ciphertext call <> "mask") ->
   dict_get "mask" (mappingForKeys keys) = Some (mask (keyRecord keys))) /\
  lookupIv (mappingForKeys keys) "mask" = None.
Proof.
  intros keys callString. split; [|unfold mappingForKeys, lookupIv; split; [|split]].
  - intros encryptionKeys file Hnd Hin. unfold buildMapping.
    rewrite (fold_dict_set_last (string * RouterFileKeys) (dict string) fst
               (fun kv => mappingForKeys (snd kv))).
    destruct (find _ (rev encryptionKeys)) as [[file' keys']|] eqn:Ef.
    + apply find_some in Ef. destruct Ef as [Hin' Heq].
      apply String.eqb_eq in Heq. cbn [fst] in Heq. subst file'. apply in_rev in Hin'.
      cbn [snd]. rewrite (dict_values_unique _ _ _ _ _ Hnd Hin Hin'). reflexivity.
    + apply in_rev in Hin. pose proof (find_none _ _ Ef (file, keys) Hin) as Hno.
      cbn [fst] in Hno. rewrite String.eqb_refl in Hno. discriminate.
  - intros Hne. apply String.eqb_neq in Hne. rewrite Hne.
    rewrite (fold_dict_set_last EncryptedCall string ciphertext iv).
    destruct (find _ (rev (encryptedCalls keys))); [reflexivity|].
    cbn [dict_set dict_get option_map]. rewrite Hne. reflexivity.
  - intros Hcalls.
    rewrite (fold_dict_set_last EncryptedCall string ciphertext iv).
    destruct (find _ (rev (encryptedCalls keys))) as [call|] eqn:Ef.
    + apply find_some in Ef. destruct Ef as [Hin Heq].
      apply String.eqb_eq in Heq. apply in_rev in Hin.
      exfalso. exact (Hcalls call Hin Heq).
    + reflexivity.
  - reflexivity.
Qed.

Lemma mapping_lookup_round_trip_witness :
  lookupIv (mappingForKeys More.keys) "CT-2" = Some "iv-2" /\
  dict_get "mask" (mappingForKeys More.keys) = Some Sample.maskHex.
Proof.
  destruct (mapping_lookup_round_trip More.keys "CT-2") as [_ [Hiv [Hmask _]]].
  split.
  - rewrite Hiv; [reflexivity|]. vm_compute. discriminate.
  - rewrite Hmask; [reflexivity|].
    intros call Hin. vm_compute in Hin.
    destruct Hin as [<-|[<-|[]]]; vm_compute; discriminate.
Defined.

(* ----------------------------------------------------------------- *)
(** ** The branch of the earlier Router.js *)

Lemma collectDepsEarly_loop : forall n b,
  collectDepsEarly n b = collectDepsEarlyLoop (dependencies n) b.
Proof. intros [flag deps] b. reflexivity. Qed.

Lemma collectDepsEarlyLoop_cons : forall dep child rest b,
  collectDepsEarlyLoop ((dep, child) :: rest) b
  = collectDepsEarlyLoop rest
      (collectDepsEarlyLoop (dependencies child)
         (if negb (routerDependant child) then b ++ [dep] else b)).
Proof.
  intros dep child rest b. unfold collectDepsEarlyLoop at 1. cbn [fold_left fst snd].
  rewrite collectDepsEarly_loop. reflexivity.
Qed.

Lemma collectDepsEarlyLoop_app : forall deps b,
  collectDepsEarlyLoop deps b = b ++ collectDepsEarlyLoop deps [].
Proof.
  induction deps as [|dep child rest IHc IHr] using forest_ind; intros b.
  - cbn. rewrite app_nil_r. reflexivity.
  - rewrite !collectDepsEarlyLoop_cons.
    set (p := if negb (routerDependant child) then b ++ [dep] else b).
    set (p0 := if negb (routerDependant child) then [] ++ [dep] else []).
    rewrite (IHr (collectDepsEarlyLoop (dependencies child) p)), (IHc p).
    rewrite (IHr (collectDepsEarlyLoop (dependencies child) p0)), (IHc p0).
    subst p p0.
    destruct (negb (routerDependant child)); cbn [app]; rewrite <- ?app_assoc; reflexivity.
Qed.

(** The earlier loop lists every entry that is not router-dependent. *)
Lemma collectDepsEarlyLoop_nodes : forall deps,
  collectDepsEarlyLoop deps []
  = map fst (filter (fun node => negb (snd node)) (forestNodes deps)).
Proof.
  induction deps as [|dep child rest IHc IHr] using forest_ind; [reflexivity|].
  rewrite collectDepsEarlyLoop_cons, forestNodes_cons.
  rewrite collectDepsEarlyLoop_app, (collectDepsEarlyLoop_app (dependencies child)).
  cbn [filter snd]. rewrite filter_app, IHc, IHr.
  destruct (negb (routerDependant child)); cbn [app map fst]; rewrite map_app; reflexivity.
Qed.

Lemma firstOccurrences_app : forall l1 l2 seen,
  firstOccurrences (l1 ++ l2) seen = firstOccurrences l2 (firstOccurrences l1 seen).
Proof. intros l1 l2 seen. unfold firstOccurrences. apply fold_left_app. Qed.

Lemma firstOccurrences_In : forall l seen x,
  In x (firstOccurrences l seen) <-> In x seen \/ In x l.
Proof.
  unfold firstOccurrences. induction l as [|y l IH]; intros seen x; cbn [fold_left].
  - split; [auto|intros [Hs|[]]; exact Hs].
  - rewrite IH, set_add_In. cbn [In]. intuition.
Qed.

Lemma firstOccurrences_NoDup : forall l seen,
  NoDup seen -> NoDup (firstOccurrences l seen).
Proof.
  unfold firstOccurrences. induction l as [|y l IH]; intros seen Hnd; [exact Hnd|].
  cbn [fold_left]. apply IH, set_add_NoDup, Hnd.
Qed.

Lemma firstOccurrences_id : forall l seen,
  NoDup (seen ++ l) -> firstOccurrences l seen = seen ++ l.
Proof.
  unfold firstOccurrences. induction l as [|y l IH]; intros seen Hnd; cbn [fold_left].
  - rewrite app_nil_r. reflexivity.
  - assert (Hy : set_has y seen = false).
    { apply set_has_false. intros Hin. apply NoDup_remove_2 in Hnd.
      apply Hnd, in_or_app. left. exact Hin. }
    unfold set_add. rewrite Hy.
    rewrite IH; rewrite <- app_assoc; [reflexivity|exact Hnd].
Qed.

Lemma pushDep_same : forall dep child b,
  pushDep dep child (b, b)
  = (if negb (routerDependant child) then set_add dep b else b,
     if negb (routerDependant child) then set_add dep b else b).
Proof.
  intros dep child b. unfold pushDep. cbn [fst snd].
  destruct (negb (routerDependant child)); [|reflexivity]. cbn [andb].
  unfold set_add. destruct (set_has dep b); reflexivity.
Qed.

Lemma collectDepsLoop_early : forall deps b,
  collectDepsLoop deps (b, b)
  = (firstOccurrences (collectDepsEarlyLoop deps []) b,
     firstOccurrences (collectDepsEarlyLoop deps []) b).
Proof.
  induction deps as [|dep child rest IHc IHr] using forest_ind; intros b; [reflexivity|].
  rewrite collectDepsLoop_cons, pushDep_same, IHc, IHr.
  rewrite collectDepsEarlyLoop_cons.
  set (p0 := if negb (routerDependant child) then [] ++ [dep] else []).
  rewrite (collectDepsEarlyLoop_app rest (collectDepsEarlyLoop (dependencies child) p0)).
  rewrite (collectDepsEarlyLoop_app (dependencies child) p0).
  rewrite !firstOccurrences_app. subst p0.
  destruct (negb (routerDependant child)); reflexivity.
Qed.

(** X22. The branch of the two versions of [routerForwardCall], at a root
    that is router-dependent.  The earlier version (no [visited] Set) lists
    every entry below the root that is not router-dependent, once per
    occurrence; the later version lists the same files with the repetitions
    left out, first occurrences in place.  The two branches have the same
    files, the later one has none twice, and they are the same list when no
    file occurs twice in the earlier one. *)
Theorem branch_is_early_branch_without_repetitions :
  forall (tree : DependencyTree) (fileKey root : string) (node : DependencyNode),
  findRoot tree fileKey = Some root ->
  dict_get root tree = Some node ->
  routerDependant node = true ->
  exists early branch,
    collectBranchEarly tree fileKey = Ok early /\
    collectBranch tree fileKey = Ok branch /\
    early = map fst (filter (fun entry => negb (snd entry)) (nodesBelow node)) /\
    branch = firstOccurrences early [] /\
    NoDup branch /\
    (forall file, In file branch <-> In file early) /\
    (NoDup early -> branch = early).
Proof.
  intros tree fileKey root node Hroot Hnode Hrd.
  exists (collectDepsEarlyLoop (dependencies node) []),
         (firstOccurrences (collectDepsEarlyLoop (dependencies node) []) []).
  split; [|split; [|split; [|split; [|split; [|split]]]]].
  - unfold collectBranchEarly. rewrite Hroot, Hnode, Hrd. cbn [negb].
    rewrite collectDepsEarly_loop. reflexivity.
  - unfold collectBranch. rewrite Hroot, Hnode, Hrd. cbn [negb andb].
    rewrite collectDeps_loop, collectDepsLoop_early. reflexivity.
  - rewrite nodesBelow_forest. apply collectDepsEarlyLoop_nodes.
  - reflexivity.
  - apply firstOccurrences_NoDup. constructor.
  - intros file. rewrite firstOccurrences_In. cbn [In]. intuition.
  - intros Hnd. apply (firstOccurrences_id _ []). exact Hnd.
Qed.

Lemma branch_is_early_branch_without_repetitions_witness :
  exists early branch,
    collectBranchEarly Sample.repeatTree "r.js" = Ok early /\
    collectBranch Sample.repeatTree "r.js" = Ok branch /\
    early = map fst (filter (fun entry => negb (snd entry))
                            (nodesBelow (mkNode true
              [ (Sample.fileA, mkNode false []);
                (Sample.fileB, mkNode true
                   [(Sample.fileA, mkNode false [(Sample.fileC, mkNode false [])])]) ]))) /\
    branch = firstOccurrences early [] /\
    NoDup branch /\
    (forall file, In file branch <-> In file early) /\
    (NoDup early -> branch = early).
Proof.
  apply (branch_is_early_branch_without_repetitions Sample.repeatTree "r.js" Sample.fileR).
  - vm_compute. reflexivity.
  - vm_compute. reflexivity.
  - reflexivity.
Defined.

(* ----------------------------------------------------------------- *)
(** ** The callee, with or without its suffix *)

Lemma substring_all : forall s, substring 0 (String.length s) s = s.
Proof. induction s as [|c s IH]; cbn; [reflexivity|rewrite IH; reflexivity]. Qed.

Lemma substring_append_r : forall s t,
  substring (String.length s) (String.length t) (String.append s t) = t.
Proof.
  induction s as [|c s IH]; intros t; cbn [String.append String.length].
  - apply substring_all.
  - cbn [substring]. apply IH.
Qed.

Lemma length_append : forall s t,
  String.length (String.append s t) = String.length s + String.length t.
Proof. induction s as [|c s IH]; intros t; cbn; [reflexivity|rewrite IH; reflexivity]. Qed.

Lemma endsWith_append : forall s t, JsString.endsWith (String.append s t) t = true.
Proof.
  intros s t. unfold JsString.endsWith. rewrite length_append.
  replace (String.length t <=? String.length s + String.length t) with true
    by (symmetry; apply Nat.leb_le; lia).
  replace (String.length s + String.length t - String.length t) with (String.length s) by lia.
  rewrite substring_append_r. apply String.eqb_refl.
Qed.

(** X23. [routerForwardCall] appends ".js" to a callee that does not end
    with it, and to no other: the file key it works with always ends with
    ".js", normalising twice changes nothing, and the synchronous part (the
    guards, the branch and the key) is the same for a callee given with and
    without the suffix. *)
Theorem callee_suffix_is_optional :
  forall (tree : DependencyTree) (ivs : dict (dict string)) (live : dict string)
         (callee : string),
  JsString.endsWith (normalizeCallee callee) ".js" = true /\
  normalizeCallee (normalizeCallee callee) = normalizeCallee callee /\
  routerSync tree ivs live (normalizeCallee callee) = routerSync tree ivs live callee /\
  (JsString.endsWith callee ".js" = false ->
   routerSync tree ivs live (String.append callee ".js") = routerSync tree ivs live callee).
Proof.
  intros tree ivs live callee.
  assert (Hends : JsString.endsWith (normalizeCallee callee) ".js" = true).
  { unfold normalizeCallee. destruct (JsString.endsWith callee ".js") eqn:E; cbn [negb].
    - exact E.
    - apply endsWith_append. }
  assert (Hidem : normalizeCallee (normalizeCallee callee) = normalizeCallee callee).
  { unfold normalizeCallee at 1. rewrite Hends. reflexivity. }
  assert (Hsync : routerSync tree ivs live (normalizeCallee callee)
                  = routerSync tree ivs live callee).
  { unfold routerSync. rewrite Hidem. reflexivity. }
  split; [exact Hends|]. split; [exact Hidem|]. split; [exact Hsync|].
  intros Hno. rewrite <- Hsync. unfold normalizeCallee. rewrite Hno. reflexivity.
Qed.

Lemma callee_suffix_is_optional_witness :
  routerSync Sample.tree Sample.ivsMapping Sample.globalHashes (String.append "file3" ".js")
  = routerSync Sample.tree Sample.ivsMapping Sample.globalHashes "file3".
Proof.
  apply (callee_suffix_is_optional Sample.tree Sample.ivsMapping Sample.globalHashes "file3").
  vm_compute. reflexivity.
Defined.

(* ----------------------------------------------------------------- *)
(** ** Descriptors, written and parsed *)

Lemma split_sepFree : forall isSep s,
  sepFree isSep s = true -> JsString.split isSep s = [s].
Proof.
  intros isSep. induction s as [|c s IH]; intros Hfree; [reflexivity|].
  cbn [sepFree] in Hfree. apply andb_true_iff in Hfree. destruct Hfree as [Hc Hs].
  apply negb_true_iff in Hc. cbn [JsString.split]. rewrite Hc, (IH Hs). reflexivity.
Qed.

Lemma split_append_sep : forall isSep a c rest,
  sepFree isSep a = true -> isSep c = true ->
  JsString.split isSep (String.append a (String c rest)) = a :: JsString.split isSep rest.
Proof.
  intros isSep. induction a as [|x a IH]; intros c rest Hfree Hc.
  - cbn [String.append JsString.split]. rewrite Hc. reflexivity.
  - cbn [sepFree] in Hfree. apply andb_true_iff in Hfree. destruct Hfree as [Hx Ha].
    apply negb_true_iff in Hx. cbn [String.append JsString.split].
    rewrite Hx, (IH c rest Ha Hc). reflexivity.
Qed.

Lemma join_cons : forall sep x y l,
  join sep (x :: y :: l) = String.append x (String sep (join sep (y :: l))).
Proof. reflexivity. Qed.

Lemma split_join : forall isSep sep parts,
  isSep sep = true -> parts <> [] ->
  Forall (fun part => sepFree isSep part = true) parts ->
  JsString.split isSep (join sep parts) = parts.
Proof.
  intros isSep sep parts Hsep. induction parts as [|x parts IH]; intros Hne Hall; [congruence|].
  inversion Hall as [|? ? Hx Hrest]; subst.
  destruct parts as [|y parts].
  - apply split_sepFree, Hx.
  - rewrite join_cons, (split_append_sep isSep x sep _ Hx Hsep).
    rewrite IH; [reflexivity|discriminate|exact Hrest].
Qed.

Lemma sepFree_append : forall isSep a b,
  sepFree isSep (String.append a b) = sepFree isSep a && sepFree isSep b.
Proof.
  intros isSep. induction a as [|x a IH]; intros b; [reflexivity|].
  cbn [String.append sepFree]. rewrite IH, andb_assoc. reflexivity.
Qed.

Lemma sepFree_join : forall isSep sep parts,
  isSep sep = false ->
  Forall (fun part => sepFree isSep part = true) parts ->
  sepFree isSep (join sep parts) = true.
Proof.
  intros isSep sep parts Hsep. induction parts as [|x parts IH]; intros Hall; [reflexivity|].
  inversion Hall as [|? ? Hx Hrest]; subst.
  destruct parts as [|y parts]; [exact Hx|].
  rewrite join_cons, sepFree_append, Hx. cbn [sepFree andb]. rewrite Hsep. cbn [negb andb].
  apply IH, Hrest.
Qed.

Section DescriptorFacts.
Context `{BrowserHost}.

Lemma convertParams_length : forall types values,
  List.length types = List.length values ->
  List.length (fst (convertParams types values)) = List.length types.
Proof.
  induction types as [|t types IH]; intros [|v values] Hlen; try discriminate; [reflexivity|].
  cbn [convertParams fst List.length]. rewrite IH; [reflexivity|].
  cbn in Hlen. lia.
Qed.

Lemma descriptor_parts : forall fileId functionName typesStr valuesStr,
  sepFree JsString.isDash fileId = true -> sepFree JsString.isDash functionName = true ->
  sepFree JsString.isDash typesStr = true -> sepFree JsString.isDash valuesStr = true ->
  JsString.split JsString.isDash (join "-" [fileId; functionName; typesStr; valuesStr])
  = [fileId; functionName; typesStr; valuesStr].
Proof.
  intros fileId functionName typesStr valuesStr Hf Hn Ht Hv.
  apply split_join; [reflexivity|discriminate|].
  repeat constructor; assumption.
Qed.

(** X24. Descriptors round-trip through [parseAndCall].  A descriptor
    written as [fileId-functionName-types-values], with the types and the
    values joined by commas, none of the fields holding a "-" and none of the
    types and values a ",", is parsed back into the same fields: the function
    is called with one converted argument per type.  When the types field or
    the values field is the string "null" the function is called without
    arguments, whatever the other field holds. *)
Theorem descriptor_round_trip :
  forall (fileId functionName caller : string) (types values : list string),
  sepFree JsString.isDash fileId = true ->
  sepFree JsString.isDash functionName = true ->
  Forall (fun s => sepFree JsString.isDash s = true /\ sepFree JsString.isComma s = true)
         (types ++ values) ->
  types <> [] -> List.length types = List.length values ->
  let typesStr := join "," types in
  let valuesStr := join "," values in
  let converted := convertParams types values in
  let called := dispatch (Some functionName) (fst converted) in
  (typesStr <> "null" -> valuesStr <> "null" ->
   parseAndCall (join "-" [fileId; functionName; typesStr; valuesStr]) caller []
   = (snd converted ++ ConsoleLog "Chiamata proveniente da:" :: fst called, snd called)) /\
  List.length (fst converted) = List.length types /\
  (typesStr = "null" \/ valuesStr = "null" ->
   parseAndCall (join "-" [fileId; functionName; typesStr; valuesStr]) caller []
   = (ConsoleLog "Chiamata proveniente da:" :: fst (dispatch (Some functionName) []),
      snd (dispatch (Some functionName) []))).
Proof.
  intros fileId functionName caller types values Hf Hn Hall Hne Hlen.
  cbv zeta.
  apply Forall_app in Hall. destruct Hall as [Ht Hv].
  assert (Hvne : values <> []) by (destruct values; [destruct types; [congruence|discriminate]|discriminate]).
  assert (Htd : sepFree JsString.isDash (join "," types) = true).
  { apply sepFree_join; [reflexivity|]. eapply Forall_impl; [|exact Ht]. intros s [Hs _]. exact Hs. }
  assert (Hvd : sepFree JsString.isDash (join "," values) = true).
  { apply sepFree_join; [reflexivity|]. eapply Forall_impl; [|exact Hv]. intros s [Hs _]. exact Hs. }
  assert (Hts : JsString.split JsString.isComma (join "," types) = types).
  { apply split_join; [reflexivity|exact Hne|].
    eapply Forall_impl; [|exact Ht]. intros s [_ Hs]. exact Hs. }
  assert (Hvs : JsString.split JsString.isComma (join "," values) = values).
  { apply split_join; [reflexivity|exact Hvne|].
    eapply Forall_impl; [|exact Hv]. intros s [_ Hs]. exact Hs. }
  pose proof (descriptor_parts fileId functionName _ _ Hf Hn Htd Hvd) as Hparts.
  split; [|split].
  - intros Htn Hvn. unfold parseAndCall. rewrite Hparts.
    cbn [List.length Nat.eqb negb nth nth_error].
    apply String.eqb_neq in Htn, Hvn. rewrite Htn, Hvn. cbn [negb andb].
    rewrite Hts, Hvs.
    replace (List.length types =? List.length values) with true
      by (symmetry; apply Nat.eqb_eq; exact Hlen).
    reflexivity.
  - apply convertParams_length, Hlen.
  - intros Hnull. unfold parseAndCall. rewrite Hparts.
    cbn [List.length Nat.eqb negb nth nth_error].
    destruct Hnull as [-> | ->].
    + reflexivity.
    + cbn [String.eqb Ascii.eqb Bool.eqb negb]. rewrite andb_false_r. reflexivity.
Qed.

End DescriptorFacts.

Lemma descriptor_round_trip_witness :
  @parseAndCall Sample.browser
    (join "-" ["file3"; "funct1"; join "," ["number"; "string"]; join "," ["7"; "hello"]])
    "file3" []
  = ([ConsoleLog "Chiamata proveniente da:";
      Invoke "funct1" [VNum (NumInt 7); VStr "hello"]], Normal).
Proof.
  destruct (@descriptor_round_trip Sample.browser "file3" "funct1" "file3"
              ["number"; "string"] ["7"; "hello"]) as [Hparse _].
  - reflexivity.
  - reflexivity.
  - repeat constructor.
  - discriminate.
  - reflexivity.
  - rewrite Hparse; [reflexivity| |]; vm_compute; discriminate.
Defined.

(* ----------------------------------------------------------------- *)
(** ** The precomputed table, from the build to the verifier *)

Lemma verifyLoop_passes : forall simplified live files seen,
  (forall file, In file files ->
     exists h, dict_get file simplified = Some h /\ h <> "" /\
               dict_get file live = Some h) ->
  verifyLoop simplified live seen files
  = {| compared := seen ++ files; emitted := [ConsoleLog "Tutti gli hash combaciano."] |}.
Proof.
  intros simplified live. induction files as [|file files IH]; intros seen Hall.
  - cbn. rewrite app_nil_r. reflexivity.
  - cbn [verifyLoop].
    destruct (Hall file (or_introl eq_refl)) as [h [Hs [Hne Hl]]].
    rewrite Hs, Hl, String.eqb_refl.
    destruct h as [|c h]; [congruence|]. cbn [JsString.truthy negb orb].
    rewrite IH; [rewrite <- app_assoc; reflexivity|].
    intros f Hf. apply Hall. right. exact Hf.
Qed.

Lemma verifyLoop_fails : forall simplified live files seen file h,
  In file files ->
  dict_get file simplified = Some h ->
  h = "" \/ dict_get file live <> Some h ->
  emitted (verifyLoop simplified live seen files) = [ConsoleWarn "Mismatch per"; InsertOverlay].
Proof.
  intros simplified live. induction files as [|f files IH]; intros seen file h Hin Hs Hbad;
    [destruct Hin|].
  cbn [verifyLoop].
  match goal with |- context [if ?b then _ else _] => destruct b eqn:Eb end;
    [reflexivity|].
  destruct Hin as [->|Hin]; [|exact (IH (seen ++ [f]) file h Hin Hs Hbad)].
  exfalso. rewrite Hs in Eb. apply orb_false_iff in Eb. destruct Eb as [Et Ed].
  destruct Hbad as [->|Hbad]; [discriminate|].
  destruct (dict_get file live) as [a|]; [|discriminate].
  apply negb_false_iff, String.eqb_eq in Ed. subst a. congruence.
Qed.

Lemma simplified_entry : forall precomputed path h,
  NoDup (map (fun entry => verifierFileName (fst entry)) precomputed) ->
  In (path, h) precomputed ->
  dict_get (verifierFileName path) (simplifyPrecomputed precomputed) = Some h.
Proof.
  intros precomputed path h Hnd Hin. unfold simplifyPrecomputed.
  rewrite (fold_dict_set_last (string * string) string
             (fun kv => verifierFileName (fst kv)) snd).
  destruct (find _ (rev precomputed)) as [[path' h']|] eqn:Ef.
  - apply find_some in Ef. destruct Ef as [Hin' Heq].
    apply String.eqb_eq in Heq. cbn [fst] in Heq. apply in_rev in Hin'. cbn [snd].
    f_equal. clear - Hnd Hin Hin' Heq.
    induction precomputed as [|[p x] l IH]; [destruct Hin|].
    cbn [map fst] in Hnd. inversion Hnd as [|? ? Hnot Hnd']; subst.
    destruct Hin as [Hin|Hin], Hin' as [Hin'|Hin'].
    + congruence.
    + injection Hin as -> ->. exfalso. apply Hnot.
      apply in_map_iff. exists (path', h'). split; [exact Heq|exact Hin'].
    + injection Hin' as -> ->. exfalso. apply Hnot.
      apply in_map_iff. exists (path, h). split; [symmetry; exact Heq|exact Hin].
    + apply (IH Hnd' Hin Hin').
  - apply in_rev in Hin. pose proof (find_none _ _ Ef (path, h) Hin) as Hno.
    cbn [fst] in Hno. rewrite String.eqb_refl in Hno. discriminate.
Qed.

Lemma simplified_key : forall precomputed name,
  In name (dict_keys (simplifyPrecomputed precomputed)) ->
  exists path h, In (path, h) precomputed /\ verifierFileName path = name /\
                 dict_get name (simplifyPrecomputed precomputed) <> None.
Proof.
  intros precomputed name Hin.
  destruct (dict_get name (simplifyPrecomputed precomputed)) as [h|] eqn:Eg.
  - pose proof Eg as Eg'. unfold simplifyPrecomputed in Eg.
    rewrite (fold_dict_set_last (string * string) string
               (fun kv => verifierFileName (fst kv)) snd) in Eg.
    destruct (find _ (rev precomputed)) as [[path h']|] eqn:Ef; [|discriminate].
    apply find_some in Ef. destruct Ef as [Hin' Heq].
    apply String.eqb_eq in Heq. apply in_rev in Hin'.
    exists path, h'. split; [exact Hin'|]. split; [exact Heq|discriminate].
  - apply dict_get_None in Eg. contradiction.
Qed.

Lemma verifyHashes_distinct_names : forall precomputed live,
  NoDup (map (fun entry => verifierFileName (fst entry)) precomputed) ->
  verifyHashes precomputed live
  = if forallb (entryPasses live) precomputed
    then {| compared := dict_keys (simplifyPrecomputed precomputed);
            emitted := [ConsoleLog "Tutti gli hash combaciano."] |}
    else {| compared := compared (verifyHashes precomputed live);
            emitted := [ConsoleWarn "Mismatch per"; InsertOverlay] |}.
Proof.
  intros precomputed live Hnd. unfold verifyHashes at 1.
  destruct (forallb (entryPasses live) precomputed) eqn:Eall.
  - rewrite forallb_forall in Eall. apply verifyLoop_passes.
    intros name Hname.
    destruct (simplified_key precomputed name Hname) as [path [h [Hin [Hn _]]]].
    exists h. rewrite <- Hn, (simplified_entry precomputed path h Hnd Hin).
    specialize (Eall _ Hin). unfold entryPasses in Eall. cbn [fst snd] in Eall.
    destruct (dict_get (verifierFileName path) live) as [a|]; [|discriminate].
    apply andb_true_iff in Eall. destruct Eall as [Ht Ea].
    apply String.eqb_eq in Ea. subst a.
    split; [reflexivity|]. split; [|reflexivity].
    destruct h; [discriminate|discriminate].
  - assert (Hbad : exists path h, In (path, h) precomputed /\ entryPasses live (path, h) = false).
    { clear Hnd. induction precomputed as [|[p x] l IH]; [discriminate|].
      cbn [forallb] in Eall. apply andb_false_iff in Eall. destruct Eall as [E1|E2].
      - exists p, x. split; [left; reflexivity|exact E1].
      - destruct (IH E2) as [path [h [Hin Hf]]]. exists path, h. split; [right; exact Hin|exact Hf]. }
    destruct Hbad as [path [h [Hin Hf]]].
    pose proof (simplified_entry precomputed path h Hnd Hin) as Hs.
    assert (Hem : emitted (verifyLoop (simplifyPrecomputed precomputed) live []
                             (dict_keys (simplifyPrecomputed precomputed)))
                  = [ConsoleWarn "Mismatch per"; InsertOverlay]).
    { apply (verifyLoop_fails _ _ _ [] (verifierFileName path) h).
      - apply dict_get_In in Hs. unfold dict_keys. apply in_map_iff.
        exists (verifierFileName path, h). split; [reflexivity|exact Hs].
      - exact Hs.
      - unfold entryPasses in Hf. cbn [fst snd] in Hf.
        destruct (dict_get (verifierFileName path) live) as [a|]; [|right; discriminate].
        apply andb_false_iff in Hf. destruct Hf as [Ht|Ha].
        + left. destruct h; [reflexivity|discriminate].
        + right. apply String.eqb_neq in Ha. congruence. }
    unfold verifyHashes.
    destruct (verifyLoop _ live [] _) as [c e]. cbn [emitted compared] in *. subst e.
    reflexivity.
Qed.

(** X25. [verifyHashes] in terms of the precomputed table itself.  When no
    two paths of the table have the same bare name, the verifier succeeds
    exactly when every entry passes: [globalHashes] holds, under the bare name
    of the path, the very hash of the entry, and that hash is not empty.  Then
    every name is compared and the success line is logged; otherwise the
    verifier warns of a mismatch and inserts the overlay. *)
Theorem verifyHashes_entry_by_entry :
  forall (precomputed globalHashes : dict string),
  NoDup (map (fun entry => verifierFileName (fst entry)) precomputed) ->
  if forallb (entryPasses globalHashes) precomputed
  then verifyHashes precomputed globalHashes
       = {| compared := map (fun entry => verifierFileName (fst entry)) precomputed;
            emitted := [ConsoleLog "Tutti gli hash combaciano."] |}
  else emitted (verifyHashes precomputed globalHashes)
       = [ConsoleWarn "Mismatch per"; InsertOverlay].
Proof.
  intros precomputed live Hnd.
  rewrite (verifyHashes_distinct_names precomputed live Hnd).
  destruct (forallb (entryPasses live) precomputed); [|reflexivity].
  f_equal. clear live. unfold simplifyPrecomputed.
  assert (Hgen : forall l (d0 : dict string),
             NoDup (dict_keys d0 ++ map (fun entry => verifierFileName (fst entry)) l) ->
             dict_keys (fold_left (fun simplified kv =>
                                     dict_set (verifierFileName (fst kv)) (snd kv) simplified)
                                  l d0)
             = dict_keys d0 ++ map (fun entry => verifierFileName (fst entry)) l).
  { induction l as [|[p x] l IH]; intros d0 Hd; cbn [fold_left map fst snd].
    - rewrite app_nil_r. reflexivity.
    - assert (Hfresh : ~ In (verifierFileName p) (dict_keys d0)).
      { apply NoDup_remove_2 in Hd. intros Hin. apply Hd, in_or_app. left. exact Hin. }
      assert (Hset : dict_keys (dict_set (verifierFileName p) x d0)
                     = dict_keys d0 ++ [verifierFileName p]).
      { clear - Hfresh. induction d0 as [|[k v] d0 IHd]; [reflexivity|].
        cbn [dict_set]. destruct (String.eqb (verifierFileName p) k) eqn:E.
        - apply String.eqb_eq in E. exfalso. apply Hfresh. left. symmetry. exact E.
        - cbn [dict_keys map fst app]. f_equal. apply IHd.
          intros Hin. apply Hfresh. right. exact Hin. }
      rewrite IH; rewrite Hset, <- app_assoc; [reflexivity|exact Hd]. }
  apply (Hgen precomputed []). exact Hnd.
Qed.

Lemma verifyHashes_entry_by_entry_witness :
  verifyHashes Sample.windowsPrecomputed Sample.globalHashes
  = {| compared := ["file1.js"]; emitted := [ConsoleLog "Tutti gli hash combaciano."] |}.
Proof.
  apply (verifyHashes_entry_by_entry Sample.windowsPrecomputed Sample.globalHashes).
  vm_compute. constructor; [intros []|constructor].
Defined.

Section BuildTable.
Context `{BuildHost}.
Hypothesis sha_length : forall content, String.length (sha256hex content) = 64.

Lemma computeHashes_get : forall recompiledFiles file,
  dict_get file (computeHashesForJsFiles recompiledFiles)
  = if existsb (String.eqb file) recompiledFiles
       && negb (String.eqb (path_basename file) "Router.js")
    then option_map sha256hex (readFileSync file) else None.
Proof.
  intros files file. unfold computeHashesForJsFiles.
  rewrite (fold_set_get string string readFileSync sha256hex).
  assert (Hex : existsb (String.eqb file)
                        (filter (fun f => negb (String.eqb (path_basename f) "Router.js")) files)
                = existsb (String.eqb file) files
                  && negb (String.eqb (path_basename file) "Router.js")).
  { induction files as [|f files IH]; [reflexivity|].
    cbn [filter existsb].
    destruct (String.eqb file f) eqn:E.
    - apply String.eqb_eq in E. subst f. cbn [orb andb].
      destruct (negb (String.eqb (path_basename file) "Router.js")) eqn:Er.
      + cbn [existsb]. rewrite String.eqb_refl. reflexivity.
      + rewrite IH. rewrite ?Er. apply andb_false_r.
    - destruct (negb (String.eqb (path_basename f) "Router.js")).
      + cbn [existsb]. rewrite E. exact IH.
      + exact IH. }
  rewrite Hex.
  destruct (readFileSync file), (existsb (String.eqb file) files && _); reflexivity.
Qed.

Lemma computeHashes_loop_NoDup : forall (l : list string) (d0 : dict string),
  NoDup (dict_keys d0) ->
  NoDup (dict_keys (fold_left (fun hashObj file =>
                                 match readFileSync file with
                                 | Some content => dict_set file (sha256hex content) hashObj
                                 | None => hashObj
                                 end) l d0)).
Proof.
  induction l as [|f l IH]; intros d0 Hd0; [exact Hd0|].
  cbn [fold_left]. destruct (readFileSync f); [|apply IH, Hd0].
  apply IH, dict_set_NoDup, Hd0.
Qed.

(** X26. From the build to the page.  [computeHashesForJsFiles] writes one
    entry per readable file of the recompiled folder other than Router.js:
    the full path and the SHA-256 of the content; Router.js and the files
    that cannot be read have no entry.  When those files have distinct bare
    names (with backslash separators) and [globalHashes] holds for each the
    SHA-256 of that same content, [verifyHashes] on the table logs success;
    when for one of them it holds another hash or none, the overlay is
    inserted. *)
Theorem build_table_verifies_untampered_files :
  forall (recompiledFiles : list string) (globalHashes : dict string),
  let table := computeHashesForJsFiles recompiledFiles in
  NoDup (map (fun entry => verifierFileName (fst entry)) table) ->
  (forall file, dict_get file table
                = if existsb (String.eqb file) recompiledFiles
                     && negb (String.eqb (path_basename file) "Router.js")
                  then option_map sha256hex (readFileSync file) else None) /\
  ((forall file content, In file (dict_keys table) -> readFileSync file = Some content ->
      dict_get (verifierFileName file) globalHashes = Some (sha256hex content)) ->
   emitted (verifyHashes table globalHashes) = [ConsoleLog "Tutti gli hash combaciano."]) /\
  (forall file content, In file (dict_keys table) -> readFileSync file = Some content ->
      dict_get (verifierFileName file) globalHashes <> Some (sha256hex content) ->
   emitted (verifyHashes table globalHashes) = [ConsoleWarn "Mismatch per"; InsertOverlay]).
Proof.
  intros files live table Hnd.
  assert (Hentry : forall file h, In (file, h) table ->
            exists content, readFileSync file = Some content /\ h = sha256hex content).
  { intros file h Hin.
    assert (Hk : NoDup (dict_keys table)).
    { unfold table, computeHashesForJsFiles. apply computeHashes_loop_NoDup. constructor. }
    apply (dict_In_get _ _ _ Hk) in Hin. unfold table in Hin.
    rewrite computeHashes_get in Hin.
    destruct (existsb _ files && _); [|discriminate].
    destruct (readFileSync file) as [content|]; [|discriminate].
    exists content. split; [reflexivity|]. cbn in Hin. congruence. }
  split; [apply computeHashes_get|]. split.
  - intros Hlive. rewrite (verifyHashes_distinct_names table live Hnd).
    replace (forallb (entryPasses live) table) with true; [reflexivity|].
    symmetry. apply forallb_forall. intros [file h] Hin.
    destruct (Hentry file h Hin) as [content [Hread ->]].
    unfold entryPasses. cbn [fst snd].
    rewrite (Hlive file content); [|unfold dict_keys; apply in_map_iff;
                                    exists (file, sha256hex content); split;
                                    [reflexivity|exact Hin]|exact Hread].
    rewrite String.eqb_refl, andb_true_r.
    pose proof (sha_length content) as Hl.
    destruct (sha256hex content); [discriminate|reflexivity].
  - intros file content Hkey Hread Hbad.
    rewrite (verifyHashes_distinct_names table live Hnd).
    replace (forallb (entryPasses live) table) with false; [reflexivity|].
    symmetry. apply not_true_is_false. intros Hall.
    rewrite forallb_forall in Hall.
    unfold dict_keys in Hkey. apply in_map_iff in Hkey.
    destruct Hkey as [[file' h] [Hf Hin]]. cbn [fst] in Hf. subst file'.
    destruct (Hentry file h Hin) as [content' [Hread' ->]].
    rewrite Hread in Hread'. injection Hread' as <-.
    specialize (Hall _ Hin). unfold entryPasses in Hall. cbn [fst snd] in Hall.
    destruct (dict_get (verifierFileName file) live) as [a|]; [|discriminate].
    apply andb_true_iff in Hall. destruct Hall as [_ Ha].
    apply String.eqb_eq in Ha. subst a. apply Hbad. reflexivity.
Qed.

End BuildTable.

Lemma build_table_verifies_untampered_files_witness :
  emitted (verifyHashes (@computeHashesForJsFiles Sample.node [Sample.file1; Sample.file3])
                        [("file1.js", Sample.hexA); ("file3.js", Sample.hexB)])
  = [ConsoleLog "Tutti gli hash combaciano."] /\
  emitted (verifyHashes (@computeHashesForJsFiles Sample.node [Sample.file1; Sample.file3])
                        [("file1.js", Sample.hexA)])
  = [ConsoleWarn "Mismatch per"; InsertOverlay].
Proof.
  split.
  - apply (@build_table_verifies_untampered_files Sample.node sample_sha_length
             [Sample.file1; Sample.file3] [("file1.js", Sample.hexA); ("file3.js", Sample.hexB)]).
    + vm_compute. repeat constructor; simpl; intuition discriminate.
    + intros file content Hin Hread. vm_compute in Hin.
      destruct Hin as [<-|[<-|[]]]; vm_compute in Hread; injection Hread as <-;
        vm_compute; reflexivity.
  - apply (@build_table_verifies_untampered_files Sample.node sample_sha_length
             [Sample.file1; Sample.file3] [("file1.js", Sample.hexA)])
      with (file := Sample.file3) (content := Sample.content3).
    + vm_compute. repeat constructor; simpl; intuition discriminate.
    + vm_compute. right. left. reflexivity.
    + vm_compute. reflexivity.
    + vm_compute. discriminate.
Defined.

(* ----------------------------------------------------------------- *)
(** ** What the tree says about the files *)

Section TreeFacts.
Context `{BuildHost}.

(** Every root of the tree is what [processFile] returned for it, with the
    function index of the analysis. *)
Lemma analyzeDependencies_root_index : forall fuel allFiles tree file n,
  analyzeDependencies fuel allFiles = Returned tree ->
  In (file, n) tree ->
  exists globalFunctionIndex,
    buildGlobalFunctionIndex allFiles (buildFileDeclarations allFiles)
      = Ok globalFunctionIndex /\
    processFile allFiles (buildFileBaseIndex allFiles) (buildFileContents allFiles)
                (buildFileDeclarations allFiles) globalFunctionIndex fuel file []
    = Returned (Some n).
Proof.
  intros fuel allFiles tree file n. unfold analyzeDependencies.
  destruct (buildGlobalFunctionIndex allFiles (buildFileDeclarations allFiles))
    as [gfi|e]; [|discriminate].
  intros Hfold Hin. exists gfi. split; [reflexivity|].
  set (step := fun (acc : Outcome DependencyTree) (f : string) =>
                 obind acc (fun dependencyTree =>
                   obind (processFile allFiles (buildFileBaseIndex allFiles)
                                      (buildFileContents allFiles)
                                      (buildFileDeclarations allFiles) gfi fuel f [])
                     (fun node =>
                        match node with
                        | Some n => Returned (dict_set f n dependencyTree)
                        | None => Returned dependencyTree
                        end))) in *.
  set (P := fun (f : string) (n : DependencyNode) =>
              processFile allFiles (buildFileBaseIndex allFiles) (buildFileContents allFiles)
                          (buildFileDeclarations allFiles) gfi fuel f [] = Returned (Some n)).
  assert (Hstuck : forall l (a : Outcome DependencyTree),
             (forall t, a <> Returned t) -> forall t, fold_left step l a <> Returned t).
  { induction l as [|f l IH]; intros a Ha t; cbn; [apply Ha|].
    apply IH. intros t'. subst step. cbn. destruct a; cbn; try discriminate.
    exfalso. exact (Ha a eq_refl). }
  assert (G : forall l acc t,
             fold_left step l (Returned acc) = Returned t ->
             (forall f n, In (f, n) acc -> P f n) ->
             forall f n, In (f, n) t -> P f n).
  { induction l as [|f l IH]; intros acc t Hf Hacc.
    - cbn in Hf. injection Hf as <-. exact Hacc.
    - change (fold_left step (f :: l) (Returned acc))
        with (fold_left step l (step (Returned acc) f)) in Hf.
      destruct (step (Returned acc) f) as [| |acc1] eqn:Es.
      { exfalso. apply (Hstuck l OutOfFuel ltac:(discriminate) t Hf). }
      { exfalso. apply (Hstuck l (Raised e) ltac:(discriminate) t Hf). }
      apply (IH acc1 t Hf).
      subst step. cbn in Es.
      destruct (processFile _ _ _ _ _ fuel f []) as [| |[n0|]] eqn:Ep;
        cbn in Es; try discriminate; injection Es as <-; [|exact Hacc].
      apply dict_set_values; [exact Ep|exact Hacc]. }
  apply (G allFiles [] tree Hfold (fun f n (Hf : In (f, n) []) => match Hf with end)).
  exact Hin.
Qed.

(** X27. The tree [analyzeDependencies] returns reflects the files.  The
    flag of a root, and of every entry below it, is the marker test on the
    content of the file the entry names ([rdOf]), so all occurrences of a file
    carry one flag.  The direct dependencies of a root are exactly the files
    with a content that the root refers to ([callsOf]), other than the root
    itself: through a router call, or by calling a function it does not
    declare itself and that the function index of the analysis holds.  The
    index holds no function named like a member of [Object.prototype], so a
    call of such a function is no dependency.  No file is to be called
    [__proto__.js]: under that base name the assignment to [fileBaseIndex]
    stores nothing. *)
Theorem tree_reflects_the_files :
  forall (fuel : nat) (allFiles : list string) (tree : DependencyTree)
         (root : string) (node : DependencyNode),
  (forall file, In file allFiles -> path_basename_js file <> "__proto__") ->
  analyzeDependencies fuel allFiles = Returned tree ->
  In (root, node) tree ->
  exists globalFunctionIndex,
    buildGlobalFunctionIndex allFiles (buildFileDeclarations allFiles)
      = Ok globalFunctionIndex /\
    (forall fnName, inherited fnName = true -> dict_get fnName globalFunctionIndex = None) /\
    routerDependant node = rdOf (buildFileContents allFiles) root /\
    (forall file flag, In (file, flag) (nodesBelow node) ->
                       flag = rdOf (buildFileContents allFiles) file) /\
    (forall file, In file (dict_keys (dependencies node)) <->
                  In file (callsOf allFiles (buildFileBaseIndex allFiles)
                                   (buildFileContents allFiles)
                                   (buildFileDeclarations allFiles)
                                   globalFunctionIndex root)
                  /\ file <> root).
Proof.
  intros fuel allFiles tree root node _ Htree Hin.
  destruct (analyzeDependencies_root_index fuel allFiles tree root node Htree Hin)
    as [idx [Hidx Hp]].
  exists idx. split; [exact Hidx|].
  split; [intros fnName; apply (functionIndex_skips_inherited _ _ _ fnName Hidx)|].
  apply processFile_graph in Hp.
  destruct (graphNode_children _ _ _ _ _ Hp) as [Hflag [K1 [K2 Hforest]]].
  split; [exact Hflag|]. split.
  - intros file flag Hn. rewrite nodesBelow_forest in Hn.
    exact (forestNodes_flags _ _ _ _ Hforest file flag Hn).
  - intros file. split.
    + intros Hk. destruct (K1 file Hk) as [Hc Hnot]. split; [exact Hc|].
      intros ->. apply Hnot, set_add_In. left. reflexivity.
    + intros [Hc Hne]. destruct (K2 file Hc) as [Hk|Hv]; [exact Hk|].
      apply set_add_In in Hv. destruct Hv as [->|[]]. congruence.
Qed.

(** [b.js] calls [toString], which [a.js] declares: no dependency. *)
Example prototype_named_call_is_no_dependency :
  @analyzeDependencies More.protoNode 3 [More.protoA; More.protoB]
  = Returned [(More.protoA, mkNode false []); (More.protoB, mkNode false [])].
Proof. vm_compute. reflexivity. Qed.

End TreeFacts.

Lemma tree_reflects_the_files_witness :
  exists globalFunctionIndex,
    buildGlobalFunctionIndex Sample.allFiles (@buildFileDeclarations Sample.node Sample.allFiles)
      = Ok globalFunctionIndex /\
    (forall fnName, inherited fnName = true -> dict_get fnName globalFunctionIndex = None) /\
    routerDependant (mkNode true [(Sample.file4, mkNode true []);
                                  (Sample.file1, mkNode false [])])
      = @rdOf (@buildFileContents Sample.node Sample.allFiles) Sample.file3 /\
    (forall file flag,
       In (file, flag) (nodesBelow (mkNode true [(Sample.file4, mkNode true []);
                                                 (Sample.file1, mkNode false [])])) ->
       flag = @rdOf (@buildFileContents Sample.node Sample.allFiles) file) /\
    (forall file,
       In file (dict_keys (dependencies (mkNode true [(Sample.file4, mkNode true []);
                                                      (Sample.file1, mkNode false [])]))) <->
       In file (@callsOf Sample.node Sample.allFiles (@buildFileBaseIndex Sample.node Sample.allFiles)
                         (@buildFileContents Sample.node Sample.allFiles)
                         (@buildFileDeclarations Sample.node Sample.allFiles)
                         globalFunctionIndex Sample.file3)
       /\ file <> Sample.file3).
Proof.
  apply (@tree_reflects_the_files Sample.node 4 Sample.allFiles Sample.projectTree Sample.file3).
  - intros file Hin. vm_compute in Hin.
    destruct Hin as [<-|[<-|[<-|[]]]]; vm_compute; discriminate.
  - vm_compute. reflexivity.
  - vm_compute. right. left. reflexivity.
Defined.

(* ----------------------------------------------------------------- *)
(** ** Instances on the sample data *)

Lemma hexStringToUint8Array_total_witness :
  List.length (hexPairs "zz0a") = 2 /\ hexPairs "zz0a" = 0%Z :: hexPairs "0a".
Proof.
  pose proof (hexStringToUint8Array_total "zz0a") as Htotal.
  change (hexStringToUint8Array "zz0a") with (Ok (hexPairs "zz0a")) in Htotal.
  cbv iota beta in Htotal.
  destruct Htotal as [_ [Hlen [_ Hzero]]].
  split; [exact Hlen|].
  apply (Hzero "z"%char "z"%char "0a"); reflexivity.
Defined.

Lemma xorBuffers_involution_witness :
  xorBuffers (xorBytes [1; 2]%Z [3; 4]%Z) [3; 4]%Z = Ok [1; 2]%Z.
Proof.
  pose proof (xorBuffers_involution [1; 2]%Z [3; 4]%Z) as Hxor.
  change (xorBuffers [1; 2]%Z [3; 4]%Z) with (Ok (xorBytes [1; 2]%Z [3; 4]%Z)) in Hxor.
  cbv iota beta in Hxor.
  exact (proj1 (proj2 (proj2 Hxor))).
Defined.

(* ----------------------------------------------------------------- *)
(** ** The verifier, entry by entry *)

Lemma simplified_keys_distinct : forall precomputed,
  NoDup (map (fun entry => verifierFileName (fst entry)) precomputed) ->
  dict_keys (simplifyPrecomputed precomputed)
  = map (fun entry => verifierFileName (fst entry)) precomputed.
Proof.
  intros precomputed Hnd. unfold simplifyPrecomputed.
  assert (Hgen : forall l (d0 : dict string),
             NoDup (dict_keys d0 ++ map (fun entry => verifierFileName (fst entry)) l) ->
             dict_keys (fold_left (fun simplified kv =>
                                     dict_set (verifierFileName (fst kv)) (snd kv) simplified)
                                  l d0)
             = dict_keys d0 ++ map (fun entry => verifierFileName (fst entry)) l).
  { induction l as [|[p x] l IH]; intros d0 Hd; cbn [fold_left map fst snd].
    - rewrite app_nil_r. reflexivity.
    - assert (Hfresh : ~ In (verifierFileName p) (dict_keys d0)).
      { apply NoDup_remove_2 in Hd. intros Hin. apply Hd, in_or_app. left. exact Hin. }
      assert (Hset : dict_keys (dict_set (verifierFileName p) x d0)
                     = dict_keys d0 ++ [verifierFileName p]).
      { clear - Hfresh. induction d0 as [|[k v] d0 IHd]; [reflexivity|].
        cbn [dict_set]. destruct (String.eqb (verifierFileName p) k) eqn:E.
        - apply String.eqb_eq in E. exfalso. apply Hfresh. left. symmetry. exact E.
        - cbn [dict_keys map fst app]. f_equal. apply IHd.
          intros Hin. apply Hfresh. right. exact Hin. }
      rewrite IH; rewrite Hset, <- app_assoc; [reflexivity|exact Hd]. }
  apply (Hgen precomputed []). exact Hnd.
Qed.

Lemma entryPasses_spec : forall globalHashes (entry : string * string),
  entryPasses globalHashes entry = true <->
  snd entry <> "" /\
  dict_get (verifierFileName (fst entry)) globalHashes = Some (snd entry).
Proof.
  intros live [path h]. unfold entryPasses. cbn [fst snd].
  destruct (dict_get (verifierFileName path) live) as [a|].
  - rewrite andb_true_iff, String.eqb_eq. split.
    + intros [Ht ->]. split; [|reflexivity]. destruct h; [discriminate|discriminate].
    + intros [Hne Ha]. injection Ha as ->. split; [|reflexivity].
      destruct h; [congruence|reflexivity].
  - split; [discriminate|]. intros [_ Ha]. discriminate.
Qed.

Lemma verifyLoop_continue : forall simplified live seen file rest h,
  dict_get file simplified = Some h -> h <> "" -> dict_get file live = Some h ->
  verifyLoop simplified live seen (file :: rest)
  = verifyLoop simplified live (seen ++ [file]) rest.
Proof.
  intros simplified live seen file rest h Hs Hne Hl. cbn [verifyLoop].
  rewrite Hs, Hl, String.eqb_refl.
  destruct h; [congruence|reflexivity].
Qed.

Lemma verifyLoop_stop : forall simplified live seen file rest h,
  dict_get file simplified = Some h ->
  h = "" \/ dict_get file live <> Some h ->
  verifyLoop simplified live seen (file :: rest)
  = {| compared := seen ++ [file];
       emitted := [ConsoleWarn "Mismatch per"; InsertOverlay] |}.
Proof.
  intros simplified live seen file rest h Hs Hbad. cbn [verifyLoop]. rewrite Hs.
  destruct Hbad as [->|Hbad]; [reflexivity|].
  destruct (dict_get file live) as [a|].
  - destruct (String.eqb a h) eqn:E.
    + apply String.eqb_eq in E. subst a. congruence.
    + cbn [negb]. rewrite orb_true_r. reflexivity.
  - rewrite orb_true_r. reflexivity.
Qed.

Lemma first_failing_entry : forall (A : Type) (f : A -> bool) (l : list A),
  forallb f l = true \/
  exists before x rest, l = before ++ x :: rest /\ forallb f before = true /\ f x = false.
Proof.
  intros A f. induction l as [|x l IH]; [left; reflexivity|].
  cbn [forallb]. destruct (f x) eqn:Ex.
  - destruct IH as [Hall|[before [y [rest [Hl [Hb Hy]]]]]]; [left; exact Hall|].
    right. exists (x :: before), y, rest. subst l. split; [reflexivity|].
    split; [cbn [forallb]; rewrite Ex; exact Hb|exact Hy].
  - right. exists [], x, l. split; [reflexivity|]. split; [reflexivity|exact Ex].
Qed.

Lemma verifyLoop_entries : forall precomputed live,
  NoDup (map (fun entry => verifierFileName (fst entry)) precomputed) ->
  forall before rest seen,
    (forall entry, In entry (before ++ rest) -> In entry precomputed) ->
    forallb (entryPasses live) before = true ->
    verifyLoop (simplifyPrecomputed precomputed) live seen
               (map (fun entry => verifierFileName (fst entry)) (before ++ rest))
    = verifyLoop (simplifyPrecomputed precomputed) live
                 (seen ++ map (fun entry => verifierFileName (fst entry)) before)
                 (map (fun entry => verifierFileName (fst entry)) rest).
Proof.
  intros precomputed live Hnd. induction before as [|[path h] before IH];
    intros rest seen Hsub Hpass.
  - cbn [map app]. rewrite app_nil_r. reflexivity.
  - cbn [forallb] in Hpass. apply andb_true_iff in Hpass. destruct Hpass as [Hp Hrest].
    apply entryPasses_spec in Hp. cbn [fst snd] in Hp. destruct Hp as [Hne Hlive].
    cbn [map app fst].
    rewrite (verifyLoop_continue _ _ _ _ _ h);
      [|apply simplified_entry; [exact Hnd|apply Hsub; left; reflexivity]|exact Hne|exact Hlive].
    rewrite IH; [rewrite <- app_assoc; reflexivity| |exact Hrest].
    intros entry Hin. apply Hsub. right. exact Hin.
Qed.

(** C2 (corrected). Tamper verifier, on a precomputed table of [.js] paths
    no two of which have the same file name (the last backslash segment, the
    key the verifier compares under).  An entry passes when its hash is not
    empty and the live table holds that very hash under the entry's file
    name.  If every entry passes, every entry is compared, in table order,
    success is logged and no overlay is inserted.  Otherwise the verifier
    stops at the first entry that does not pass (its hash is missing from the
    live table or differs): it has compared the entries up to that one, warns,
    inserts the overlay and compares no later entry.  One of the two cases
    always applies. *)
Theorem verifyHashes_correct_on_distinct_names (precomputed globalHashes : dict string) :
  NoDup (map (fun entry => verifierFileName (fst entry)) precomputed) ->
  (forall entry, In entry precomputed -> JsString.endsWith (fst entry) ".js" = true) ->
  (forall entry,
      entryPasses globalHashes entry = true <->
      snd entry <> "" /\
      dict_get (verifierFileName (fst entry)) globalHashes = Some (snd entry))
  /\ (forallb (entryPasses globalHashes) precomputed = true ->
      verifyHashes precomputed globalHashes
      = {| compared := map (fun entry => verifierFileName (fst entry)) precomputed;
           emitted := [ConsoleLog "Tutti gli hash combaciano."] |})
  /\ (forall before entry rest,
         precomputed = before ++ entry :: rest ->
         forallb (entryPasses globalHashes) before = true ->
         entryPasses globalHashes entry = false ->
         verifyHashes precomputed globalHashes
         = {| compared := map (fun e => verifierFileName (fst e)) before
                            ++ [verifierFileName (fst entry)];
              emitted := [ConsoleWarn "Mismatch per"; InsertOverlay] |})
  /\ (forallb (entryPasses globalHashes) precomputed = true
      \/ exists before entry rest,
          precomputed = before ++ entry :: rest
          /\ forallb (entryPasses globalHashes) before = true
          /\ entryPasses globalHashes entry = false).
Proof.
  intros Hnd _.
  split; [apply entryPasses_spec|]. split; [|split].
  - intros Hall. unfold verifyHashes. rewrite (simplified_keys_distinct _ Hnd).
    pose proof (verifyLoop_entries precomputed globalHashes Hnd precomputed [] []) as Hloop.
    rewrite app_nil_r in Hloop. rewrite Hloop; [reflexivity|auto|exact Hall].
  - intros before [path h] rest Hsplit Hbefore Hfail.
    unfold verifyHashes. rewrite (simplified_keys_distinct _ Hnd).
    rewrite Hsplit at 2.
    rewrite (verifyLoop_entries precomputed globalHashes Hnd before ((path, h) :: rest) []);
      [|intros entry Hin; rewrite Hsplit; exact Hin|exact Hbefore].
    cbn [map app fst].
    apply (verifyLoop_stop _ _ _ _ _ h).
    + apply simplified_entry; [exact Hnd|]. rewrite Hsplit. apply in_or_app. right. left.
      reflexivity.
    + destruct h as [|c h]; [left; reflexivity|]. right. intros Hlive.
      assert (Hpass : entryPasses globalHashes (path, String c h) = true).
      { apply entryPasses_spec. cbn [fst snd]. split; [discriminate|exact Hlive]. }
      congruence.
  - apply first_failing_entry.
Qed.

Lemma verifyHashes_correct_on_distinct_names_witness :
  verifyHashes Sample.windowsPrecomputed Sample.globalHashes
  = {| compared := ["file1.js"]; emitted := [ConsoleLog "Tutti gli hash combaciano."] |}
  /\ verifyHashes Sample.windowsPrecomputed [("file1.js", Sample.hexB)]
     = {| compared := ["file1.js"];
          emitted := [ConsoleWarn "Mismatch per"; InsertOverlay] |}.
Proof.
  assert (Hnd : NoDup (map (fun entry : string * string => verifierFileName (fst entry))
                           Sample.windowsPrecomputed)).
  { vm_compute. constructor; [intros []|constructor]. }
  assert (Hjs : forall entry, In entry Sample.windowsPrecomputed ->
                              JsString.endsWith (fst entry) ".js" = true).
  { intros entry [<-|[]]. vm_compute. reflexivity. }
  split.
  - apply (proj1 (proj2 (verifyHashes_correct_on_distinct_names
                           Sample.windowsPrecomputed Sample.globalHashes Hnd Hjs))).
    vm_compute. reflexivity.
  - apply (proj1 (proj2 (proj2 (verifyHashes_correct_on_distinct_names
                                  Sample.windowsPrecomputed [("file1.js", Sample.hexB)]
                                  Hnd Hjs)))
             [] ("C:\site\recompiled\file1.js", Sample.hexA) []).
    + reflexivity.
    + reflexivity.
    + vm_compute. reflexivity.
Defined.

(** C2 as stated fails: when two paths of the precomputed table have one
    file name, the re-keying keeps the hash of the later one only.  The live
    hash of [util.js] differs from the hash of the first entry, and the
    verifier compares one name, logs success and inserts no overlay. *)
Lemma verifyHashes_passes_shadowed_entry :
  In (More.utilA, Sample.hexB) More.shadowedPrecomputed
  /\ dict_get (verifierFileName More.utilA) More.shadowedLive = Some Sample.hexA
  /\ Sample.hexA <> Sample.hexB
  /\ verifyHashes More.shadowedPrecomputed More.shadowedLive
     = {| compared := ["util.js"]; emitted := [ConsoleLog "Tutti gli hash combaciano."] |}.
Proof.
  split; [left; reflexivity|]. split; [vm_compute; reflexivity|].
  split; [vm_compute; discriminate|]. vm_compute. reflexivity.
Qed.

(* ----------------------------------------------------------------- *)
(** ** routerForwardCall, decoding included *)

Section RouterOnPageFacts.
Context `{BrowserHost} `{PageHost}.

(** What reaches the caller before the guards: a constant that is no
    base64 or no JSON, and a table [window.globalHashes] that is not there
    when the first branch file is folded. *)
Lemma routerForwardCallOnPage_throws :
  forall (treeB64 ivsB64 : string) (table : option (dict string))
         (callString callee : string) (args : list JSVal),
  (forall e, decodeConstant parseDependencyTree treeB64 = Throw e ->
             routerForwardCallOnPage treeB64 ivsB64 table callString callee args
             = ([], Abrupt e))
  /\ (forall tree e, decodeConstant parseDependencyTree treeB64 = Ok tree ->
                     decodeConstant parseIvsMapping ivsB64 = Throw e ->
                     routerForwardCallOnPage treeB64 ivsB64 table callString callee args
                     = ([], Abrupt e))
  /\ (forall tree ivs m maskHex branch,
         decodeConstant parseDependencyTree treeB64 = Ok tree ->
         decodeConstant parseIvsMapping ivsB64 = Ok ivs ->
         dict_get (normalizeCallee callee) ivs = Some m ->
         dict_get "mask" m = Some maskHex -> maskHex <> "" ->
         collectBranch tree (normalizeCallee callee) = Ok branch -> branch <> [] ->
         routerForwardCallOnPage treeB64 ivsB64 None callString callee args
         = ([], Abrupt "TypeError")).
Proof.
  intros treeB64 ivsB64 table callString callee args. unfold routerForwardCallOnPage.
  split; [|split].
  - intros e ->. reflexivity.
  - intros tree e -> ->. reflexivity.
  - intros tree ivs m maskHex branch -> -> Hm Hmask Hne Hb Hbne.
    unfold routerWithoutHashes. rewrite Hm, Hmask, Hb.
    destruct maskHex; [congruence|]. cbn [JsString.truthy negb].
    destruct branch; [congruence|]. reflexivity.
Qed.


End RouterOnPageFacts.



(** Constants that do not decode, and a page without [window.globalHashes],
    end the call abruptly before any guard logs. *)
Example router_throws_before_the_guards :
  @routerForwardCallOnPage Sample.browser More.page "%%%" "ivs"
     (Some Sample.globalHashes) "CT-static" "file3" []
  = ([], Abrupt "InvalidCharacterError")
  /\ @routerForwardCallOnPage Sample.browser More.page "tree" "{"
       (Some Sample.globalHashes) "CT-static" "file3" []
     = ([], Abrupt "SyntaxError")
  /\ @routerForwardCallOnPage Sample.browser More.page "tree" "ivs" None "CT-static" "file3" []
     = ([], Abrupt "TypeError").
Proof. repeat split; vm_compute; reflexivity. Qed.
